(** * procfs: the main program of the Hurd /proc translator (main.c)

    A shallow embedding of [main.c]: the five command-line options and
    their defaults, [argp_parser], [runtime_argp_parser], the option
    tables, [netfs_append_args], [root_make_node] and [main].

    Data model.  The translator is built for the GNU Hurd on i386
    (ILP32, little-endian): [int], [pid_t] and [long] are 32-bit signed,
    [mode_t], [uid_t], [ino_t] and [uint32_t] are 32-bit unsigned.  Every
    integer is a [Z]; each C conversion is written out as a wrap-around.

    Collaborators that live outside [main.c] are of two kinds.  The pieces
    of the C library that the option code computes with ([strtol], the
    [%d] and [%o] conversions of [snprintf], [argz_add]) and the dispatch
    of the argp library to the parsers are modelled after their
    documentation.  Everything else (the password database, the process
    source, the node constructors of the sibling files, the netfs
    library) is a variable of the section that holds the program. *)

From Stdlib Require Import ZArith List String Ascii Bool Lia.
Import ListNotations.

Local Open Scope string_scope.
Local Open Scope Z_scope.

(** ** Machine integers *)

Definition INT_BITS : Z := 32.
Definition LONG_BITS : Z := 32.

Definition wrap_unsigned (w x : Z) : Z := x mod 2 ^ w.
Definition wrap_signed (w x : Z) : Z :=
  (x + 2 ^ (w - 1)) mod 2 ^ w - 2 ^ (w - 1).

Definition to_int (x : Z) : Z := wrap_signed INT_BITS x.
Definition to_unsigned (x : Z) : Z := wrap_unsigned INT_BITS x.
Definition to_pid_t (x : Z) : Z := to_int x.
Definition to_mode_t (x : Z) : Z := to_unsigned x.
Definition to_uid_t (x : Z) : Z := to_unsigned x.
Definition to_ino_t (x : Z) : Z := to_unsigned x.

Definition INT_MIN : Z := - 2 ^ (INT_BITS - 1).
Definition INT_MAX : Z := 2 ^ (INT_BITS - 1) - 1.
Definition UINT_MAX : Z := 2 ^ INT_BITS - 1.
Definition LONG_MIN : Z := - 2 ^ (LONG_BITS - 1).
Definition LONG_MAX : Z := 2 ^ (LONG_BITS - 1) - 1.

Definition is_int (x : Z) : Prop := INT_MIN <= x <= INT_MAX.
Definition is_unsigned (x : Z) : Prop := 0 <= x <= UINT_MAX.

(** ** The C library: character classes, [strtol], [snprintf] *)

Definition code (c : ascii) : Z := Z.of_N (N_of_ascii c).

(** [isspace] in the C locale. *)
Definition isspace (c : ascii) : bool :=
  (code c =? 32) || ((9 <=? code c) && (code c <=? 13)).

(** The value of a character as a digit of any base up to 36. *)
Definition digit_value (c : ascii) : option Z :=
  let n := code c in
  if (48 <=? n) && (n <=? 57) then Some (n - 48)
  else if (97 <=? n) && (n <=? 122) then Some (n - 87)
  else if (65 <=? n) && (n <=? 90) then Some (n - 55)
  else None.

Definition digit_in (base : Z) (c : ascii) : option Z :=
  match digit_value c with
  | Some d => if d <? base then Some d else None
  | None => None
  end.

Fixpoint skip_space (s : string) : string :=
  match s with
  | String c s' => if isspace c then skip_space s' else s
  | EmptyString => s
  end.

(** The optional sign of the subject sequence. *)
Definition scan_sign (s : string) : bool * string :=
  match s with
  | String c s' =>
      if (c =? "-")%char then (true, s')
      else if (c =? "+")%char then (false, s')
      else (false, s)
  | EmptyString => (false, s)
  end.

(** The base actually used and the string left after an accepted [0x]
    prefix.  A [0x] that no hexadecimal digit follows is not a prefix: the
    subject sequence is then the single digit [0]. *)
Definition scan_base (base : Z) (s : string) : Z * string :=
  match s with
  | String c0 (String c1 (String c2 s')) =>
      if (c0 =? "0")%char && ((c1 =? "x")%char || (c1 =? "X")%char)
         && ((base =? 0) || (base =? 16))
         && (match digit_in 16 c2 with Some _ => true | None => false end)
      then (16, String c2 s')
      else if base =? 0 then (if (c0 =? "0")%char then 8 else 10, s)
      else (base, s)
  | String c0 _ =>
      if base =? 0 then (if (c0 =? "0")%char then 8 else 10, s)
      else (base, s)
  | EmptyString => (if base =? 0 then 10 else base, s)
  end.

(** The digits of the subject sequence: the value read so far, whether
    any digit was read, and the rest of the string. *)
Fixpoint scan_digits (base : Z) (s : string) (acc : Z) (any : bool)
  : Z * bool * string :=
  match s with
  | String c s' =>
      match digit_in base c with
      | Some d => scan_digits base s' (acc * base + d) true
      | None => (acc, any, s)
      end
  | EmptyString => (acc, any, s)
  end.

(** A value outside the range of [long] is returned as [LONG_MIN] or
    [LONG_MAX]. *)
Definition clamp_long (x : Z) : Z :=
  if x <? LONG_MIN then LONG_MIN
  else if LONG_MAX <? x then LONG_MAX
  else x.

(** [strtol (nptr, &endp, base)] for [base] 0 or 2..36: the value and
    the string [endp] points to.  Without a subject sequence the value is
    0 and [endp] is [nptr]. *)
Definition strtol (nptr : string) (base : Z) : Z * string :=
  let '(neg, s1) := scan_sign (skip_space nptr) in
  let '(b, s2) := scan_base base s1 in
  let '(acc, any, rest) := scan_digits b s2 0 false in
  if any then (clamp_long (if neg then - acc else acc), rest)
  else (0, nptr).

(** An octal constant of the C source, such as [0400]. *)
Definition octal (digits : string) : Z :=
  fst (fst (scan_digits 8 digits 0 false)).

(** [*p] as a truth value, for a pointer [p] into a C string. *)
Definition deref (p : string) : bool :=
  match p with
  | EmptyString => false
  | String _ _ => true
  end.

Definition digit_char (d : Z) : ascii := ascii_of_N (Z.to_N (48 + d)).

(** The digits of [n] in [base], most significant first, written in front
    of [acc].  [fuel] bounds the number of digits. *)
Fixpoint fmt_digits (fuel : nat) (base n : Z) (acc : string) : string :=
  match fuel with
  | O => acc
  | S fuel' =>
      let acc' := String (digit_char (n mod base)) acc in
      if n / base =? 0 then acc' else fmt_digits fuel' base (n / base) acc'
  end.

(** No 32-bit value has more than 32 digits. *)
Definition fmt_unsigned (base n : Z) : string :=
  fmt_digits 32 base n "".

(** The conversion [%d] of an [int] and [%o] of an [unsigned]. *)
Definition fmt_d (n : Z) : string :=
  if n <? 0 then String "-" (fmt_unsigned 10 (- n)) else fmt_unsigned 10 n.

Definition fmt_o (n : Z) : string := fmt_unsigned 8 n.

(** [snprintf (buf, size, ...)] keeps at most [size - 1] characters of
    the formatted text. *)
Definition snprintf (size : nat) (text : string) : string :=
  substring 0 (size - 1) text.

(** ** Error codes, argz vectors *)

(** [error_t]: 0 and the codes [main.c] names; [EOTHER] stands for the
    codes only collaborators produce. *)
Inductive error_t : Type :=
| ESUCCESS
| ENOMEM
| ARGP_ERR_UNKNOWN
| EOTHER (n : positive).

Definition is_error (e : error_t) : bool :=
  match e with
  | ESUCCESS => false
  | _ => true
  end.

(** [EINVAL], a code of the C library that [main.c] does not name; on
    the Hurd it is the number 22 of the system 0x10. *)
Definition EINVAL : error_t := EOTHER 0x40000016.

(** An argz vector is a sequence of strings.  [argz_add] appends one
    string; it needs room for the string and its terminator, and fails
    with [ENOMEM], leaving the vector alone, when the allocator cannot
    give it.  The allocator is the number of bytes it can still give. *)
Abbreviation argz := (list string).

Definition argz_add (az : argz) (mem : nat) (str : string)
  : error_t * argz * nat :=
  let need := S (String.length str) in
  if (need <=? mem)%nat then (ESUCCESS, (az ++ [str])%list, (mem - need)%nat)
  else (ENOMEM, az, mem).

(** ** The program's data *)

(** The command-line options of [main.c], lines 35-39. *)
Record options : Type := mkOptions {
  opt_clk_tck : Z;      (* int *)
  opt_stat_mode : Z;    (* mode_t *)
  opt_fake_self : Z;    (* pid_t *)
  opt_kernel_pid : Z;   (* pid_t *)
  opt_anon_owner : Z    (* uid_t *)
}.

Definition set_clk_tck (g : options) (v : Z) : options :=
  mkOptions v (opt_stat_mode g) (opt_fake_self g) (opt_kernel_pid g)
    (opt_anon_owner g).
Definition set_stat_mode (g : options) (v : Z) : options :=
  mkOptions (opt_clk_tck g) v (opt_fake_self g) (opt_kernel_pid g)
    (opt_anon_owner g).
Definition set_fake_self (g : options) (v : Z) : options :=
  mkOptions (opt_clk_tck g) (opt_stat_mode g) v (opt_kernel_pid g)
    (opt_anon_owner g).
Definition set_kernel_pid (g : options) (v : Z) : options :=
  mkOptions (opt_clk_tck g) (opt_stat_mode g) (opt_fake_self g) v
    (opt_anon_owner g).
Definition set_anon_owner (g : options) (v : Z) : options :=
  mkOptions (opt_clk_tck g) (opt_stat_mode g) (opt_fake_self g)
    (opt_kernel_pid g) v.

(** Every option holds a value of its C type. *)
Definition options_wf (g : options) : Prop :=
  is_int (opt_clk_tck g) /\ is_unsigned (opt_stat_mode g) /\
  is_int (opt_fake_self g) /\ is_int (opt_kernel_pid g) /\
  is_unsigned (opt_anon_owner g).

(** Default values, lines 41-46; [OPT_CLK_TCK] is [sysconf
    (_SC_CLK_TCK)], a value of the system. *)
Definition OPT_STAT_MODE : Z := octal "0400".
Definition OPT_FAKE_SELF : Z := -1.
Definition OPT_KERNEL_PID : Z := 2.
Definition OPT_ANON_OWNER : Z := 0.

Definition NODEV_KEY : Z := -1.
Definition NOEXEC_KEY : Z := -2.
Definition NOSUID_KEY : Z := -3.

(** An entry of the password database, as far as [main.c] reads it. *)
Record passwd : Type := mkPasswd {
  pw_name : string;
  pw_uid : Z
}.

(** What a call of an argp parser does: it returns an error code, with
    the options as it leaves them and the messages it gave to
    [argp_error]; or it dereferences a null [arg]. *)
Inductive parse_result : Type :=
| Returned (err : error_t) (g : options) (msgs : list string)
| Fault.

(** What a run of [argp_parse] over a command line does: it returns 0 or
    an error code, with the options as the parsers left them; or the
    library ended the process, after the messages given to [argp_error];
    or a parser faulted. *)
Inductive parse_outcome : Type :=
| Parsed (g : options)
| Failed (err : error_t) (g : options)
| Exited (msgs : list string)
| Crashed.

Definition parser_fn : Type := Z -> option string -> options -> parse_result.

(** A parser of another library has no access to the options of
    [main.c]: it returns its error code and its messages. *)
Definition foreign_parser : Type :=
  Z -> option string -> error_t * list string.

Definition foreign (p : foreign_parser) : parser_fn := fun key arg g =>
  let '(err, msgs) := p key arg in Returned err g msgs.

(** [struct argp_option] and [struct argp]. *)
Record argp_option : Type := mkOption {
  name : string;
  key : Z;
  arg : option string;
  flags : Z;
  doc : string
}.

Definition OPTION_ARG_OPTIONAL : Z := 1.

#[warnings="-register-all"]
Inductive struct_argp : Type :=
| Argp (options : list argp_option) (parser : option parser_fn)
       (doc : string) (children : list struct_argp).

Definition argp_options (a : struct_argp) : list argp_option :=
  match a with Argp o _ _ _ => o end.
Definition argp_parser_of (a : struct_argp) : option parser_fn :=
  match a with Argp _ p _ _ => p end.
Definition argp_children (a : struct_argp) : list struct_argp :=
  match a with Argp _ _ _ c => c end.

(** [struct stat] and [struct node] of the netfs library, as far as
    [main.c] touches them; [nn] is the part the node's maker owns. *)
Record io_statbuf : Type := mkStat {
  st_ino : Z;
  st_mode : Z;
  st_uid : Z;
  st_size : Z
}.

Record node (netnode : Type) : Type := mkNode {
  nn_stat : io_statbuf;
  nn : netnode
}.
Arguments mkNode {netnode} _ _.
Arguments nn_stat {netnode} _.
Arguments nn {netnode} _.

Definition set_st_ino {netnode : Type} (n : node netnode) (i : Z)
  : node netnode :=
  mkNode (mkStat i (st_mode (nn_stat n)) (st_uid (nn_stat n))
            (st_size (nn_stat n)))
         (nn n).

(** The byte at offset [i] of a C string; the byte after the last
    character is the terminator. *)
Definition byte_at (p : string) (i : nat) : Z :=
  match String.get i p with
  | Some c => code c
  | None => 0
  end.

(** Reading a [uint32_t] through a pointer to bytes: the four bytes at
    the pointer, least significant first. *)
Definition load_uint32 (p : string) : Z :=
  Z.lor (byte_at p 0)
    (Z.lor (Z.shiftl (byte_at p 1) 8)
       (Z.lor (Z.shiftl (byte_at p 2) 16) (Z.shiftl (byte_at p 3) 24))).

(** A command-line word [--name] or [--name=value], looked up in an
    option table: the key the parser is called with, and its [arg]. *)
Fixpoint strip_prefix (p s : string) : option string :=
  match p, s with
  | EmptyString, _ => Some s
  | String a p', String b s' =>
      if (a =? b)%char then strip_prefix p' s' else None
  | String _ _, EmptyString => None
  end.

Fixpoint split_at_equals (s : string) : string * option string :=
  match s with
  | EmptyString => (EmptyString, None)
  | String c s' =>
      if (c =? "=")%char then (EmptyString, Some s')
      else let '(n, v) := split_at_equals s' in (String c n, v)
  end.

Fixpoint find_option (opts : list argp_option) (n : string)
  : option argp_option :=
  match opts with
  | [] => None
  | o :: opts' => if (name o =? n)%string then Some o else find_option opts' n
  end.

Definition long_option (opts : list argp_option) (word : string)
  : option (Z * option string) :=
  match strip_prefix "--" word with
  | None => None
  | Some body =>
      let '(n, v) := split_at_equals body in
      match find_option opts n with
      | None => None
      | Some o =>
          match arg o, v with
          | None, Some _ => None
          | None, None => Some (key o, None)
          | Some _, Some _ => Some (key o, v)
          | Some _, None =>
              if Z.testbit (flags o) 0 then Some (key o, None) else None
          end
      end
  end.

Definition dquote : string := String (ascii_of_N 34) EmptyString.

(** ** A small system to run the program on

    Test doubles for the collaborators: a password database of two
    users, a netfs library with two standard options that appends nothing
    to an argz vector, and node makers that record their calls and can run
    out of memory. *)

Definition passwd_db : list passwd :=
  [mkPasswd "root" 0; mkPasswd "nobody" 4294967294].

Fixpoint lookup_passwd (db : list passwd) (n : string) : option passwd :=
  match db with
  | [] => None
  | pw :: db' => if (pw_name pw =? n)%string then Some pw else lookup_passwd db' n
  end.

Definition test_getpwnam : string -> option passwd := lookup_passwd passwd_db.

Definition test_append_std_options : argz -> nat -> error_t * argz * nat :=
  fun az mem => (ESUCCESS, az, mem).

Definition test_std_options : list argp_option :=
  [mkOption "readonly" (code "r") None 0 "Never write to disk";
   mkOption "writable" (code "w") None 0 "Use normal read/write behavior"].

Definition test_foreign_parser : foreign_parser := fun key _ =>
  if (key =? code "r") || (key =? code "w") then (ESUCCESS, [])
  else (ARGP_ERR_UNKNOWN, []).

#[warnings="-register-all"]
Inductive test_netnode : Type :=
| ProclistDir (pc : nat)
| RootDir (pc : nat)
| DircatDir (dirs : list (node test_netnode)).

(** The test world: how many nodes can still be allocated, and the calls
    made so far. *)
Record test_world : Type := mkWorld {
  nodes_left : nat;
  calls : list string
}.

Definition test_alloc (what : string) (n : test_netnode) (w : test_world)
  : option (node test_netnode) * test_world :=
  match nodes_left w with
  | O => (None, mkWorld O (calls w ++ [what])%list)
  | S k => (Some (mkNode (mkStat 0 0 0 0) n),
            mkWorld k (calls w ++ [what])%list)
  end.

Definition test_proclist_make_node (pc : nat) (w : test_world) :=
  test_alloc "proclist_make_node" (ProclistDir pc) w.

Definition test_rootdir_make_node (pc : nat) (w : test_world) :=
  test_alloc "rootdir_make_node" (RootDir pc) w.

Fixpoint all_nodes {A : Type} (l : list (option A)) : option (list A) :=
  match l with
  | [] => Some []
  | None :: _ => None
  | Some x :: l' =>
      match all_nodes l' with
      | Some xs => Some (x :: xs)
      | None => None
      end
  end.

Definition test_dircat_make_node (dirs : list (option (node test_netnode)))
  (num_dirs : Z) (w : test_world) :=
  match all_nodes (firstn (Z.to_nat num_dirs) dirs) with
  | Some ds => test_alloc "dircat_make_node" (DircatDir ds) w
  | None => (None, mkWorld (nodes_left w) (calls w ++ ["dircat_make_node"])%list)
  end.

Definition test_ps_context_create (w : test_world)
  : error_t * nat * test_world := (ESUCCESS, 7%nat, w).

Definition test_task_get_bootstrap_port (w : test_world) : Z * test_world :=
  (1, w).

Definition test_netfs_init (w : test_world) : test_world := w.

Definition test_netfs_startup (bootstrap : Z) (w : test_world) : test_world :=
  mkWorld (nodes_left w) (calls w ++ ["netfs_startup"])%list.

(** ** The program *)

Section Program.

Set Default Proof Using "Type".

(** The system and the libraries around [main.c]. *)
Variable sysconf_SC_CLK_TCK : Z.
Variable getpwnam : string -> option passwd.
Variable netfs_append_std_options : argz -> nat -> error_t * argz * nat.
Variable netfs_std_startup_options : list argp_option.
Variable netfs_std_startup_parser : foreign_parser.
Variable netfs_std_runtime_options : list argp_option.
Variable netfs_std_runtime_parser : foreign_parser.

Definition OPT_CLK_TCK : Z := sysconf_SC_CLK_TCK.

(** The two argps of the netfs library that [main.c] takes as children. *)
Definition netfs_std_startup_argp : struct_argp :=
  Argp netfs_std_startup_options
    (Some (foreign netfs_std_startup_parser)) "" [].
Definition netfs_std_runtime_argp : struct_argp :=
  Argp netfs_std_runtime_options
    (Some (foreign netfs_std_runtime_parser)) "" [].

(** [argp_parser], lines 52-137.  A case that ends in [break] returns 0;
    the three compatibility keys have no [break] and reach [default]. *)
Definition argp_parser : parser_fn := fun key arg g =>
  if key =? code "h" then
    match arg with
    | None => Fault
    | Some a =>
        let '(v, endp) := strtol a 0 in
        if deref endp || negb (deref a) || (v <=? 0)
        then Returned ESUCCESS g
               ["--clk-tck: HZ should be a positive integer"]
        else Returned ESUCCESS (set_clk_tck g (to_int v)) []
    end
  else if key =? code "s" then
    match arg with
    | None => Fault
    | Some a =>
        let '(v, endp) := strtol a 8 in
        if deref endp || negb (deref a)
           || negb (Z.land (to_mode_t v)
                      (to_unsigned (Z.lnot (octal "07777"))) =? 0)
        then Returned ESUCCESS g
               ["--stat-mode: MODE should be an octal mode"]
        else Returned ESUCCESS (set_stat_mode g (to_mode_t v)) []
    end
  else if key =? code "S" then
    match arg with
    | Some a =>
        let '(v, endp) := strtol a 0 in
        if deref endp || negb (deref a)
        then Returned ESUCCESS g ["--fake-self: PID must be an integer"]
        else Returned ESUCCESS (set_fake_self g (to_pid_t v)) []
    | None => Returned ESUCCESS (set_fake_self g 1) []
    end
  else if key =? code "k" then
    match arg with
    | None => Fault
    | Some a =>
        let '(v, endp) := strtol a 0 in
        if deref endp || negb (deref a) || (to_int (opt_kernel_pid g) <? 0)
        then Returned ESUCCESS g
               ["--kernel-process: PID must be a positive integer"]
        else Returned ESUCCESS (set_kernel_pid g (to_pid_t v)) []
    end
  else if key =? code "c" then
    Returned ESUCCESS
      (set_fake_self (set_stat_mode (set_clk_tck g 100) (octal "0444")) 1) []
  else if key =? code "a" then
    match arg with
    | None => Fault
    | Some a =>
        match getpwnam a with
        | Some pw => Returned ESUCCESS (set_anon_owner g (pw_uid pw)) []
        | None =>
            let '(v, endp) := strtol a 0 in
            if deref endp || negb (deref a) || (v <? 0)
            then Returned ESUCCESS g
                   ["--anonymous-owner: USER should be a user name or a numeric UID."]
            else Returned ESUCCESS (set_anon_owner g (to_uid_t v)) []
        end
    end
  else if key =? NODEV_KEY then
    Returned ARGP_ERR_UNKNOWN g []
  else if key =? NOEXEC_KEY then
    Returned ARGP_ERR_UNKNOWN g []
  else if key =? NOSUID_KEY then
    Returned ARGP_ERR_UNKNOWN g []
  else
    Returned ARGP_ERR_UNKNOWN g [].

(** [common_options], lines 139-172. *)
Definition common_options : list argp_option :=
  [ mkOption "clk-tck" (code "h") (Some "HZ") 0
      "Unit used for the values expressed in system clock ticks (default: sysconf(_SC_CLK_TCK))";
    mkOption "stat-mode" (code "s") (Some "MODE") 0
      "The [pid]/stat file publishes information which on Hurd is only available to the process owner.  You can use this option to override its mode to be more permissive for compatibility purposes.  (default: 0400)";
    mkOption "fake-self" (code "S") (Some "PID") OPTION_ARG_OPTIONAL
      ("Provide a fake " ++ dquote ++ "self" ++ dquote
       ++ " symlink to the given PID, for compatibility purposes.  If PID is omitted, "
       ++ dquote ++ "self" ++ dquote
       ++ " will point to init.  (default: no self link)")%string;
    mkOption "kernel-process" (code "k") (Some "PID") 0
      "Process identifier for the kernel, used to retreive its command line, as well as the global up and idle times. (default: 2)";
    mkOption "compatible" (code "c") None 0
      "Try to be compatible with the Linux procps utilities.  Currently equivalent to -h 100 -s 0444 -S 1.";
    mkOption "anonymous-owner" (code "a") (Some "USER") 0
      "Make USER the owner of files related to processes without one.  Be aware that USER will be granted access to the environment and other sensitive information about the processes in question.  (default: use uid 0)";
    mkOption "nodev" NODEV_KEY None 0
      "Ignored for compatibility with Linux' procfs.";
    mkOption "noexec" NOEXEC_KEY None 0
      "Ignored for compatibility with Linux' procfs.";
    mkOption "nosuid" NOSUID_KEY None 0
      "Ignored for compatibility with Linux' procfs." ].

(** [argp], lines 174-182. *)
Definition argp : struct_argp :=
  Argp common_options (Some argp_parser)
    "A virtual filesystem emulating the Linux procfs."
    [netfs_std_startup_argp].

(** [runtime_argp_parser], lines 184-198. *)
Definition runtime_argp_parser : parser_fn := fun key arg g =>
  if key =? code "u" then
    Returned ESUCCESS g []
  else
    Returned ARGP_ERR_UNKNOWN g [].

(** [runtime_argp], lines 200-206. *)
Definition runtime_argp : struct_argp :=
  Argp [mkOption "update" (code "u") None 0
          "remount; for procfs this does nothing"]
    (Some runtime_argp_parser) "" [].

(** [netfs_runtime_argp_], lines 208-217. *)
Definition netfs_runtime_argp_ : struct_argp :=
  Argp common_options (Some argp_parser)
    "A virtual filesystem emulating the Linux procfs."
    [runtime_argp; netfs_std_runtime_argp].

(** [netfs_runtime_argp], line 220: it points to [argp]. *)
Definition netfs_runtime_argp : struct_argp := argp.

(** [netfs_append_args], lines 225-261.  [FOPT] is the macro of lines
    231-238: [differs] is its test [opt != default], [text] what its
    [snprintf] formats into the 80 bytes of [buf]. *)
Definition FOPT (differs : bool) (text : string)
  (st : error_t * argz * nat) : error_t * argz * nat :=
  let '(err, az, mem) := st in
  if negb (is_error err) && differs
  then argz_add az mem (snprintf 80 text)
  else st.

Definition netfs_append_args (g : options) (az : argz) (mem : nat)
  : error_t * argz * nat :=
  let st := (ESUCCESS, az, mem) in
  let st := FOPT (negb (opt_clk_tck g =? OPT_CLK_TCK))
              ("--clk-tck=" ++ fmt_d (opt_clk_tck g))%string st in
  let st := FOPT (negb (opt_stat_mode g =? OPT_STAT_MODE))
              ("--stat-mode=" ++ fmt_o (opt_stat_mode g))%string st in
  let st := FOPT (negb (opt_fake_self g =? OPT_FAKE_SELF))
              ("--fake-self=" ++ fmt_d (opt_fake_self g))%string st in
  let st := FOPT (negb (opt_anon_owner g =? OPT_ANON_OWNER))
              ("--anonymous-owner=" ++ fmt_d (to_int (opt_anon_owner g)))%string
              st in
  let st := FOPT (negb (opt_kernel_pid g =? OPT_KERNEL_PID))
              ("--kernel-process=" ++ fmt_d (opt_kernel_pid g))%string st in
  let '(err, az', mem') := st in
  if negb (is_error err) then netfs_append_std_options az' mem'
  else (err, az', mem').

(** The argp library, as far as it drives the parsers of [main.c]: each
    option of the command line, given as the key and the argument the
    library extracts from it, goes to the parser of the argp whose table
    declares the key, the root first and then its children in order.  A
    call of [argp_error] ends the process unless the caller asked for no
    exit.  A parser that does not know a key of its own table is a program
    error, which the library reports through [argp_error], with the option
    as it was written in front of the message.  An option that no table
    declares is reported by the library itself.  Both end the process, or,
    when the caller asked for no exit, make the run return [EINVAL]. *)
Fixpoint owner (a : struct_argp) (k : Z) : option (option parser_fn) :=
  match a with
  | Argp opts p _ ch =>
      if existsb (fun o => key o =? k) opts then Some p
      else
        (fix among (l : list struct_argp) : option (option parser_fn) :=
           match l with
           | [] => None
           | c :: l' =>
               match owner c k with
               | Some r => Some r
               | None => among l'
               end
           end) ch
  end.

Definition argp_code (err : error_t) : error_t :=
  match err with
  | ARGP_ERR_UNKNOWN => EINVAL
  | _ => err
  end.

Fixpoint argp_parse (a : struct_argp) (no_exit : bool)
  (line : list (Z * option string)) (g : options) : parse_outcome :=
  match line with
  | [] => Parsed g
  | (k, v) :: rest =>
      match owner a k with
      | Some (Some p) =>
          match p k v g with
          | Fault => Crashed
          | Returned err g' msgs =>
              let msgs' :=
                match err with
                | ARGP_ERR_UNKNOWN =>
                    (msgs ++ ["(PROGRAM ERROR) Option should have been recognized!?"])%list
                | _ => msgs
                end in
              if negb no_exit && negb (Nat.eqb (List.length msgs') 0)
              then Exited msgs'
              else if is_error err then Failed (argp_code err) g'
              else argp_parse a no_exit rest g'
          end
      | _ => if no_exit then Failed EINVAL g else Exited []
      end
  end.

(** The process source, the node makers of the sibling files and the
    netfs library act on a world [W] that [main.c] only passes along. *)
Variables W ps_context netnode : Type.
Variable proclist_make_node : ps_context -> W -> option (node netnode) * W.
Variable rootdir_make_node : ps_context -> W -> option (node netnode) * W.
Variable dircat_make_node :
  list (option (node netnode)) -> Z -> W -> option (node netnode) * W.
Variable ps_context_create : W -> error_t * ps_context * W.
Variable task_get_bootstrap_port : W -> Z * W.
Variable netfs_init : W -> W.
Variable netfs_startup : Z -> W -> W.

Definition MACH_PORT_NULL : Z := 0.

(** [root_make_node], lines 263-280: the error code, the node left in
    [*np], and the world.  The two initialisers of [root_dirs] are
    evaluated in the order they are written. *)
Definition root_make_node (pc : ps_context) (w : W)
  : error_t * option (node netnode) * W :=
  let '(d0, w) := proclist_make_node pc w in
  let '(d1, w) := rootdir_make_node pc w in
  let root_dirs := [d0; d1] in
  let '(np, w) :=
    dircat_make_node root_dirs (Z.of_nat (List.length root_dirs)) w in
  match np with
  | None => (ENOMEM, None, w)
  | Some n =>
      (ESUCCESS, Some (set_st_ino n (to_ino_t (load_uint32 "PROC"))), w)
  end.

(** How [main] ends: in [error (status, errnum, msg)], inside
    [argp_parse] after the messages given to [argp_error], in a fault, or
    in [netfs_server_loop] with the options and the root node it serves. *)
Inductive main_outcome : Type :=
| Exit (status : Z) (errnum : error_t) (msg : string)
| ArgpExit (msgs : list string)
| Crash
| Serve (g : options) (netfs_root_node : node netnode) (w : W).

(** The options as lines 288-292 of [main] set them. *)
Definition startup_options : options :=
  mkOptions OPT_CLK_TCK OPT_STAT_MODE OPT_FAKE_SELF OPT_KERNEL_PID
    OPT_ANON_OWNER.

(** [main], lines 282-314. *)
Definition main (line : list (Z * option string)) (w : W) : main_outcome :=
  match argp_parse argp false line startup_options with
  | Exited msgs => ArgpExit msgs
  | Crashed => Crash
  | Failed err _ => Exit 1 err "Could not parse command line"
  | Parsed g =>
      let '(err, pc, w) := ps_context_create w in
      if is_error err then Exit 1 err "Could not create libps context"
      else
        let '(bootstrap, w) := task_get_bootstrap_port w in
        if bootstrap =? MACH_PORT_NULL
        then Exit 1 ESUCCESS "Must be started as a translator"
        else
          let w := netfs_init w in
          let '(err, np, w) := root_make_node pc w in
          if is_error err then Exit 1 err "Could not create the root node"
          else
            match np with
            | Some root => Serve g root (netfs_startup bootstrap w)
            | None => Crash
            end
  end.

(** ** Notions the properties are stated with *)

(** The whole of a non-empty string parses, in [base], as the integer
    [v]; [strtol] saturates at the bounds of [long]. *)
Definition parses_as (a : string) (base v : Z) : Prop :=
  a <> EmptyString /\ strtol a base = (v, EmptyString).

(** The integer a string denotes, told without [strtol]: white space,
    then an optional sign, then a numeral in the notation of C, which is
    decimal digits that do not start with [0], or octal digits that start
    with [0], or hexadecimal digits after [0x] or [0X].  The value of a
    numeral is positional, its most significant digit first, and has no
    bound. *)
Fixpoint all_space (s : string) : bool :=
  match s with
  | String c s' => isspace c && all_space s'
  | EmptyString => true
  end.

Fixpoint digits_of (base : Z) (s : string) : option (list Z) :=
  match s with
  | String c s' =>
      match digit_in base c, digits_of base s' with
      | Some d, Some ds => Some (d :: ds)
      | _, _ => None
      end
  | EmptyString => Some []
  end.

Fixpoint positional (base : Z) (ds : list Z) : Z :=
  match ds with
  | [] => 0
  | d :: ds' => d * base ^ Z.of_nat (List.length ds') + positional base ds'
  end.

Inductive numeral : string -> Z -> Prop :=
| decimal_numeral (c : ascii) (t : string) (ds : list Z) :
    (c =? "0")%char = false ->
    digits_of 10 (String c t) = Some ds ->
    numeral (String c t) (positional 10 ds)
| octal_numeral (t : string) (ds : list Z) :
    digits_of 8 (String "0" t) = Some ds ->
    numeral (String "0" t) (positional 8 ds)
| hexadecimal_numeral (x c : ascii) (t : string) (ds : list Z) :
    x = "x"%char \/ x = "X"%char ->
    digits_of 16 (String c t) = Some ds ->
    numeral (String "0" (String x (String c t))) (positional 16 ds).

Inductive integer_text : string -> Z -> Prop :=
| unsigned_text (ws body : string) (m : Z) :
    all_space ws = true -> numeral body m ->
    integer_text (ws ++ body) m
| plus_text (ws body : string) (m : Z) :
    all_space ws = true -> numeral body m ->
    integer_text (ws ++ String "+" body) m
| minus_text (ws body : string) (m : Z) :
    all_space ws = true -> numeral body m ->
    integer_text (ws ++ String "-" body) (- m).

(** What [strtol] makes of an integer: the nearest value of a [long]. *)
Definition saturated (n : Z) : Z := Z.max LONG_MIN (Z.min n LONG_MAX).

(** One option string parsed by [argp_parser]: the library finds the key
    and the argument in the string and hands them to the parser. *)
Definition parse_word (word : string) (g0 : options) : option parse_result :=
  match long_option common_options word with
  | Some (k, a) => Some (argp_parser k a g0)
  | None => None
  end.

(** The code a parser returned, and the options it left. *)
Definition returned_code (r : parse_result) : option error_t :=
  match r with
  | Returned err _ _ => Some err
  | Fault => None
  end.

Definition options_after (r : parse_result) (g : options) : options :=
  match r with
  | Returned _ g' _ => g'
  | Fault => g
  end.

(** The keys on which [argp_parser] writes an option. *)
Definition policy_keys : list Z :=
  [code "h"; code "s"; code "S"; code "k"; code "c"; code "a"].

(** The option strings of the knobs that differ from their defaults, in
    the order clk-tck, stat-mode, fake-self, anonymous-owner,
    kernel-process. *)
Definition knob_args (g : options) : argz :=
  ((if opt_clk_tck g =? OPT_CLK_TCK then []
    else ["--clk-tck=" ++ fmt_d (opt_clk_tck g)]%string)
   ++ (if opt_stat_mode g =? OPT_STAT_MODE then []
       else ["--stat-mode=" ++ fmt_o (opt_stat_mode g)]%string)
   ++ (if opt_fake_self g =? OPT_FAKE_SELF then []
       else ["--fake-self=" ++ fmt_d (opt_fake_self g)]%string)
   ++ (if opt_anon_owner g =? OPT_ANON_OWNER then []
       else ["--anonymous-owner=" ++ fmt_d (to_int (opt_anon_owner g))]%string)
   ++ (if opt_kernel_pid g =? OPT_KERNEL_PID then []
       else ["--kernel-process=" ++ fmt_d (opt_kernel_pid g)]%string))%list.

(** The command line the argp library sees in a vector of option
    strings. *)
Fixpoint line_of (az : argz) : option (list (Z * option string)) :=
  match az with
  | [] => Some []
  | word :: az' =>
      match long_option common_options word, line_of az' with
      | Some t, Some l => Some (t :: l)
      | _, _ => None
      end
  end.

(** Parsing a vector of option strings with [argp], as [main] does with
    its command line: the options it ends with, when every string is an
    option of the table and the run parses. *)
Definition parse_from (g0 : options) (az : argz) : option options :=
  match line_of az with
  | Some line =>
      match argp_parse argp false line g0 with
      | Parsed g => Some g
      | _ => None
      end
  | None => None
  end.

(** Parsing afresh what [netfs_append_args] printed: the options start
    from their defaults, as in [main]. *)
Definition reparse (az : argz) : option options :=
  parse_from startup_options az.

(** What one [FOPT] appends when memory lasts. *)
Definition emit (differs : bool) (text : string) : argz :=
  if differs then [text] else [].

(** The round trip of [netfs_append_args]: it hands the vector, with the
    option strings of the knobs appended, to [netfs_append_std_options],
    and these strings parse back to the options they were printed
    from. *)
Definition round_trip (g : options) (az : argz) (mem : nat) : Prop :=
  (exists mem',
     netfs_append_args g az mem
     = netfs_append_std_options (az ++ knob_args g)%list mem')
  /\ reparse (knob_args g) = Some g.

(** A run of the argp library leaves the options as they were. *)
Definition keeps_options (a : struct_argp) (no_exit : bool)
  (line : list (Z * option string)) (g : options) : Prop :=
  match argp_parse a no_exit line g with
  | Parsed g' | Failed _ g' => g' = g
  | _ => True
  end.

(** ** Notions for further properties *)

(** The keys of the options that set one knob each. *)
Definition knob_keys : list Z :=
  [code "h"; code "s"; code "S"; code "k"; code "a"].

(** The knob a key writes. *)
Definition set_knob (k : Z) (g : options) (v : Z) : options :=
  if k =? code "h" then set_clk_tck g v
  else if k =? code "s" then set_stat_mode g v
  else if k =? code "S" then set_fake_self g v
  else if k =? code "k" then set_kernel_pid g v
  else if k =? code "a" then set_anon_owner g v
  else g.

(** What the options hold in every state the parser can reach: values of
    their C types, a positive clock-tick unit, a stat mode within
    [07777]. *)
Definition policy_ok (g : options) : Prop :=
  options_wf g /\ 0 < opt_clk_tck g /\ opt_stat_mode g <= octal "07777".

(** The password database gives uids of type [uid_t]. *)
Definition passwd_ok : Prop :=
  forall n pw, getpwnam n = Some pw -> is_unsigned (pw_uid pw).

(** The contract of the argp library for an option of [common_options]:
    an option declared without argument is parsed with a null [arg], an
    option declared with a mandatory argument with a non-null one. *)
Definition respects_table (t : Z * option string) : Prop :=
  forall o, In o common_options -> key o = fst t ->
    (arg o = None -> snd t = None)
    /\ (arg o <> None -> Z.testbit (flags o) 0 = false -> snd t <> None).

(** The bytes an argz vector takes: each string and its terminator. *)
Fixpoint argz_bytes (l : argz) : nat :=
  match l with
  | [] => O
  | s :: l' => (S (String.length s) + argz_bytes l')%nat
  end.

(** [argz_add] of each string in turn, as long as none has failed. *)
Fixpoint add_all (l : argz) (st : error_t * argz * nat)
  : error_t * argz * nat :=
  match l with
  | [] => st
  | s :: l' =>
      let '(err, az, mem) := st in
      if is_error err then st else add_all l' (argz_add az mem s)
  end.

(** ** The C library model on examples *)

Example strtol_decimal : strtol "100" 0 = (100, "").
Proof. reflexivity. Qed.

Example strtol_hexadecimal : strtol "0x1F" 0 = (31, "").
Proof. reflexivity. Qed.

Example strtol_octal : strtol "0444" 0 = (292, "") /\ strtol "444" 8 = (292, "").
Proof. split; reflexivity. Qed.

Example strtol_sign_and_space : strtol "  -42abc" 0 = (-42, "abc").
Proof. reflexivity. Qed.

Example strtol_no_digits :
  strtol "" 0 = (0, "") /\ strtol "abc" 0 = (0, "abc")
  /\ strtol "  " 0 = (0, "  ") /\ strtol "0x" 0 = (0, "x").
Proof. repeat split; reflexivity. Qed.

Example strtol_saturates :
  strtol "99999999999" 0 = (LONG_MAX, "")
  /\ strtol "-99999999999" 0 = (LONG_MIN, "").
Proof. split; reflexivity. Qed.

Example strtol_bad_octal_digit : strtol "0789" 8 = (7, "89").
Proof. reflexivity. Qed.

Example fmt_examples :
  fmt_d 0 = "0" /\ fmt_d 100 = "100" /\ fmt_d (-2147483648) = "-2147483648"
  /\ fmt_o (octal "0444") = "444" /\ fmt_d (to_int 4294967294) = "-2".
Proof. repeat split; reflexivity. Qed.

Example argz_add_examples :
  argz_add ["a"] 10 "bcd" = (ESUCCESS, ["a"; "bcd"], 6%nat)
  /\ argz_add ["a"] 3 "bcd" = (ENOMEM, ["a"], 3%nat).
Proof. split; reflexivity. Qed.

Example long_option_examples :
  long_option common_options "--fake-self" = Some (code "S", None)
  /\ long_option common_options "--fake-self=4" = Some (code "S", Some "4")
  /\ long_option common_options "--compatible" = Some (code "c", None)
  /\ long_option common_options "--nodev" = Some (NODEV_KEY, None)
  /\ long_option common_options "--clk-tck" = None
  /\ long_option common_options "--no-such-option" = None.
Proof. repeat split; reflexivity. Qed.

(** ** Facts about the machine integers *)

Lemma int_bounds : INT_MIN = -2147483648 /\ INT_MAX = 2147483647.
Proof. split; reflexivity. Qed.

Lemma long_bounds : LONG_MIN = -2147483648 /\ LONG_MAX = 2147483647.
Proof. split; reflexivity. Qed.

Lemma uint_bound : UINT_MAX = 4294967295.
Proof. reflexivity. Qed.

Lemma to_int_id (x : Z) : is_int x -> to_int x = x.
Proof.
  unfold is_int. rewrite (proj1 int_bounds), (proj2 int_bounds). intros H.
  unfold to_int, wrap_signed, INT_BITS.
  change (2 ^ (32 - 1)) with 2147483648. change (2 ^ 32) with 4294967296.
  rewrite Z.mod_small by lia. lia.
Qed.

Lemma to_unsigned_id (x : Z) : is_unsigned x -> to_unsigned x = x.
Proof.
  unfold is_unsigned. rewrite uint_bound. intros H.
  unfold to_unsigned, wrap_unsigned, INT_BITS.
  change (2 ^ 32) with 4294967296. apply Z.mod_small. lia.
Qed.

Lemma to_unsigned_range (x : Z) : is_unsigned (to_unsigned x).
Proof.
  unfold is_unsigned, to_unsigned, wrap_unsigned, INT_BITS. rewrite uint_bound.
  change (2 ^ 32) with 4294967296.
  pose proof (Z.mod_pos_bound x 4294967296). lia.
Qed.

Lemma to_int_range (x : Z) : is_int (to_int x).
Proof.
  unfold is_int, to_int, wrap_signed, INT_BITS.
  rewrite (proj1 int_bounds), (proj2 int_bounds).
  change (2 ^ (32 - 1)) with 2147483648. change (2 ^ 32) with 4294967296.
  pose proof (Z.mod_pos_bound (x + 2147483648) 4294967296). lia.
Qed.

Lemma clamp_long_range (x : Z) : LONG_MIN <= clamp_long x <= LONG_MAX.
Proof.
  unfold clamp_long. rewrite (proj1 long_bounds), (proj2 long_bounds).
  destruct (x <? -2147483648) eqn:E1; [lia|].
  destruct (2147483647 <? x) eqn:E2; lia.
Qed.

Lemma clamp_long_id (x : Z) : LONG_MIN <= x <= LONG_MAX -> clamp_long x = x.
Proof.
  unfold clamp_long. rewrite (proj1 long_bounds), (proj2 long_bounds). intros H.
  destruct (x <? -2147483648) eqn:E1; [lia|].
  destruct (2147483647 <? x) eqn:E2; lia.
Qed.

(** [strtol] returns a [long], which on this machine is an [int]. *)
Lemma strtol_range (a : string) (base : Z) : is_int (fst (strtol a base)).
Proof.
  unfold strtol.
  destruct (scan_sign (skip_space a)) as [neg s1].
  destruct (scan_base base s1) as [b s2].
  destruct (scan_digits b s2 0 false) as [[acc any] rest].
  destruct any; simpl.
  - apply clamp_long_range.
  - unfold is_int. rewrite (proj1 int_bounds), (proj2 int_bounds). lia.
Qed.

Lemma strtol_to_int (a : string) (base v : Z) (endp : string) :
  strtol a base = (v, endp) -> to_int v = v.
Proof.
  intros H. apply to_int_id. pose proof (strtol_range a base) as R.
  rewrite H in R. exact R.
Qed.

Lemma deref_false (p : string) : deref p = false <-> p = EmptyString.
Proof. destruct p; simpl; split; congruence. Qed.

Lemma deref_true (p : string) : deref p = true <-> p <> EmptyString.
Proof. destruct p; simpl; split; congruence. Qed.

(** ** Printing and reading back a number *)

Lemma digit_cases (d : Z) :
  0 <= d < 10 ->
  d = 0 \/ d = 1 \/ d = 2 \/ d = 3 \/ d = 4 \/ d = 5 \/ d = 6 \/ d = 7
  \/ d = 8 \/ d = 9.
Proof. lia. Qed.

Ltac each_digit d H :=
  let C := fresh "C" in
  pose proof (digit_cases d H) as C;
  repeat (destruct C as [C | C]; [subst d | ]); [ .. | subst d].

Lemma digit_value_char (d : Z) :
  0 <= d < 10 -> digit_value (digit_char d) = Some d.
Proof. intros H. each_digit d H; reflexivity. Qed.

Lemma digit_in_char (b d : Z) :
  0 <= d < b -> b <= 10 -> digit_in b (digit_char d) = Some d.
Proof.
  intros H Hb. unfold digit_in. rewrite digit_value_char by lia.
  destruct (d <? b) eqn:E; [reflexivity | lia].
Qed.

Lemma scan_digits_fmt (b : Z) (Hb : 2 <= b <= 10) (f : nat) :
  forall (n : Z) (acc : string) (any : bool),
    0 <= n < b ^ Z.of_nat (S f) ->
    scan_digits b (fmt_digits (S f) b n acc) 0 any = scan_digits b acc n true.
Proof.
  induction f as [|f IH]; intros n acc any Hn.
  - assert (Hs : n / b = 0) by (apply Z.div_small; simpl in Hn; lia).
    simpl. rewrite Hs. simpl.
    rewrite digit_in_char by (try apply Z.mod_pos_bound; lia).
    rewrite Z.mod_small by (simpl in Hn; lia). reflexivity.
  - change (fmt_digits (S (S f)) b n acc)
      with (if n / b =? 0 then String (digit_char (n mod b)) acc
            else fmt_digits (S f) b (n / b) (String (digit_char (n mod b)) acc)).
    destruct (n / b =? 0) eqn:E.
    + apply Z.eqb_eq in E. simpl.
      rewrite digit_in_char by (try apply Z.mod_pos_bound; lia).
      f_equal. pose proof (Z.div_mod n b). lia.
    + apply Z.eqb_neq in E. rewrite IH.
      * simpl. rewrite digit_in_char by (try apply Z.mod_pos_bound; lia).
        f_equal. pose proof (Z.div_mod n b). lia.
      * split; [apply Z.div_pos; lia|].
        apply Z.div_lt_upper_bound; [lia|].
        rewrite Nat2Z.inj_succ, Z.pow_succ_r in Hn by lia. lia.
Qed.

Lemma fmt_digits_head (b : Z) (Hb : 2 <= b <= 10) (f : nat) :
  forall (n : Z) (acc : string),
    0 <= n < b ^ Z.of_nat (S f) ->
    exists d t, fmt_digits (S f) b n acc = String (digit_char d) t
                /\ 0 <= d < b /\ (0 < n -> 0 < d).
Proof.
  induction f as [|f IH]; intros n acc Hn.
  - exists (n mod b), acc. simpl.
    destruct (n / b =? 0); (split; [reflexivity|]).
    all: split; [apply Z.mod_pos_bound; lia|].
    all: rewrite Z.mod_small by (simpl in Hn; lia); trivial.
  - change (fmt_digits (S (S f)) b n acc)
      with (if n / b =? 0 then String (digit_char (n mod b)) acc
            else fmt_digits (S f) b (n / b) (String (digit_char (n mod b)) acc)).
    destruct (n / b =? 0) eqn:E.
    + apply Z.eqb_eq in E. exists (n mod b), acc. split; [reflexivity|].
      split; [apply Z.mod_pos_bound; lia|].
      pose proof (Z.div_mod n b). lia.
    + apply Z.eqb_neq in E.
      assert (Hq : 0 <= n / b < b ^ Z.of_nat (S f)).
      { split; [apply Z.div_pos; lia|].
        apply Z.div_lt_upper_bound; [lia|].
        rewrite Nat2Z.inj_succ, Z.pow_succ_r in Hn by lia. lia. }
      destruct (IH (n / b) (String (digit_char (n mod b)) acc) Hq)
        as (d & t & Heq & Hd & Hpos).
      exists d, t. split; [exact Heq|]. split; [exact Hd|].
      intros _. apply Hpos. lia.
Qed.

Lemma fmt_digits_length (b : Z) (f : nat) :
  forall (n : Z) (acc : string),
    (String.length (fmt_digits f b n acc) <= f + String.length acc)%nat.
Proof.
  induction f as [|f IH]; intros n acc; simpl; [lia|].
  destruct (n / b =? 0); simpl; [lia|].
  specialize (IH (n / b) (String (digit_char (n mod b)) acc)). simpl in IH. lia.
Qed.

(** What a leading digit other than [0] is not. *)
Lemma head_digit_plain (d : Z) :
  0 < d < 10 ->
  isspace (digit_char d) = false
  /\ (digit_char d =? "-")%char = false
  /\ (digit_char d =? "+")%char = false
  /\ (digit_char d =? "0")%char = false.
Proof.
  intros H. assert (H' : 0 <= d < 10) by lia.
  each_digit d H'; try lia; repeat split; reflexivity.
Qed.

Lemma scan_base_0_decimal (c : ascii) (t : string) :
  (c =? "0")%char = false -> scan_base 0 (String c t) = (10, String c t).
Proof.
  intros H. destruct t as [|c1 [|c2 t]]; simpl; rewrite H; reflexivity.
Qed.

Lemma scan_base_8 (s : string) : scan_base 8 s = (8, s).
Proof.
  destruct s as [|c0 [|c1 [|c2 t]]]; simpl; try reflexivity.
  rewrite andb_false_r. reflexivity.
Qed.

Lemma pow_10_32 : 2147483648 < 10 ^ Z.of_nat 32.
Proof. reflexivity. Qed.

Lemma pow_8_32 : 4294967296 < 8 ^ Z.of_nat 32.
Proof. reflexivity. Qed.

(** A positive [long] printed in decimal reads back in base 0. *)
Lemma strtol_fmt_unsigned_10 (n : Z) :
  0 < n <= 2147483648 ->
  exists c t, fmt_unsigned 10 n = String c t
    /\ isspace c = false /\ (c =? "-")%char = false
    /\ (c =? "+")%char = false /\ (c =? "0")%char = false
    /\ scan_digits 10 (fmt_unsigned 10 n) 0 false = (n, true, EmptyString).
Proof.
  intros Hn. unfold fmt_unsigned.
  assert (Hr : 0 <= n < 10 ^ Z.of_nat 32) by (pose proof pow_10_32; lia).
  destruct (fmt_digits_head 10 ltac:(lia) 31 n EmptyString Hr)
    as (d & t & Heq & Hd & Hpos).
  destruct (head_digit_plain d ltac:(lia)) as (H1 & H2 & H3 & H4).
  exists (digit_char d), t. repeat split; try assumption.
  apply (scan_digits_fmt 10 ltac:(lia) 31 n EmptyString false Hr).
Qed.

Lemma strtol_fmt_d (n : Z) :
  is_int n -> strtol (fmt_d n) 0 = (n, EmptyString) /\ fmt_d n <> EmptyString.
Proof.
  unfold is_int. rewrite (proj1 int_bounds), (proj2 int_bounds). intros Hn.
  unfold fmt_d. destruct (n <? 0) eqn:Eneg.
  - apply Z.ltb_lt in Eneg. split; [|discriminate].
    destruct (strtol_fmt_unsigned_10 (- n) ltac:(lia))
      as (c & t & Heq & Hsp & Hm & Hp & Hz & Hscan).
    unfold strtol. simpl skip_space. simpl scan_sign.
    rewrite Heq in *. rewrite scan_base_0_decimal by exact Hz.
    rewrite Hscan. rewrite clamp_long_id
      by (rewrite (proj1 long_bounds), (proj2 long_bounds); lia).
    f_equal. lia.
  - apply Z.ltb_ge in Eneg.
    destruct (Z.eq_dec n 0) as [-> | Hnz]; [split; [reflexivity | discriminate]|].
    destruct (strtol_fmt_unsigned_10 n ltac:(lia))
      as (c & t & Heq & Hsp & Hm & Hp & Hz & Hscan).
    rewrite Heq in *. split; [|discriminate].
    unfold strtol. simpl skip_space. rewrite Hsp.
    unfold scan_sign. rewrite Hm, Hp.
    rewrite scan_base_0_decimal by exact Hz.
    rewrite Hscan. rewrite clamp_long_id
      by (rewrite (proj1 long_bounds), (proj2 long_bounds); lia).
    reflexivity.
Qed.

(** A non-negative [long] printed in octal reads back in base 8. *)
Lemma strtol_fmt_o (n : Z) :
  0 <= n <= LONG_MAX ->
  strtol (fmt_o n) 8 = (n, EmptyString) /\ fmt_o n <> EmptyString.
Proof.
  rewrite (proj2 long_bounds). intros Hn. unfold fmt_o, fmt_unsigned.
  assert (Hr : 0 <= n < 8 ^ Z.of_nat 32) by (pose proof pow_8_32; lia).
  destruct (fmt_digits_head 8 ltac:(lia) 31 n EmptyString Hr)
    as (d & t & Heq & Hd & Hpos).
  pose proof (scan_digits_fmt 8 ltac:(lia) 31 n EmptyString false Hr) as Hscan.
  simpl scan_digits at 2 in Hscan.
  rewrite Heq in *. split; [|discriminate].
  assert (Hplain : isspace (digit_char d) = false
                   /\ (digit_char d =? "-")%char = false
                   /\ (digit_char d =? "+")%char = false).
  { assert (H' : 0 <= d < 10) by lia.
    each_digit d H'; repeat split; reflexivity. }
  destruct Hplain as (Hsp & Hm & Hp).
  unfold strtol. simpl skip_space. rewrite Hsp.
  unfold scan_sign. rewrite Hm, Hp. rewrite scan_base_8, Hscan.
  rewrite clamp_long_id
    by (rewrite (proj1 long_bounds), (proj2 long_bounds); lia).
  reflexivity.
Qed.

Lemma substring_all (s : string) :
  forall n : nat, (String.length s <= n)%nat -> substring 0 n s = s.
Proof.
  induction s as [|c s IH]; intros [|n] H; simpl in *; try reflexivity; try lia.
  rewrite IH by lia. reflexivity.
Qed.

Lemma snprintf_short (text : string) :
  (String.length text <= 79)%nat -> snprintf 80 text = text.
Proof. intros H. unfold snprintf. apply substring_all. simpl. exact H. Qed.

Lemma fmt_d_length (n : Z) : (String.length (fmt_d n) <= 33)%nat.
Proof.
  unfold fmt_d, fmt_unsigned. destruct (n <? 0); cbn [String.length].
  - pose proof (fmt_digits_length 10 32 (- n) EmptyString) as H.
    cbn [String.length] in H. lia.
  - pose proof (fmt_digits_length 10 32 n EmptyString) as H.
    cbn [String.length] in H. lia.
Qed.

Lemma fmt_o_length (n : Z) : (String.length (fmt_o n) <= 32)%nat.
Proof.
  unfold fmt_o, fmt_unsigned.
  pose proof (fmt_digits_length 8 32 n EmptyString) as H.
  cbn [String.length] in H. lia.
Qed.

(** ** The parser, option by option *)

Lemma parse_clk_tck_accept (a : string) (v : Z) (g : options) :
  parses_as a 0 v -> 0 < v ->
  argp_parser (code "h") (Some a) g = Returned ESUCCESS (set_clk_tck g v) [].
Proof.
  intros [Ha Hs] Hv.
  change (argp_parser (code "h") (Some a) g) with
    (let '(v, endp) := strtol a 0 in
     if deref endp || negb (deref a) || (v <=? 0)
     then Returned ESUCCESS g ["--clk-tck: HZ should be a positive integer"]
     else Returned ESUCCESS (set_clk_tck g (to_int v)) []).
  rewrite Hs. apply deref_true in Ha. rewrite Ha. cbn [deref orb negb].
  destruct (v <=? 0) eqn:E; [lia|].
  rewrite (strtol_to_int a 0 v EmptyString Hs). reflexivity.
Qed.

Lemma parse_clk_tck_reject (a : string) (g : options) :
  ~ (exists v, parses_as a 0 v /\ 0 < v) ->
  argp_parser (code "h") (Some a) g
  = Returned ESUCCESS g ["--clk-tck: HZ should be a positive integer"].
Proof.
  intros Hno.
  change (argp_parser (code "h") (Some a) g) with
    (let '(v, endp) := strtol a 0 in
     if deref endp || negb (deref a) || (v <=? 0)
     then Returned ESUCCESS g ["--clk-tck: HZ should be a positive integer"]
     else Returned ESUCCESS (set_clk_tck g (to_int v)) []).
  destruct (strtol a 0) as [v endp] eqn:Hs.
  destruct (deref endp || negb (deref a) || (v <=? 0)) eqn:E; [reflexivity|].
  exfalso. apply Hno. exists v.
  apply orb_false_iff in E. destruct E as [E Ev].
  apply orb_false_iff in E. destruct E as [Ee Ea].
  apply deref_false in Ee. subst endp.
  apply negb_false_iff, deref_true in Ea.
  split; [split; assumption | lia].
Qed.

Lemma parse_fake_self_accept (a : string) (v : Z) (g : options) :
  parses_as a 0 v ->
  argp_parser (code "S") (Some a) g = Returned ESUCCESS (set_fake_self g v) [].
Proof.
  intros [Ha Hs].
  change (argp_parser (code "S") (Some a) g) with
    (let '(v, endp) := strtol a 0 in
     if deref endp || negb (deref a)
     then Returned ESUCCESS g ["--fake-self: PID must be an integer"]
     else Returned ESUCCESS (set_fake_self g (to_pid_t v)) []).
  rewrite Hs. apply deref_true in Ha. rewrite Ha. cbn [deref orb negb].
  unfold to_pid_t. rewrite (strtol_to_int a 0 v EmptyString Hs). reflexivity.
Qed.

Lemma parse_fake_self_reject (a : string) (g : options) :
  ~ (exists v, parses_as a 0 v) ->
  argp_parser (code "S") (Some a) g
  = Returned ESUCCESS g ["--fake-self: PID must be an integer"].
Proof.
  intros Hno.
  change (argp_parser (code "S") (Some a) g) with
    (let '(v, endp) := strtol a 0 in
     if deref endp || negb (deref a)
     then Returned ESUCCESS g ["--fake-self: PID must be an integer"]
     else Returned ESUCCESS (set_fake_self g (to_pid_t v)) []).
  destruct (strtol a 0) as [v endp] eqn:Hs.
  destruct (deref endp || negb (deref a)) eqn:E; [reflexivity|].
  exfalso. apply Hno. exists v.
  apply orb_false_iff in E. destruct E as [Ee Ea].
  apply deref_false in Ee. subst endp.
  apply negb_false_iff, deref_true in Ea. split; assumption.
Qed.

Lemma parse_kernel_pid_accept (a : string) (v : Z) (g : options) :
  parses_as a 0 v -> 0 <= to_int (opt_kernel_pid g) ->
  argp_parser (code "k") (Some a) g = Returned ESUCCESS (set_kernel_pid g v) [].
Proof.
  intros [Ha Hs] Hk.
  change (argp_parser (code "k") (Some a) g) with
    (let '(v, endp) := strtol a 0 in
     if deref endp || negb (deref a) || (to_int (opt_kernel_pid g) <? 0)
     then Returned ESUCCESS g
            ["--kernel-process: PID must be a positive integer"]
     else Returned ESUCCESS (set_kernel_pid g (to_pid_t v)) []).
  rewrite Hs. apply deref_true in Ha. rewrite Ha. cbn [deref orb negb].
  destruct (to_int (opt_kernel_pid g) <? 0) eqn:E; [lia|].
  unfold to_pid_t. rewrite (strtol_to_int a 0 v EmptyString Hs). reflexivity.
Qed.


Lemma parse_anon_owner_number (a : string) (v : Z) (g : options) :
  getpwnam a = None -> parses_as a 0 v -> 0 <= v ->
  argp_parser (code "a") (Some a) g = Returned ESUCCESS (set_anon_owner g v) [].
Proof.
  intros Hpw [Ha Hs] Hv.
  change (argp_parser (code "a") (Some a) g) with
    (match getpwnam a with
     | Some pw => Returned ESUCCESS (set_anon_owner g (pw_uid pw)) []
     | None =>
         let '(v, endp) := strtol a 0 in
         if deref endp || negb (deref a) || (v <? 0)
         then Returned ESUCCESS g
                ["--anonymous-owner: USER should be a user name or a numeric UID."]
         else Returned ESUCCESS (set_anon_owner g (to_uid_t v)) []
     end).
  rewrite Hpw, Hs. apply deref_true in Ha. rewrite Ha. cbn [deref orb negb].
  destruct (v <? 0) eqn:E; [lia|].
  unfold to_uid_t. rewrite to_unsigned_id; [reflexivity|].
  pose proof (strtol_range a 0) as R. rewrite Hs in R. simpl in R.
  unfold is_int in R. rewrite (proj2 int_bounds) in R.
  unfold is_unsigned. rewrite uint_bound. lia.
Qed.


(** No bit of a mode up to [07777] lies outside [07777]. *)
Lemma mode_mask_clear (m : Z) :
  0 <= m <= octal "07777" ->
  Z.land (to_mode_t m) (to_unsigned (Z.lnot (octal "07777"))) = 0.
Proof.
  change (octal "07777") with 4095. intros Hm.
  unfold to_mode_t. rewrite to_unsigned_id
    by (unfold is_unsigned; rewrite uint_bound; lia).
  change (to_unsigned (Z.lnot 4095)) with (Z.shiftl 1048575 12).
  apply Z.bits_inj'. intros i Hi.
  rewrite Z.land_spec, Z.bits_0.
  destruct (Z.lt_ge_cases i 12) as [Hlt | Hge].
  - rewrite (Z.shiftl_spec_low 1048575 12 i Hlt). apply andb_false_r.
  - destruct (Z.eq_dec m 0) as [-> | Hnz]; [rewrite Z.bits_0; reflexivity|].
    rewrite (Z.bits_above_log2 m i); [reflexivity | lia |].
    assert (Z.log2 m < 12) by (apply Z.log2_lt_pow2; [lia | simpl; lia]).
    lia.
Qed.

Lemma parse_stat_mode_accept (a : string) (v : Z) (g : options) :
  parses_as a 8 v -> 0 <= v <= octal "07777" ->
  argp_parser (code "s") (Some a) g = Returned ESUCCESS (set_stat_mode g v) [].
Proof.
  intros [Ha Hs] Hv.
  change (argp_parser (code "s") (Some a) g) with
    (let '(v, endp) := strtol a 8 in
     if deref endp || negb (deref a)
        || negb (Z.land (to_mode_t v)
                   (to_unsigned (Z.lnot (octal "07777"))) =? 0)
     then Returned ESUCCESS g ["--stat-mode: MODE should be an octal mode"]
     else Returned ESUCCESS (set_stat_mode g (to_mode_t v)) []).
  rewrite Hs. apply deref_true in Ha. rewrite Ha. cbn [deref orb negb].
  rewrite (mode_mask_clear v Hv). cbn [Z.eqb negb].
  unfold to_mode_t. rewrite to_unsigned_id; [reflexivity|].
  change (octal "07777") with 4095 in Hv.
  unfold is_unsigned. rewrite uint_bound. lia.
Qed.

(** The parser leaves each option alone unless the key is the option's
    own or [-c]. *)
Lemma argp_parser_frame (k : Z) (a : option string) (g : options) :
  let g' := options_after (argp_parser k a g) g in
  (opt_clk_tck g' <> opt_clk_tck g -> k = code "h" \/ k = code "c")
  /\ (opt_stat_mode g' <> opt_stat_mode g -> k = code "s" \/ k = code "c")
  /\ (opt_fake_self g' <> opt_fake_self g -> k = code "S" \/ k = code "c")
  /\ (opt_kernel_pid g' <> opt_kernel_pid g -> k = code "k")
  /\ (opt_anon_owner g' <> opt_anon_owner g -> k = code "a").
Proof.
  unfold argp_parser.
  destruct (k =? code "h") eqn:Eh; [apply Z.eqb_eq in Eh|].
  { destruct a as [a|]; [destruct (strtol a 0) as [v endp];
      destruct (deref endp || negb (deref a) || (v <=? 0))|];
    cbn; repeat split; intros H; auto; congruence. }
  destruct (k =? code "s") eqn:Es; [apply Z.eqb_eq in Es|].
  { destruct a as [a|]; [destruct (strtol a 8) as [v endp];
      match goal with |- context [if ?c then _ else _] => destruct c end|];
    cbn; repeat split; intros H; auto; congruence. }
  destruct (k =? code "S") eqn:ES; [apply Z.eqb_eq in ES|].
  { destruct a as [a|]; [destruct (strtol a 0) as [v endp];
      destruct (deref endp || negb (deref a))|];
    cbn; repeat split; intros H; auto; congruence. }
  destruct (k =? code "k") eqn:Ek; [apply Z.eqb_eq in Ek|].
  { destruct a as [a|]; [destruct (strtol a 0) as [v endp];
      match goal with |- context [if ?c then _ else _] => destruct c end|];
    cbn; repeat split; intros H; auto; congruence. }
  destruct (k =? code "c") eqn:Ec; [apply Z.eqb_eq in Ec|].
  { cbn; repeat split; intros H; auto; congruence. }
  destruct (k =? code "a") eqn:Ea; [apply Z.eqb_eq in Ea|].
  { destruct a as [a|]; [destruct (getpwnam a) as [pw|];
      [|destruct (strtol a 0) as [v endp];
        match goal with |- context [if ?c then _ else _] => destruct c end]|];
    cbn; repeat split; intros H; auto; congruence. }
  destruct (k =? NODEV_KEY); [cbn; repeat split; intros H; congruence|].
  destruct (k =? NOEXEC_KEY); [cbn; repeat split; intros H; congruence|].
  destruct (k =? NOSUID_KEY); cbn; repeat split; intros H; congruence.
Qed.

Lemma parses_as_unique (a : string) (base v v' : Z) :
  parses_as a base v -> parses_as a base v' -> v = v'.
Proof. intros [_ H] [_ H']. congruence. Qed.

Lemma parses_as_cases (a : string) (base : Z) :
  (exists v, parses_as a base v) \/ (forall v, ~ parses_as a base v).
Proof.
  unfold parses_as. destruct (strtol a base) as [v endp] eqn:Hs.
  destruct endp as [|c endp].
  - destruct a as [|c a].
    + right. intros v' [H _]. congruence.
    + left. exists v. split; [discriminate | reflexivity].
  - right. intros v' [_ H]. discriminate.
Qed.

(** ** [strtol] reads the integer a string denotes *)

Lemma digit_value_plain (c : ascii) (d : Z) :
  digit_value c = Some d ->
  isspace c = false /\ (c =? "-")%char = false /\ (c =? "+")%char = false.
Proof.
  destruct c as [[] [] [] [] [] [] [] []]; intros H; vm_compute in H;
    try discriminate H; repeat split.
Qed.

Lemma digit_in_value (b : Z) (c : ascii) (d : Z) :
  digit_in b c = Some d -> digit_value c = Some d.
Proof.
  unfold digit_in. destruct (digit_value c) as [d'|]; [|discriminate].
  destruct (d' <? b); [congruence | discriminate].
Qed.

Lemma octal_digit_not_x (c : ascii) (d : Z) :
  digit_in 8 c = Some d ->
  (c =? "x")%char = false /\ (c =? "X")%char = false.
Proof.
  destruct c as [[] [] [] [] [] [] [] []]; intros H; vm_compute in H;
    try discriminate H; split; reflexivity.
Qed.

Lemma skip_space_app (ws s : string) :
  all_space ws = true -> skip_space s = s -> skip_space (ws ++ s) = s.
Proof.
  intros Hws Hs. induction ws as [|c ws IH]; cbn [append skip_space];
    [exact Hs|].
  cbn [all_space] in Hws. apply andb_true_iff in Hws.
  destruct Hws as [Hc Hws]. rewrite Hc. apply IH. exact Hws.
Qed.

Lemma skip_space_split (s : string) :
  exists ws, all_space ws = true /\ s = ws ++ skip_space s.
Proof.
  induction s as [|c s (ws & Hws & Hs)]; cbn [skip_space].
  - exists EmptyString. split; reflexivity.
  - destruct (isspace c) eqn:E.
    + exists (String c ws). cbn [all_space append]. rewrite E, Hws.
      split; [reflexivity|]. f_equal. exact Hs.
    + exists EmptyString. split; reflexivity.
Qed.

Lemma digits_of_cons (b : Z) (c : ascii) (t : string) (ds : list Z) :
  digits_of b (String c t) = Some ds ->
  exists d ds', digit_in b c = Some d /\ digits_of b t = Some ds'
                /\ ds = d :: ds'.
Proof.
  cbn [digits_of]. destruct (digit_in b c) as [d|]; [|discriminate].
  destruct (digits_of b t) as [ds'|]; [|discriminate].
  intros H. injection H as <-. exists d, ds'. repeat split.
Qed.

(** The loop of [strtol] over a string of digits computes their
    positional value. *)
Lemma digits_of_scan (b : Z) (s : string) :
  forall (ds : list Z) (acc : Z) (any : bool),
    digits_of b s = Some ds ->
    scan_digits b s acc any
    = (acc * b ^ Z.of_nat (List.length ds) + positional b ds,
       any || deref s, EmptyString).
Proof.
  induction s as [|c s IH]; intros ds acc any H.
  - cbn [digits_of] in H. injection H as <-.
    cbn [scan_digits deref List.length positional]. rewrite orb_false_r.
    f_equal. f_equal. change (Z.of_nat 0) with 0. rewrite Z.pow_0_r. lia.
  - destruct (digits_of_cons b c s ds H) as (d & ds' & Hd & Hds & ->).
    cbn [scan_digits deref]. rewrite Hd, (IH ds' _ true Hds).
    cbn [List.length positional orb]. rewrite orb_true_r.
    f_equal. f_equal. rewrite Nat2Z.inj_succ, Z.pow_succ_r by lia. ring.
Qed.

(** When the loop reaches the end of the string, the string was made of
    digits. *)
Lemma scan_digits_whole (b : Z) (s : string) :
  forall (acc : Z) (any : bool) (v : Z) (any' : bool),
    scan_digits b s acc any = (v, any', EmptyString) ->
    exists ds, digits_of b s = Some ds
      /\ v = acc * b ^ Z.of_nat (List.length ds) + positional b ds
      /\ any' = any || deref s.
Proof.
  induction s as [|c s IH]; intros acc any v any' H;
    cbn [scan_digits digits_of deref] in *.
  - injection H as <- <-. exists []. cbn [List.length positional].
    split; [reflexivity|]. split; [|rewrite orb_false_r; reflexivity].
    change (Z.of_nat 0) with 0. rewrite Z.pow_0_r. lia.
  - destruct (digit_in b c) as [d|]; [|discriminate].
    destruct (IH _ _ _ _ H) as (ds & Hds & Hv & Hany).
    exists (d :: ds). rewrite Hds. split; [reflexivity|]. split.
    + rewrite Hv. cbn [List.length positional].
      rewrite Nat2Z.inj_succ, Z.pow_succ_r by lia. ring.
    + rewrite orb_true_r. exact Hany.
Qed.

Lemma numeral_head (body : string) (m : Z) :
  numeral body m ->
  exists c t d, body = String c t /\ digit_value c = Some d.
Proof.
  intros [c t ds Hc Hds | t ds Hds | x c t ds Hx Hds].
  - destruct (digits_of_cons _ _ _ _ Hds) as (d & ds' & Hd & _).
    exists c, t, d. split; [reflexivity | exact (digit_in_value _ _ _ Hd)].
  - exists "0"%char, t, 0. split; reflexivity.
  - exists "0"%char, (String x (String c t)), 0. split; reflexivity.
Qed.

(** [strtol] finds the notation of a numeral and reads its value. *)
Lemma numeral_scan (body : string) (m : Z) :
  numeral body m ->
  exists b s2, scan_base 0 body = (b, s2)
    /\ scan_digits b s2 0 false = (m, true, EmptyString).
Proof.
  intros [c t ds Hc Hds | t ds Hds | x c t ds Hx Hds].
  - exists 10, (String c t). split; [apply scan_base_0_decimal; exact Hc|].
    rewrite (digits_of_scan _ _ _ 0 false Hds). reflexivity.
  - exists 8, (String "0" t). split.
    + destruct t as [|c1 [|c2 t]]; try reflexivity.
      destruct (digits_of_cons _ _ _ _ Hds) as (d0 & ds0 & _ & Hds0 & _).
      destruct (digits_of_cons _ _ _ _ Hds0) as (d1 & ds1 & Hd1 & _).
      destruct (octal_digit_not_x c1 d1 Hd1) as [Hx HX].
      unfold scan_base. rewrite Hx, HX. reflexivity.
    + rewrite (digits_of_scan _ _ _ 0 false Hds). reflexivity.
  - exists 16, (String c t). split.
    + destruct (digits_of_cons _ _ _ _ Hds) as (d & ds' & Hd & _).
      destruct Hx as [-> | ->]; unfold scan_base; rewrite Hd; reflexivity.
    + rewrite (digits_of_scan _ _ _ 0 false Hds). reflexivity.
Qed.

(** What [strtol] scans in a string that denotes an integer. *)
Lemma integer_text_scan (a : string) (n : Z) :
  integer_text a n ->
  a <> EmptyString
  /\ exists neg s1 b s2 acc,
       scan_sign (skip_space a) = (neg, s1)
       /\ scan_base 0 s1 = (b, s2)
       /\ scan_digits b s2 0 false = (acc, true, EmptyString)
       /\ n = (if neg then - acc else acc).
Proof.
  intros [ws body m Hws Hn | ws body m Hws Hn | ws body m Hws Hn];
    destruct (numeral_scan body m Hn) as (b & s2 & Hb & Hd).
  - destruct (numeral_head body m Hn) as (c & t & d & -> & Hc).
    destruct (digit_value_plain c d Hc) as (Hsp & Hm & Hp).
    split; [destruct ws; cbn; discriminate|].
    exists false, (String c t), b, s2, m.
    rewrite (skip_space_app ws (String c t) Hws)
      by (cbn [skip_space]; rewrite Hsp; reflexivity).
    unfold scan_sign. rewrite Hm, Hp. repeat split; assumption.
  - split; [destruct ws; cbn; discriminate|].
    exists false, body, b, s2, m.
    rewrite (skip_space_app ws (String "+" body) Hws) by reflexivity.
    repeat split; assumption.
  - split; [destruct ws; cbn; discriminate|].
    exists true, body, b, s2, m.
    rewrite (skip_space_app ws (String "-" body) Hws) by reflexivity.
    repeat split; assumption.
Qed.

(** A string denotes one integer at most. *)
Lemma integer_text_unique (a : string) (n n' : Z) :
  integer_text a n -> integer_text a n' -> n = n'.
Proof.
  intros H H'.
  destruct (integer_text_scan a n H)
    as (_ & neg & s1 & b & s2 & acc & Es & Eb & Ed & ->).
  destruct (integer_text_scan a n' H')
    as (_ & neg' & s1' & b' & s2' & acc' & Es' & Eb' & Ed' & ->).
  rewrite Es in Es'. injection Es' as <- <-.
  rewrite Eb in Eb'. injection Eb' as <- <-.
  rewrite Ed in Ed'. injection Ed' as <-. reflexivity.
Qed.

(** [strtol] accepts the whole of a string that denotes an integer and
    returns the integer, saturated. *)
Lemma strtol_integer_text (a : string) (n : Z) :
  integer_text a n ->
  a <> EmptyString /\ strtol a 0 = (clamp_long n, EmptyString).
Proof.
  intros H.
  destruct (integer_text_scan a n H)
    as (Ha & neg & s1 & b & s2 & acc & Es & Eb & Ed & ->).
  split; [exact Ha|]. unfold strtol. rewrite Es, Eb, Ed. reflexivity.
Qed.

Lemma scan_base_0_numeral (s1 s2 : string) (b : Z) (ds : list Z) :
  scan_base 0 s1 = (b, s2) -> digits_of b s2 = Some ds ->
  s2 <> EmptyString ->
  numeral s1 (positional b ds).
Proof.
  intros Hb Hds Hne. destruct s1 as [|c0 s1].
  - cbn in Hb. injection Hb as <- <-. exfalso. apply Hne. reflexivity.
  - assert (Hplain : (if (c0 =? "0")%char then 8 else 10, String c0 s1)
                     = (b, s2) ->
                     numeral (String c0 s1) (positional b ds)).
    { destruct (c0 =? "0")%char eqn:E0; intros E; injection E as <- <-.
      - apply Ascii.eqb_eq in E0. subst c0. apply octal_numeral. exact Hds.
      - apply decimal_numeral; assumption. }
    destruct s1 as [|c1 [|c2 t]]; unfold scan_base in Hb;
      cbn [Z.eqb orb] in Hb; try (apply Hplain; exact Hb).
    match type of Hb with (if ?c then _ else _) = _ =>
      destruct c eqn:E end; [|apply Hplain; exact Hb].
    injection Hb as <- <-.
    apply andb_true_iff in E. destruct E as [E _].
    apply andb_true_iff in E. destruct E as [E _].
    apply andb_true_iff in E. destruct E as [E0 E1].
    apply Ascii.eqb_eq in E0. subst c0.
    apply hexadecimal_numeral; [|exact Hds].
    apply orb_true_iff in E1.
    destruct E1 as [E1 | E1]; apply Ascii.eqb_eq in E1; auto.
Qed.

(** A string [strtol] accepts the whole of denotes an integer, and the
    value returned is that integer, saturated. *)
Lemma strtol_whole (a : string) (v : Z) :
  a <> EmptyString -> strtol a 0 = (v, EmptyString) ->
  exists n, integer_text a n /\ v = clamp_long n.
Proof.
  intros Ha H. unfold strtol in H.
  destruct (skip_space_split a) as (ws & Hws & Hsplit).
  destruct (scan_sign (skip_space a)) as [neg s1] eqn:Es.
  destruct (scan_base 0 s1) as [b s2] eqn:Eb.
  destruct (scan_digits b s2 0 false) as [[acc any] rest] eqn:Ed.
  destruct any; [|injection H as _ H; contradiction].
  injection H as Hv Hrest. subst rest.
  destruct (scan_digits_whole b s2 0 false acc true Ed)
    as (ds & Hds & Hacc & Hany).
  assert (Hne : s2 <> EmptyString)
    by (destruct s2; [discriminate Hany | discriminate]).
  assert (Hm : acc = positional b ds) by lia.
  pose proof (scan_base_0_numeral s1 s2 b ds Eb Hds Hne) as Hnum.
  rewrite <- Hm in Hnum.
  unfold scan_sign in Es. destruct (skip_space a) as [|c s0].
  - injection Es as <- <-. exists acc. split; [|symmetry; exact Hv].
    rewrite Hsplit. apply unsigned_text; assumption.
  - destruct (c =? "-")%char eqn:Em.
    + apply Ascii.eqb_eq in Em. subst c. injection Es as <- <-.
      exists (- acc). split; [|symmetry; exact Hv].
      rewrite Hsplit. apply minus_text; assumption.
    + destruct (c =? "+")%char eqn:Ep.
      * apply Ascii.eqb_eq in Ep. subst c. injection Es as <- <-.
        exists acc. split; [|symmetry; exact Hv].
        rewrite Hsplit. apply plus_text; assumption.
      * injection Es as <- <-. exists acc. split; [|symmetry; exact Hv].
        rewrite Hsplit. apply unsigned_text; assumption.
Qed.

Lemma clamp_long_saturated (n : Z) : clamp_long n = saturated n.
Proof.
  unfold clamp_long, saturated.
  rewrite (proj1 long_bounds), (proj2 long_bounds).
  destruct (n <? -2147483648) eqn:E1; [lia|].
  destruct (2147483647 <? n) eqn:E2; lia.
Qed.

Lemma saturated_sign (n : Z) :
  (0 < saturated n <-> 0 < n) /\ (0 <= saturated n <-> 0 <= n).
Proof.
  unfold saturated. rewrite (proj1 long_bounds), (proj2 long_bounds). lia.
Qed.

Lemma saturated_nonneg (n : Z) : 0 <= n -> saturated n = Z.min n LONG_MAX.
Proof.
  unfold saturated. rewrite (proj1 long_bounds), (proj2 long_bounds). lia.
Qed.

Lemma saturated_id (n : Z) : LONG_MIN <= n <= LONG_MAX -> saturated n = n.
Proof.
  unfold saturated. rewrite (proj1 long_bounds), (proj2 long_bounds). lia.
Qed.

(** The check of the parser, [*endp] and [*arg] after [strtol], is the
    check that the argument denotes an integer. *)
Lemma integer_text_parses (a : string) (n : Z) :
  integer_text a n -> parses_as a 0 (saturated n).
Proof.
  intros H. destruct (strtol_integer_text a n H) as [Ha Hs].
  rewrite <- clamp_long_saturated. split; assumption.
Qed.

Lemma parses_as_integer_text (a : string) (v : Z) :
  parses_as a 0 v -> exists n, integer_text a n /\ v = saturated n.
Proof.
  intros [Ha Hs]. destruct (strtol_whole a v Ha Hs) as (n & Hn & ->).
  exists n. split; [exact Hn | apply clamp_long_saturated].
Qed.

Lemma integer_text_strtol (a : string) (n v : Z) (endp : string) :
  integer_text a n -> strtol a 0 = (v, endp) ->
  endp = EmptyString /\ v = saturated n.
Proof.
  intros H Hs. destruct (strtol_integer_text a n H) as [_ Hs'].
  rewrite Hs' in Hs. injection Hs as <- <-.
  split; [reflexivity | apply clamp_long_saturated].
Qed.

Lemma integer_text_cases (a : string) :
  (exists n, integer_text a n) \/ ~ (exists n, integer_text a n).
Proof.
  destruct (parses_as_cases a 0) as [[v Hv] | Hno].
  - left. destruct (parses_as_integer_text a v Hv) as (n & Hn & _).
    exists n. exact Hn.
  - right. intros [n Hn]. exact (Hno _ (integer_text_parses a n Hn)).
Qed.

(** ** The claims *)

(** C1 (the code departs from it).  [--kernel-process] is meant to
    accept positive integers only, but the parser tests the process id it
    already holds instead of the one it has just read: on a fresh start,
    where that id is the default 2, the arguments [-5] and [0] are
    accepted and become the kernel process id, no error is raised; once
    the id is negative, every later argument is refused, [3] included. *)
Theorem kernel_process_check_reads_old_pid :
  opt_kernel_pid startup_options = 2
  /\ argp_parser (code "k") (Some "-5") startup_options
     = Returned ESUCCESS (set_kernel_pid startup_options (-5)) []
  /\ argp_parser (code "k") (Some "0") startup_options
     = Returned ESUCCESS (set_kernel_pid startup_options 0) []
  /\ argp_parser (code "k") (Some "3") (set_kernel_pid startup_options (-5))
     = Returned ESUCCESS (set_kernel_pid startup_options (-5))
         ["--kernel-process: PID must be a positive integer"].
Proof. repeat split. Qed.

(** C6 (amended).  For every argument of [--clk-tck]: when the whole
    string denotes an integer [n] that is strictly positive, the parser
    accepts it and the clock-tick unit becomes [n], or [LONG_MAX] when
    [n] is beyond [LONG_MAX]; when the string denotes no such integer, the
    parser raises its argp error and leaves the options as they were.
    One of the two is the case. *)
Theorem clk_tck_accepted_iff_positive_integer (a : string) (g : options) :
  (forall n, integer_text a n -> 0 < n ->
     argp_parser (code "h") (Some a) g
     = Returned ESUCCESS (set_clk_tck g (Z.min n LONG_MAX)) []
     /\ opt_clk_tck (set_clk_tck g (Z.min n LONG_MAX)) = Z.min n LONG_MAX)
  /\ (~ (exists n, integer_text a n /\ 0 < n) ->
      argp_parser (code "h") (Some a) g
      = Returned ESUCCESS g ["--clk-tck: HZ should be a positive integer"])
  /\ ((exists n, integer_text a n /\ 0 < n)
      \/ ~ (exists n, integer_text a n /\ 0 < n)).
Proof.
  split; [|split].
  - intros n Hn Hpos. split; [|reflexivity].
    rewrite <- (saturated_nonneg n) by lia.
    apply parse_clk_tck_accept; [apply integer_text_parses; exact Hn|].
    apply saturated_sign. exact Hpos.
  - intros Hno. apply parse_clk_tck_reject.
    intros (v & Hv & Hpos). apply Hno.
    destruct (parses_as_integer_text a v Hv) as (n & Hn & ->).
    exists n. split; [exact Hn | apply saturated_sign; exact Hpos].
  - destruct (integer_text_cases a) as [[n Hn] | Hno].
    + destruct (Z_lt_dec 0 n) as [Hpos | Hneg].
      * left. exists n. split; assumption.
      * right. intros (n' & Hn' & Hpos).
        rewrite (integer_text_unique a n n' Hn Hn') in Hneg. contradiction.
    + right. intros (n & Hn & _). apply Hno. exists n. exact Hn.
Qed.


(** C9.  The keys of [--nodev], [--noexec] and [--nosuid], which the
    option table documents as ignored, fall through their empty cases
    into [default]: the parser returns [ARGP_ERR_UNKNOWN] for each of
    them, whereas it returns 0 for every option it handles ([-h], [-s],
    [-S], [-k], [-c], [-a]), whatever their argument. *)
Theorem compatibility_keys_reach_default (a : option string) (g : options) :
  (argp_parser NODEV_KEY a g = Returned ARGP_ERR_UNKNOWN g []
   /\ argp_parser NOEXEC_KEY a g = Returned ARGP_ERR_UNKNOWN g []
   /\ argp_parser NOSUID_KEY a g = Returned ARGP_ERR_UNKNOWN g [])
  /\ (option_map key (find_option common_options "nodev") = Some NODEV_KEY
      /\ option_map key (find_option common_options "noexec") = Some NOEXEC_KEY
      /\ option_map key (find_option common_options "nosuid") = Some NOSUID_KEY)
  /\ (forall s : string,
        returned_code (argp_parser (code "h") (Some s) g) = Some ESUCCESS
        /\ returned_code (argp_parser (code "s") (Some s) g) = Some ESUCCESS
        /\ returned_code (argp_parser (code "S") (Some s) g) = Some ESUCCESS
        /\ returned_code (argp_parser (code "S") None g) = Some ESUCCESS
        /\ returned_code (argp_parser (code "k") (Some s) g) = Some ESUCCESS
        /\ returned_code (argp_parser (code "c") a g) = Some ESUCCESS
        /\ returned_code (argp_parser (code "a") (Some s) g) = Some ESUCCESS).
Proof.
  split; [repeat split|]. split; [repeat split|].
  intros s. repeat split.
  - change (argp_parser (code "h") (Some s) g) with
      (let '(v, endp) := strtol s 0 in
       if deref endp || negb (deref s) || (v <=? 0)
       then Returned ESUCCESS g ["--clk-tck: HZ should be a positive integer"]
       else Returned ESUCCESS (set_clk_tck g (to_int v)) []).
    destruct (strtol s 0) as [v endp].
    destruct (deref endp || negb (deref s) || (v <=? 0)); reflexivity.
  - change (argp_parser (code "s") (Some s) g) with
      (let '(v, endp) := strtol s 8 in
       if deref endp || negb (deref s)
          || negb (Z.land (to_mode_t v)
                     (to_unsigned (Z.lnot (octal "07777"))) =? 0)
       then Returned ESUCCESS g ["--stat-mode: MODE should be an octal mode"]
       else Returned ESUCCESS (set_stat_mode g (to_mode_t v)) []).
    destruct (strtol s 8) as [v endp].
    match goal with |- context [if ?c then _ else _] => destruct c end;
      reflexivity.
  - change (argp_parser (code "S") (Some s) g) with
      (let '(v, endp) := strtol s 0 in
       if deref endp || negb (deref s)
       then Returned ESUCCESS g ["--fake-self: PID must be an integer"]
       else Returned ESUCCESS (set_fake_self g (to_pid_t v)) []).
    destruct (strtol s 0) as [v endp].
    destruct (deref endp || negb (deref s)); reflexivity.
  - change (argp_parser (code "k") (Some s) g) with
      (let '(v, endp) := strtol s 0 in
       if deref endp || negb (deref s) || (to_int (opt_kernel_pid g) <? 0)
       then Returned ESUCCESS g
              ["--kernel-process: PID must be a positive integer"]
       else Returned ESUCCESS (set_kernel_pid g (to_pid_t v)) []).
    destruct (strtol s 0) as [v endp].
    match goal with |- context [if ?c then _ else _] => destruct c end;
      reflexivity.
  - change (argp_parser (code "a") (Some s) g) with
      (match getpwnam s with
       | Some pw => Returned ESUCCESS (set_anon_owner g (pw_uid pw)) []
       | None =>
           let '(v, endp) := strtol s 0 in
           if deref endp || negb (deref s) || (v <? 0)
           then Returned ESUCCESS g
                  ["--anonymous-owner: USER should be a user name or a numeric UID."]
           else Returned ESUCCESS (set_anon_owner g (to_uid_t v)) []
       end).
    destruct (getpwnam s) as [pw|]; [reflexivity|].
    destruct (strtol s 0) as [v endp].
    match goal with |- context [if ?c then _ else _] => destruct c end;
      reflexivity.
Qed.

(** What [root_make_node] returns, in terms of its three calls. *)
Lemma root_make_node_calls (pc : ps_context) (w : W) :
  exists d0 w1 d1 w2 np w3,
    proclist_make_node pc w = (d0, w1)
    /\ rootdir_make_node pc w1 = (d1, w2)
    /\ dircat_make_node [d0; d1] 2 w2 = (np, w3)
    /\ root_make_node pc w
       = (match np with Some _ => ESUCCESS | None => ENOMEM end,
          option_map
            (fun n => set_st_ino n (to_ino_t (load_uint32 "PROC"))) np,
          w3).
Proof.
  unfold root_make_node.
  destruct (proclist_make_node pc w) as [d0 w1] eqn:H0.
  destruct (rootdir_make_node pc w1) as [d1 w2] eqn:H1.
  change (Z.of_nat (List.length [d0; d1])) with 2.
  destruct (dircat_make_node [d0; d1] 2 w2) as [np w3] eqn:Hd.
  exists d0, w1, d1, w2, np, w3.
  split; [reflexivity|]. split; [exact H1|]. split; [exact Hd|].
  destruct np; reflexivity.
Qed.

(** When [main] serves, its root node is the one [root_make_node] made. *)
Lemma main_serves_made_root (line : list (Z * option string)) (w : W)
  (g : options) (root : node netnode) (w' : W) :
  main line w = Serve g root w' ->
  exists pc w0 w1, root_make_node pc w0 = (ESUCCESS, Some root, w1).
Proof.
  unfold main.
  destruct (argp_parse argp false line startup_options); try discriminate.
  destruct (ps_context_create w) as [[err pc] w1].
  destruct (is_error err); [discriminate|].
  destruct (task_get_bootstrap_port w1) as [bootstrap w2].
  destruct (bootstrap =? MACH_PORT_NULL); [discriminate|].
  destruct (root_make_node pc (netfs_init w2)) as [[err' np] w3] eqn:Hr.
  destruct (is_error err') eqn:He; [discriminate|].
  destruct np as [n|]; [|discriminate].
  intros H. injection H as _ Hn _. subst n.
  exists pc, (netfs_init w2), w3. rewrite Hr.
  destruct err'; try discriminate. reflexivity.
Qed.

(** C3.  Whenever [root_make_node] succeeds, the root node it leaves in
    [*np] has the inode number read from the four bytes [P], [R], [O],
    [C], whatever number the node maker had given it: the 32-bit constant
    0x434F5250. *)
Theorem root_inode_is_PROC (pc : ps_context) (w : W)
  (np : node netnode) (w' : W) :
  root_make_node pc w = (ESUCCESS, Some np, w') ->
  st_ino (nn_stat np) = load_uint32 "PROC"
  /\ load_uint32 "PROC"
     = code "P" + code "R" * 2 ^ 8 + code "O" * 2 ^ 16 + code "C" * 2 ^ 24
  /\ load_uint32 "PROC" = 0x434F5250.
Proof.
  intros H.
  destruct (root_make_node_calls pc w)
    as (d0 & w1 & d1 & w2 & r & w3 & _ & _ & _ & Hroot).
  rewrite Hroot in H. destruct r as [n|]; [|discriminate].
  injection H as Hn _. subst np. repeat split.
Qed.

(** C4.  [root_make_node] makes the per-process node with
    [proclist_make_node], then the root-info node with
    [rootdir_make_node], and hands exactly these two, in this order, to
    one call of [dircat_make_node]; the node that call returns is the
    node of [root_make_node], and the one [main] serves as the root of
    the filesystem. *)
Theorem root_composes_proclist_then_rootdir :
  (forall (pc : ps_context) (w : W),
     exists d0 w1 d1 w2 np w3,
       proclist_make_node pc w = (d0, w1)
       /\ rootdir_make_node pc w1 = (d1, w2)
       /\ dircat_make_node [d0; d1] 2 w2 = (np, w3)
       /\ root_make_node pc w
          = (match np with Some _ => ESUCCESS | None => ENOMEM end,
             option_map
               (fun n => set_st_ino n (to_ino_t (load_uint32 "PROC"))) np,
             w3))
  /\ (forall (line : list (Z * option string)) (w : W) (g : options)
        (root : node netnode) (w' : W),
        main line w = Serve g root w' ->
        exists pc w0 w1, root_make_node pc w0 = (ESUCCESS, Some root, w1)).
Proof.
  split.
  - intros pc w. apply root_make_node_calls.
  - intros line w g root w' H. exact (main_serves_made_root line w g root w' H).
Qed.

(** C5.  When [dircat_make_node] yields no node, [root_make_node]
    returns [ENOMEM] with no node in [*np], having called it once; when
    it yields a node, [root_make_node] returns 0 with that node in [*np].
    [main] answers a failure of [root_make_node] by ending the process
    through [error (1, err, ...)]. *)
Theorem root_allocation_failure_is_fatal :
  (forall (pc : ps_context) (w w1 w2 w3 : W) (d0 d1 : option (node netnode)),
     proclist_make_node pc w = (d0, w1) ->
     rootdir_make_node pc w1 = (d1, w2) ->
     dircat_make_node [d0; d1] 2 w2 = (None, w3) ->
     root_make_node pc w = (ENOMEM, None, w3))
  /\ (forall (pc : ps_context) (w w1 w2 w3 : W)
        (d0 d1 : option (node netnode)) (n : node netnode),
        proclist_make_node pc w = (d0, w1) ->
        rootdir_make_node pc w1 = (d1, w2) ->
        dircat_make_node [d0; d1] 2 w2 = (Some n, w3) ->
        exists root, root_make_node pc w = (ESUCCESS, Some root, w3))
  /\ (forall (line : list (Z * option string)) (w w1 w2 w3 : W)
        (g : options) (pc : ps_context) (bootstrap : Z) (err : error_t)
        (np : option (node netnode)),
        argp_parse argp false line startup_options = Parsed g ->
        ps_context_create w = (ESUCCESS, pc, w1) ->
        task_get_bootstrap_port w1 = (bootstrap, w2) ->
        bootstrap <> MACH_PORT_NULL ->
        root_make_node pc (netfs_init w2) = (err, np, w3) ->
        is_error err = true ->
        main line w = Exit 1 err "Could not create the root node").
Proof.
  split; [|split].
  - intros pc w w1 w2 w3 d0 d1 H0 H1 H2.
    unfold root_make_node. rewrite H0, H1.
    change (Z.of_nat (List.length [d0; d1])) with 2. rewrite H2. reflexivity.
  - intros pc w w1 w2 w3 d0 d1 n H0 H1 H2.
    unfold root_make_node. rewrite H0, H1.
    change (Z.of_nat (List.length [d0; d1])) with 2. rewrite H2.
    eexists. reflexivity.
  - intros line w w1 w2 w3 g pc bootstrap err np Hp Hc Hb Hnz Hr He.
    unfold main. rewrite Hp, Hc. cbn [is_error]. rewrite Hb.
    destruct (bootstrap =? MACH_PORT_NULL) eqn:E;
      [apply Z.eqb_eq in E; contradiction|].
    rewrite Hr, He. reflexivity.
Qed.

(** ** Runs of the argp library *)

(** A relation between the options before and after that every parser
    call on an allowed key respects is respected by a whole run over
    allowed keys. *)
Lemma argp_parse_invariant (a : struct_argp) (R : options -> options -> Prop)
  (allowed : Z -> Prop) :
  (forall g, R g g) ->
  (forall g1 g2 g3, R g1 g2 -> R g2 g3 -> R g1 g3) ->
  (forall k p v g, allowed k -> owner a k = Some (Some p) ->
                   R g (options_after (p k v g) g)) ->
  forall (no_exit : bool) (line : list (Z * option string)) (g : options),
    (forall k v, In (k, v) line -> allowed k) ->
    match argp_parse a no_exit line g with
    | Parsed g' | Failed _ g' => R g g'
    | _ => True
    end.
Proof.
  intros Hrefl Htrans Hstep no_exit line.
  induction line as [|[k v] rest IH]; intros g Hall; simpl.
  - apply Hrefl.
  - destruct (owner a k) as [[p|]|] eqn:Ho;
      try (destruct no_exit; [apply Hrefl | exact I]).
    assert (Hk : allowed k) by (apply (Hall k v); left; reflexivity).
    specialize (Hstep k p v g Hk Ho).
    destruct (p k v g) as [err g' msgs|]; [|exact I].
    cbn [options_after] in Hstep.
    match goal with |- context [if ?c then _ else _] => destruct c end;
      [exact I|].
    destruct (is_error err); [exact Hstep|].
    assert (Hrest : forall k' v', In (k', v') rest -> allowed k')
      by (intros k' v' Hin; apply (Hall k' v'); right; exact Hin).
    specialize (IH g' Hrest).
    destruct (argp_parse a no_exit rest g'); try exact I;
      eapply Htrans; eassumption.
Qed.

(** The parsers behind [argp] and [netfs_runtime_argp_]. *)
Lemma owner_argp (k : Z) (p : parser_fn) :
  owner argp k = Some (Some p) ->
  p = argp_parser \/ p = foreign netfs_std_startup_parser.
Proof.
  unfold argp, netfs_std_startup_argp. cbn [owner].
  destruct (existsb (fun o => key o =? k) common_options).
  - intros H. left. congruence.
  - destruct (existsb (fun o => key o =? k) netfs_std_startup_options).
    + intros H. right. congruence.
    + discriminate.
Qed.

Lemma owner_netfs_runtime_argp_ (k : Z) (p : parser_fn) :
  owner netfs_runtime_argp_ k = Some (Some p) ->
  p = argp_parser \/ p = runtime_argp_parser
  \/ p = foreign netfs_std_runtime_parser.
Proof.
  unfold netfs_runtime_argp_, runtime_argp, netfs_std_runtime_argp.
  cbn [owner].
  destruct (existsb (fun o => key o =? k) common_options).
  - intros H. left. congruence.
  - match goal with |- context [if ?c then _ else _] => destruct c end.
    + intros H. right. left. congruence.
    + destruct (existsb (fun o => key o =? k) netfs_std_runtime_options).
      * intros H. right. right. congruence.
      * discriminate.
Qed.

Lemma foreign_keeps_options (p : foreign_parser) (k : Z) (v : option string)
  (g : options) : options_after (foreign p k v g) g = g.
Proof. unfold foreign. destruct (p k v). reflexivity. Qed.

Lemma runtime_argp_parser_keeps_options (k : Z) (v : option string)
  (g : options) : options_after (runtime_argp_parser k v g) g = g.
Proof. unfold runtime_argp_parser. destruct (k =? code "u"); reflexivity. Qed.

Lemma options_ext (g g' : options) :
  opt_clk_tck g' = opt_clk_tck g -> opt_stat_mode g' = opt_stat_mode g ->
  opt_fake_self g' = opt_fake_self g -> opt_kernel_pid g' = opt_kernel_pid g ->
  opt_anon_owner g' = opt_anon_owner g -> g' = g.
Proof. destruct g, g'; simpl; intros; subst; reflexivity. Qed.

Lemma policy_keys_in (k : Z) :
  k = code "h" \/ k = code "s" \/ k = code "S" \/ k = code "k"
  \/ k = code "c" \/ k = code "a" ->
  In k policy_keys.
Proof.
  unfold policy_keys. cbn [In].
  intros [H | [H | [H | [H | [H | H]]]]]; symmetry in H; auto 10.
Qed.

Lemma argp_parser_keeps_options (k : Z) (v : option string) (g : options) :
  ~ In k policy_keys -> options_after (argp_parser k v g) g = g.
Proof.
  intros Hk. destruct (argp_parser_frame k v g) as (H1 & H2 & H3 & H4 & H5).
  apply options_ext.
  - destruct (Z.eq_dec (opt_clk_tck (options_after (argp_parser k v g) g))
                (opt_clk_tck g)) as [E|E]; [exact E | exfalso].
    apply Hk, policy_keys_in. destruct (H1 E); auto 10.
  - destruct (Z.eq_dec (opt_stat_mode (options_after (argp_parser k v g) g))
                (opt_stat_mode g)) as [E|E]; [exact E | exfalso].
    apply Hk, policy_keys_in. destruct (H2 E); auto 10.
  - destruct (Z.eq_dec (opt_fake_self (options_after (argp_parser k v g) g))
                (opt_fake_self g)) as [E|E]; [exact E | exfalso].
    apply Hk, policy_keys_in. destruct (H3 E); auto 10.
  - destruct (Z.eq_dec (opt_kernel_pid (options_after (argp_parser k v g) g))
                (opt_kernel_pid g)) as [E|E]; [exact E | exfalso].
    apply Hk, policy_keys_in. pose proof (H4 E). auto 10.
  - destruct (Z.eq_dec (opt_anon_owner (options_after (argp_parser k v g) g))
                (opt_anon_owner g)) as [E|E]; [exact E | exfalso].
    apply Hk, policy_keys_in. pose proof (H5 E). auto 10.
Qed.

Lemma argp_parser_keeps_fake_self (k : Z) (v : option string) (g : options) :
  k <> code "S" -> k <> code "c" ->
  opt_fake_self (options_after (argp_parser k v g) g) = opt_fake_self g.
Proof.
  intros HS Hc. destruct (argp_parser_frame k v g) as (_ & _ & H3 & _).
  destruct (Z.eq_dec (opt_fake_self (options_after (argp_parser k v g) g))
              (opt_fake_self g)) as [E|E]; [exact E | exfalso].
  destruct (H3 E); contradiction.
Qed.

Lemma main_serves_parsed (line : list (Z * option string)) (w : W)
  (g : options) (root : node netnode) (w' : W) :
  main line w = Serve g root w' ->
  argp_parse argp false line startup_options = Parsed g.
Proof.
  unfold main.
  destruct (argp_parse argp false line startup_options) as [g0| | |];
    try discriminate.
  destruct (ps_context_create w) as [[err pc] w1].
  destruct (is_error err); [discriminate|].
  destruct (task_get_bootstrap_port w1) as [bootstrap w2].
  destruct (bootstrap =? MACH_PORT_NULL); [discriminate|].
  destruct (root_make_node pc (netfs_init w2)) as [[err' np] w3].
  destruct (is_error err'); [discriminate|].
  destruct np as [n|]; [|discriminate].
  intros H. injection H as Hg _ _. subst g0. reflexivity.
Qed.

(** C2 (amended).  The options are not fixed after startup:
    [netfs_runtime_argp] points to [argp], so the runtime option handling
    runs the parsers of startup, [argp_parser] among them.  What holds is
    that a runtime option line changes the options only through the keys
    of [-h], [-s], [-S], [-k], [-c] and [-a]: a line without them leaves
    all five options as they were, under [netfs_runtime_argp] and under
    [netfs_runtime_argp_] alike, and [runtime_argp_parser] never writes
    them. *)
Theorem runtime_options_change_policy_only_on_policy_keys :
  (forall no_exit line g,
     argp_parse netfs_runtime_argp no_exit line g
     = argp_parse argp no_exit line g)
  /\ argp_parser_of netfs_runtime_argp = Some argp_parser
  /\ (forall no_exit line g,
        (forall k v, In (k, v) line -> ~ In k policy_keys) ->
        keeps_options netfs_runtime_argp no_exit line g)
  /\ (forall no_exit line g,
        (forall k v, In (k, v) line -> ~ In k policy_keys) ->
        keeps_options netfs_runtime_argp_ no_exit line g)
  /\ (forall k v g, options_after (runtime_argp_parser k v g) g = g).
Proof.
  split; [reflexivity|]. split; [reflexivity|]. split; [|split].
  - intros no_exit line g Hline. unfold keeps_options.
    apply (argp_parse_invariant netfs_runtime_argp
             (fun g0 g' => g' = g0) (fun k => ~ In k policy_keys));
      try congruence; try assumption.
    intros k p v g0 Hk Ho. destruct (owner_argp k p Ho) as [-> | ->].
    + apply argp_parser_keeps_options. exact Hk.
    + apply foreign_keeps_options.
  - intros no_exit line g Hline. unfold keeps_options.
    apply (argp_parse_invariant netfs_runtime_argp_
             (fun g0 g' => g' = g0) (fun k => ~ In k policy_keys));
      try congruence; try assumption.
    intros k p v g0 Hk Ho.
    destruct (owner_netfs_runtime_argp_ k p Ho) as [-> | [-> | ->]].
    + apply argp_parser_keeps_options. exact Hk.
    + apply runtime_argp_parser_keeps_options.
    + apply foreign_keeps_options.
  - intros k v g. apply runtime_argp_parser_keeps_options.
Qed.

(** C8 (amended).  [--fake-self] with an argument that denotes an
    integer makes that integer the target of the self link, saturated to
    the range of [long]: the integer itself when it lies in the range,
    [LONG_MAX] or [LONG_MIN] when it lies beyond; with an argument that
    denotes no integer it raises the argp error and changes nothing;
    without an argument it makes the target 1.  [--compatible] makes the
    target 1 as well.  When neither of the two is on the command line, the
    target is what [main] set before parsing, -1, in every run that parses
    and in the server that [main] starts. *)
Theorem fake_self_target_is_optional :
  (forall a n g,
     integer_text a n ->
     argp_parser (code "S") (Some a) g
     = Returned ESUCCESS (set_fake_self g (saturated n)) []
     /\ opt_fake_self (set_fake_self g (saturated n)) = saturated n
     /\ (LONG_MIN <= n <= LONG_MAX -> saturated n = n)
     /\ (LONG_MAX <= n -> saturated n = LONG_MAX)
     /\ (n <= LONG_MIN -> saturated n = LONG_MIN))
  /\ (forall a g,
        ~ (exists n, integer_text a n) ->
        argp_parser (code "S") (Some a) g
        = Returned ESUCCESS g ["--fake-self: PID must be an integer"])
  /\ (forall g,
        argp_parser (code "S") None g
        = Returned ESUCCESS (set_fake_self g 1) [])
  /\ (forall v g,
        opt_fake_self (options_after (argp_parser (code "c") v g) g) = 1)
  /\ opt_fake_self startup_options = -1
  /\ (forall no_exit line g,
        (forall k v, In (k, v) line -> k <> code "S" /\ k <> code "c") ->
        argp_parse argp no_exit line startup_options = Parsed g ->
        opt_fake_self g = -1)
  /\ (forall line w g root w',
        (forall k v, In (k, v) line -> k <> code "S" /\ k <> code "c") ->
        main line w = Serve g root w' ->
        opt_fake_self g = -1).
Proof.
  assert (Hrun : forall no_exit line g,
            (forall k v, In (k, v) line -> k <> code "S" /\ k <> code "c") ->
            argp_parse argp no_exit line startup_options = Parsed g ->
            opt_fake_self g = -1).
  { intros no_exit line g Hline Hp.
    pose proof (argp_parse_invariant argp
                  (fun g0 g' => opt_fake_self g' = opt_fake_self g0)
                  (fun k => k <> code "S" /\ k <> code "c")) as Hinv.
    specialize (Hinv (fun _ => eq_refl)).
    specialize (Hinv (fun g1 g2 g3 H12 H23 => eq_trans H23 H12)).
    assert (Hstep : forall k p v g0,
               k <> code "S" /\ k <> code "c" ->
               owner argp k = Some (Some p) ->
               opt_fake_self (options_after (p k v g0) g0) = opt_fake_self g0).
    { intros k p v g0 [HS Hc] Ho. destruct (owner_argp k p Ho) as [-> | ->].
      - apply argp_parser_keeps_fake_self; assumption.
      - rewrite foreign_keeps_options. reflexivity. }
    specialize (Hinv Hstep no_exit line startup_options Hline).
    rewrite Hp in Hinv. exact Hinv. }
  split; [|split; [|split; [|split; [|split; [|split]]]]].
  - intros a n g Hn.
    split; [apply parse_fake_self_accept, integer_text_parses; exact Hn|].
    split; [reflexivity|].
    unfold saturated. rewrite (proj1 long_bounds), (proj2 long_bounds).
    repeat split; lia.
  - intros a g Hno. apply parse_fake_self_reject.
    intros [v Hv]. apply Hno.
    destruct (parses_as_integer_text a v Hv) as (n & Hn & _).
    exists n. exact Hn.
  - reflexivity.
  - reflexivity.
  - reflexivity.
  - exact Hrun.
  - intros line w g root w' Hline Hm.
    apply (Hrun false line g Hline).
    exact (main_serves_parsed line w g root w' Hm).
Qed.

(** ** Printing the options and parsing them back *)

Lemma FOPT_enough (differs : bool) (text : string) (az : argz) (mem : nat) :
  (String.length text <= 79)%nat -> (80 <= mem)%nat ->
  exists mem',
    FOPT differs text (ESUCCESS, az, mem)
    = (ESUCCESS, (az ++ emit differs text)%list, mem')
    /\ (mem - 80 <= mem')%nat.
Proof.
  intros Hlen Hmem. unfold FOPT, emit. cbn [is_error negb andb].
  destruct differs.
  - unfold argz_add. rewrite (snprintf_short text Hlen).
    destruct (S (String.length text) <=? mem)%nat eqn:E.
    + eexists. split; [reflexivity | lia].
    + apply Nat.leb_gt in E. lia.
  - exists mem. rewrite app_nil_r. split; [reflexivity | lia].
Qed.

Lemma FOPT_cases (differs : bool) (text : string) (az : argz) (mem : nat) :
  (String.length text <= 79)%nat ->
  (exists mem',
     FOPT differs text (ESUCCESS, az, mem)
     = (ESUCCESS, (az ++ emit differs text)%list, mem'))
  \/ FOPT differs text (ESUCCESS, az, mem) = (ENOMEM, az, mem).
Proof.
  intros Hlen. unfold FOPT, emit. cbn [is_error negb andb].
  destruct differs.
  - unfold argz_add. rewrite (snprintf_short text Hlen).
    destruct (S (String.length text) <=? mem)%nat.
    + left. eexists. reflexivity.
    + right. reflexivity.
  - left. exists mem. rewrite app_nil_r. reflexivity.
Qed.

Lemma FOPT_after_error (differs : bool) (text : string) (az : argz)
  (mem : nat) : FOPT differs text (ENOMEM, az, mem) = (ENOMEM, az, mem).
Proof. reflexivity. Qed.

Lemma knob_args_emit (g : options) :
  knob_args g
  = (emit (negb (opt_clk_tck g =? OPT_CLK_TCK))
       ("--clk-tck=" ++ fmt_d (opt_clk_tck g))%string
     ++ emit (negb (opt_stat_mode g =? OPT_STAT_MODE))
          ("--stat-mode=" ++ fmt_o (opt_stat_mode g))%string
     ++ emit (negb (opt_fake_self g =? OPT_FAKE_SELF))
          ("--fake-self=" ++ fmt_d (opt_fake_self g))%string
     ++ emit (negb (opt_anon_owner g =? OPT_ANON_OWNER))
          ("--anonymous-owner=" ++ fmt_d (to_int (opt_anon_owner g)))%string
     ++ emit (negb (opt_kernel_pid g =? OPT_KERNEL_PID))
          ("--kernel-process=" ++ fmt_d (opt_kernel_pid g))%string)%list.
Proof.
  unfold knob_args, emit.
  destruct (opt_clk_tck g =? OPT_CLK_TCK), (opt_stat_mode g =? OPT_STAT_MODE),
    (opt_fake_self g =? OPT_FAKE_SELF), (opt_anon_owner g =? OPT_ANON_OWNER),
    (opt_kernel_pid g =? OPT_KERNEL_PID); reflexivity.
Qed.

Lemma text_lengths (g : options) :
  (String.length ("--clk-tck=" ++ fmt_d (opt_clk_tck g)) <= 79
   /\ String.length ("--stat-mode=" ++ fmt_o (opt_stat_mode g)) <= 79
   /\ String.length ("--fake-self=" ++ fmt_d (opt_fake_self g)) <= 79
   /\ String.length
        ("--anonymous-owner=" ++ fmt_d (to_int (opt_anon_owner g))) <= 79
   /\ String.length ("--kernel-process=" ++ fmt_d (opt_kernel_pid g)) <= 79)%nat.
Proof.
  pose proof (fmt_d_length (opt_clk_tck g)).
  pose proof (fmt_o_length (opt_stat_mode g)).
  pose proof (fmt_d_length (opt_fake_self g)).
  pose proof (fmt_d_length (to_int (opt_anon_owner g))).
  pose proof (fmt_d_length (opt_kernel_pid g)).
  cbn [append String.length]. lia.
Qed.

(** With memory for five strings, every knob string is appended. *)
Lemma netfs_append_args_enough (g : options) (az : argz) (mem : nat) :
  (400 <= mem)%nat ->
  exists mem',
    netfs_append_args g az mem
    = netfs_append_std_options (az ++ knob_args g)%list mem'.
Proof.
  intros Hmem. destruct (text_lengths g) as (L1 & L2 & L3 & L4 & L5).
  unfold netfs_append_args. cbv zeta.
  destruct (FOPT_enough (negb (opt_clk_tck g =? OPT_CLK_TCK)) _ az mem L1
              ltac:(lia)) as (m1 & -> & H1).
  match goal with |- context [FOPT ?d ?t (ESUCCESS, ?a, m1)] =>
    destruct (FOPT_enough d t a m1 L2 ltac:(lia)) as (m2 & -> & H2) end.
  match goal with |- context [FOPT ?d ?t (ESUCCESS, ?a, m2)] =>
    destruct (FOPT_enough d t a m2 L3 ltac:(lia)) as (m3 & -> & H3) end.
  match goal with |- context [FOPT ?d ?t (ESUCCESS, ?a, m3)] =>
    destruct (FOPT_enough d t a m3 L4 ltac:(lia)) as (m4 & -> & H4) end.
  match goal with |- context [FOPT ?d ?t (ESUCCESS, ?a, m4)] =>
    destruct (FOPT_enough d t a m4 L5 ltac:(lia)) as (m5 & -> & H5) end.
  cbn [is_error negb]. exists m5.
  rewrite knob_args_emit. rewrite <- !app_assoc. reflexivity.
Qed.

(** Whatever the memory, a call either fails with [ENOMEM] or appends
    every knob string. *)
Lemma netfs_append_args_cases (g : options) (az : argz) (mem : nat) :
  (exists az' mem', netfs_append_args g az mem = (ENOMEM, az', mem'))
  \/ (exists mem',
        netfs_append_args g az mem
        = netfs_append_std_options (az ++ knob_args g)%list mem').
Proof.
  destruct (text_lengths g) as (L1 & L2 & L3 & L4 & L5).
  unfold netfs_append_args. cbv zeta.
  destruct (FOPT_cases (negb (opt_clk_tck g =? OPT_CLK_TCK)) _ az mem L1)
    as [(m1 & ->) | ->];
    [|rewrite !FOPT_after_error; left; eexists; eexists; reflexivity].
  match goal with |- context [FOPT ?d ?t (ESUCCESS, ?a, m1)] =>
    destruct (FOPT_cases d t a m1 L2) as [(m2 & ->) | ->] end;
    [|rewrite !FOPT_after_error; left; eexists; eexists; reflexivity].
  match goal with |- context [FOPT ?d ?t (ESUCCESS, ?a, m2)] =>
    destruct (FOPT_cases d t a m2 L3) as [(m3 & ->) | ->] end;
    [|rewrite !FOPT_after_error; left; eexists; eexists; reflexivity].
  match goal with |- context [FOPT ?d ?t (ESUCCESS, ?a, m3)] =>
    destruct (FOPT_cases d t a m3 L4) as [(m4 & ->) | ->] end;
    [|rewrite !FOPT_after_error; left; eexists; eexists; reflexivity].
  match goal with |- context [FOPT ?d ?t (ESUCCESS, ?a, m4)] =>
    destruct (FOPT_cases d t a m4 L5) as [(m5 & ->) | ->] end;
    [|left; eexists; eexists; reflexivity].
  right. cbn [is_error negb]. exists m5.
  rewrite knob_args_emit. rewrite <- !app_assoc. reflexivity.
Qed.

Lemma line_of_app (az1 az2 : argz) (l1 : list (Z * option string)) :
  line_of az1 = Some l1 ->
  line_of (az1 ++ az2)
  = match line_of az2 with Some l2 => Some (l1 ++ l2)%list | None => None end.
Proof.
  revert l1. induction az1 as [|word az1 IH]; intros l1 H; simpl in *.
  - injection H as <-. destruct (line_of az2); reflexivity.
  - destruct (long_option common_options word) as [t|]; [|discriminate].
    destruct (line_of az1) as [l|]; [|discriminate].
    injection H as <-. rewrite (IH l eq_refl).
    destruct (line_of az2); reflexivity.
Qed.

Lemma argp_parse_app (a : struct_argp) (no_exit : bool)
  (l1 l2 : list (Z * option string)) (g g1 : options) :
  argp_parse a no_exit l1 g = Parsed g1 ->
  argp_parse a no_exit (l1 ++ l2) g = argp_parse a no_exit l2 g1.
Proof.
  revert g. induction l1 as [|[k v] l1 IH]; intros g H; simpl in *.
  - injection H as <-. reflexivity.
  - destruct (owner a k) as [[p|]|];
      try (destruct no_exit; discriminate).
    destruct (p k v g) as [err g' msgs|]; [|discriminate].
    match goal with |- context [if ?c then _ else _] => destruct c end;
      [discriminate|].
    destruct (is_error err); [discriminate|]. apply IH. exact H.
Qed.

Lemma parse_from_app (g0 g1 : options) (az1 az2 : argz) :
  parse_from g0 az1 = Some g1 ->
  parse_from g0 (az1 ++ az2) = parse_from g1 az2.
Proof.
  unfold parse_from. destruct (line_of az1) as [l1|] eqn:H1; [|discriminate].
  destruct (argp_parse argp false l1 g0) as [g| | |] eqn:Hp; try discriminate.
  intros H. injection H as ->. rewrite (line_of_app az1 az2 l1 H1).
  destruct (line_of az2) as [l2|]; [|reflexivity].
  rewrite (argp_parse_app argp false l1 l2 g0 g1 Hp). reflexivity.
Qed.

Lemma parse_from_word (g0 g1 : options) (word : string) (k : Z)
  (a : option string) :
  long_option common_options word = Some (k, a) ->
  owner argp k = Some (Some argp_parser) ->
  argp_parser k a g0 = Returned ESUCCESS g1 [] ->
  parse_from g0 [word] = Some g1.
Proof.
  intros Hw Ho Hp. unfold parse_from. cbn [line_of]. rewrite Hw.
  cbn [argp_parse]. rewrite Ho, Hp. reflexivity.
Qed.

Lemma long_option_clk_tck (v : string) :
  long_option common_options ("--clk-tck=" ++ v) = Some (code "h", Some v).
Proof. reflexivity. Qed.

Lemma long_option_stat_mode (v : string) :
  long_option common_options ("--stat-mode=" ++ v) = Some (code "s", Some v).
Proof. reflexivity. Qed.

Lemma long_option_fake_self (v : string) :
  long_option common_options ("--fake-self=" ++ v) = Some (code "S", Some v).
Proof. reflexivity. Qed.

Lemma long_option_anonymous_owner (v : string) :
  long_option common_options ("--anonymous-owner=" ++ v)
  = Some (code "a", Some v).
Proof. reflexivity. Qed.

Lemma long_option_kernel_process (v : string) :
  long_option common_options ("--kernel-process=" ++ v)
  = Some (code "k", Some v).
Proof. reflexivity. Qed.

Lemma owner_policy_keys :
  owner argp (code "h") = Some (Some argp_parser)
  /\ owner argp (code "s") = Some (Some argp_parser)
  /\ owner argp (code "S") = Some (Some argp_parser)
  /\ owner argp (code "a") = Some (Some argp_parser)
  /\ owner argp (code "k") = Some (Some argp_parser).
Proof. repeat split. Qed.

Lemma parses_fmt_d (x : Z) : is_int x -> parses_as (fmt_d x) 0 x.
Proof.
  intros H. destruct (strtol_fmt_d x H) as [Hs Hne]. split; assumption.
Qed.

Lemma parses_fmt_o (x : Z) : 0 <= x <= LONG_MAX -> parses_as (fmt_o x) 8 x.
Proof.
  intros H. destruct (strtol_fmt_o x H) as [Hs Hne]. split; assumption.
Qed.

(** Each knob string, or its absence, sets its knob when parsed. *)
Lemma knob_clk_tck (s : options) (x : Z) :
  is_int x -> x = OPT_CLK_TCK \/ 0 < x -> opt_clk_tck s = OPT_CLK_TCK ->
  parse_from s (emit (negb (x =? OPT_CLK_TCK)) ("--clk-tck=" ++ fmt_d x))
  = Some (set_clk_tck s x).
Proof.
  intros Hx Hpos Hs. destruct (x =? OPT_CLK_TCK) eqn:E; cbn [negb emit].
  - apply Z.eqb_eq in E. destruct s; cbn in *. subst. reflexivity.
  - apply Z.eqb_neq in E.
    apply (parse_from_word s _ _ _ _ (long_option_clk_tck (fmt_d x))
             (proj1 owner_policy_keys)).
    apply parse_clk_tck_accept; [apply parses_fmt_d; exact Hx|].
    destruct Hpos as [Hd | Hp]; [contradiction | exact Hp].
Qed.

Lemma knob_stat_mode (s : options) (x : Z) :
  0 <= x <= octal "07777" -> opt_stat_mode s = OPT_STAT_MODE ->
  parse_from s (emit (negb (x =? OPT_STAT_MODE)) ("--stat-mode=" ++ fmt_o x))
  = Some (set_stat_mode s x).
Proof.
  intros Hx Hs. destruct (x =? OPT_STAT_MODE) eqn:E; cbn [negb emit].
  - apply Z.eqb_eq in E. destruct s; cbn in *. subst. reflexivity.
  - apply (parse_from_word s _ _ _ _ (long_option_stat_mode (fmt_o x))
             (proj1 (proj2 owner_policy_keys))).
    apply parse_stat_mode_accept; [|exact Hx].
    apply parses_fmt_o. change (octal "07777") with 4095 in Hx.
    rewrite (proj2 long_bounds). lia.
Qed.

Lemma knob_fake_self (s : options) (x : Z) :
  is_int x -> opt_fake_self s = OPT_FAKE_SELF ->
  parse_from s (emit (negb (x =? OPT_FAKE_SELF)) ("--fake-self=" ++ fmt_d x))
  = Some (set_fake_self s x).
Proof.
  intros Hx Hs. destruct (x =? OPT_FAKE_SELF) eqn:E; cbn [negb emit].
  - apply Z.eqb_eq in E. destruct s; cbn in *. subst. reflexivity.
  - apply (parse_from_word s _ _ _ _ (long_option_fake_self (fmt_d x))
             (proj1 (proj2 (proj2 owner_policy_keys)))).
    apply parse_fake_self_accept. apply parses_fmt_d. exact Hx.
Qed.

Lemma knob_anon_owner (s : options) (x : Z) :
  0 <= x ->
  x = OPT_ANON_OWNER \/ (x <= INT_MAX /\ getpwnam (fmt_d x) = None) ->
  opt_anon_owner s = OPT_ANON_OWNER ->
  parse_from s (emit (negb (x =? OPT_ANON_OWNER))
                  ("--anonymous-owner=" ++ fmt_d (to_int x)))
  = Some (set_anon_owner s x).
Proof.
  intros Hx Hcond Hs. destruct (x =? OPT_ANON_OWNER) eqn:E; cbn [negb emit].
  - apply Z.eqb_eq in E. destruct s; cbn in *. subst. reflexivity.
  - apply Z.eqb_neq in E. destruct Hcond as [Hd | [Hmax Hpw]]; [contradiction|].
    assert (Hint : is_int x).
    { unfold is_int. rewrite (proj1 int_bounds).
      rewrite (proj2 int_bounds) in *. lia. }
    rewrite (to_int_id x Hint).
    apply (parse_from_word s _ _ _ _ (long_option_anonymous_owner (fmt_d x))
             (proj1 (proj2 (proj2 (proj2 owner_policy_keys))))).
    apply parse_anon_owner_number;
      [exact Hpw | apply parses_fmt_d; exact Hint | exact Hx].
Qed.

Lemma knob_kernel_pid (s : options) (x : Z) :
  is_int x -> opt_kernel_pid s = OPT_KERNEL_PID ->
  parse_from s (emit (negb (x =? OPT_KERNEL_PID))
                  ("--kernel-process=" ++ fmt_d x))
  = Some (set_kernel_pid s x).
Proof.
  intros Hx Hs. destruct (x =? OPT_KERNEL_PID) eqn:E; cbn [negb emit].
  - apply Z.eqb_eq in E. destruct s; cbn in *. subst. reflexivity.
  - apply (parse_from_word s _ _ _ _ (long_option_kernel_process (fmt_d x))
             (proj2 (proj2 (proj2 (proj2 owner_policy_keys))))).
    apply parse_kernel_pid_accept; [apply parses_fmt_d; exact Hx|].
    rewrite Hs. discriminate.
Qed.

(** The options that print to strings [argp_parser] reads back. *)
Lemma reparse_knob_args (g : options) :
  options_wf g ->
  opt_clk_tck g = OPT_CLK_TCK \/ 0 < opt_clk_tck g ->
  opt_stat_mode g <= octal "07777" ->
  opt_anon_owner g = OPT_ANON_OWNER
  \/ (opt_anon_owner g <= INT_MAX
      /\ getpwnam (fmt_d (opt_anon_owner g)) = None) ->
  reparse (knob_args g) = Some g.
Proof.
  intros (W1 & W2 & W3 & W4 & W5) Hclk Hmode Hanon.
  unfold reparse. rewrite knob_args_emit.
  pose (s1 := set_clk_tck startup_options (opt_clk_tck g)).
  pose (s2 := set_stat_mode s1 (opt_stat_mode g)).
  pose (s3 := set_fake_self s2 (opt_fake_self g)).
  pose (s4 := set_anon_owner s3 (opt_anon_owner g)).
  rewrite (parse_from_app startup_options s1 _ _
             (knob_clk_tck startup_options (opt_clk_tck g) W1 Hclk eq_refl)).
  rewrite (parse_from_app s1 s2 _ _
             (knob_stat_mode s1 (opt_stat_mode g)
                (conj (proj1 W2) Hmode) eq_refl)).
  rewrite (parse_from_app s2 s3 _ _
             (knob_fake_self s2 (opt_fake_self g) W3 eq_refl)).
  rewrite (parse_from_app s3 s4 _ _
             (knob_anon_owner s3 (opt_anon_owner g) (proj1 W5) Hanon eq_refl)).
  rewrite (knob_kernel_pid s4 (opt_kernel_pid g) W4 eq_refl).
  destruct g; reflexivity.
Qed.

(** ** Further properties of the option parser *)

(** A mode that the mask of [-s] lets through lies within [07777]. *)
Lemma mode_mask_set (u : Z) :
  0 <= u < 4294967296 ->
  Z.land u (to_unsigned (Z.lnot (octal "07777"))) = 0 -> u <= 4095.
Proof.
  intros Hu Hland.
  change (to_unsigned (Z.lnot (octal "07777"))) with (Z.shiftl (Z.ones 20) 12)
    in Hland.
  destruct (Z_le_gt_dec u 4095) as [Hle | Hgt]; [exact Hle | exfalso].
  assert (Hlo : 12 <= Z.log2 u)
    by (apply Z.log2_le_pow2; [lia | change (2 ^ 12) with 4096; lia]).
  assert (Hhi : Z.log2 u < 32)
    by (apply Z.log2_lt_pow2; [lia | change (2 ^ 32) with 4294967296; lia]).
  assert (Hbit : Z.testbit (Z.land u (Z.shiftl (Z.ones 20) 12)) (Z.log2 u)
                 = true).
  { rewrite Z.land_spec, Z.bit_log2 by lia.
    rewrite Z.shiftl_spec by lia. rewrite Z.ones_spec_low by lia. reflexivity. }
  rewrite Hland, Z.bits_0 in Hbit. discriminate Hbit.
Qed.

Lemma to_mode_t_small (v : Z) :
  is_int v -> to_mode_t v <= 4095 -> 0 <= v <= 4095.
Proof.
  unfold is_int. rewrite (proj1 int_bounds), (proj2 int_bounds).
  unfold to_mode_t, to_unsigned, wrap_unsigned, INT_BITS.
  change (2 ^ 32) with 4294967296. intros Hv Hm.
  destruct (Z_lt_ge_dec v 0) as [Hneg | Hpos].
  - rewrite <- (Z.mod_add v 1 4294967296) in Hm by lia.
    rewrite Z.mod_small in Hm by lia. lia.
  - rewrite Z.mod_small in Hm by lia. lia.
Qed.

Lemma parse_stat_mode_reject (a : string) (g : options) :
  ~ (exists v, parses_as a 8 v /\ 0 <= v <= octal "07777") ->
  argp_parser (code "s") (Some a) g
  = Returned ESUCCESS g ["--stat-mode: MODE should be an octal mode"].
Proof.
  intros Hno.
  change (argp_parser (code "s") (Some a) g) with
    (let '(v, endp) := strtol a 8 in
     if deref endp || negb (deref a)
        || negb (Z.land (to_mode_t v)
                   (to_unsigned (Z.lnot (octal "07777"))) =? 0)
     then Returned ESUCCESS g ["--stat-mode: MODE should be an octal mode"]
     else Returned ESUCCESS (set_stat_mode g (to_mode_t v)) []).
  destruct (strtol a 8) as [v endp] eqn:Hs.
  match goal with |- context [if ?c then _ else _] => destruct c eqn:E end;
    [reflexivity|].
  exfalso. apply Hno. exists v.
  apply orb_false_iff in E. destruct E as [E Em].
  apply orb_false_iff in E. destruct E as [Ee Ea].
  apply deref_false in Ee. subst endp.
  apply negb_false_iff, deref_true in Ea.
  apply negb_false_iff, Z.eqb_eq in Em.
  split; [split; assumption|].
  change (octal "07777") with 4095.
  apply to_mode_t_small.
  - pose proof (strtol_range a 8) as R. rewrite Hs in R. exact R.
  - apply mode_mask_set; [|exact Em].
    pose proof (to_unsigned_range v) as R. unfold is_unsigned in R.
    rewrite uint_bound in R. unfold to_mode_t. lia.
Qed.

(** X1.  For every argument of [--stat-mode]: either the whole string
    parses in base 8 as a mode [v] within [0 .. 07777], and then the parser
    accepts it and the stat mode becomes [v]; or it does not, and then the
    parser raises its argp error and leaves the options as they were.
    Negative numbers and modes with a bit above [07777] are refused. *)
Theorem stat_mode_accepted_iff_octal_mode (a : string) (g : options) :
  (exists v, parses_as a 8 v /\ 0 <= v <= octal "07777"
     /\ argp_parser (code "s") (Some a) g
        = Returned ESUCCESS (set_stat_mode g v) []
     /\ opt_stat_mode (set_stat_mode g v) = v)
  \/ (~ (exists v, parses_as a 8 v /\ 0 <= v <= octal "07777")
      /\ argp_parser (code "s") (Some a) g
         = Returned ESUCCESS g ["--stat-mode: MODE should be an octal mode"]).
Proof.
  destruct (parses_as_cases a 8) as [[v Hv] | Hno].
  - destruct (Z_le_dec 0 v) as [Hlo | Hlo];
      [destruct (Z_le_dec v (octal "07777")) as [Hhi | Hhi]|].
    + left. exists v. repeat split; try assumption; try apply Hv.
      apply parse_stat_mode_accept; [exact Hv | split; assumption].
    + right. assert (Hnone : ~ (exists v', parses_as a 8 v'
                                  /\ 0 <= v' <= octal "07777")).
      { intros (v' & Hv' & _ & Hhi').
        rewrite <- (parses_as_unique _ _ _ _ Hv Hv') in Hhi'. contradiction. }
      split; [exact Hnone | apply parse_stat_mode_reject; exact Hnone].
    + right. assert (Hnone : ~ (exists v', parses_as a 8 v'
                                  /\ 0 <= v' <= octal "07777")).
      { intros (v' & Hv' & Hlo' & _).
        rewrite <- (parses_as_unique _ _ _ _ Hv Hv') in Hlo'. contradiction. }
      split; [exact Hnone | apply parse_stat_mode_reject; exact Hnone].
  - right. assert (Hnone : ~ (exists v', parses_as a 8 v'
                                /\ 0 <= v' <= octal "07777")).
    { intros (v' & Hv' & _). exact (Hno v' Hv'). }
    split; [exact Hnone | apply parse_stat_mode_reject; exact Hnone].
Qed.

(** The cases of the [switch], key by key. *)
Lemma argp_parser_h (a : option string) (g : options) :
  argp_parser (code "h") a g
  = match a with
    | None => Fault
    | Some a =>
        let '(v, endp) := strtol a 0 in
        if deref endp || negb (deref a) || (v <=? 0)
        then Returned ESUCCESS g ["--clk-tck: HZ should be a positive integer"]
        else Returned ESUCCESS (set_clk_tck g (to_int v)) []
    end.
Proof. reflexivity. Qed.

Lemma argp_parser_s (a : option string) (g : options) :
  argp_parser (code "s") a g
  = match a with
    | None => Fault
    | Some a =>
        let '(v, endp) := strtol a 8 in
        if deref endp || negb (deref a)
           || negb (Z.land (to_mode_t v)
                      (to_unsigned (Z.lnot (octal "07777"))) =? 0)
        then Returned ESUCCESS g ["--stat-mode: MODE should be an octal mode"]
        else Returned ESUCCESS (set_stat_mode g (to_mode_t v)) []
    end.
Proof. reflexivity. Qed.

Lemma argp_parser_S (a : option string) (g : options) :
  argp_parser (code "S") a g
  = match a with
    | Some a =>
        let '(v, endp) := strtol a 0 in
        if deref endp || negb (deref a)
        then Returned ESUCCESS g ["--fake-self: PID must be an integer"]
        else Returned ESUCCESS (set_fake_self g (to_pid_t v)) []
    | None => Returned ESUCCESS (set_fake_self g 1) []
    end.
Proof. reflexivity. Qed.

Lemma argp_parser_k (a : option string) (g : options) :
  argp_parser (code "k") a g
  = match a with
    | None => Fault
    | Some a =>
        let '(v, endp) := strtol a 0 in
        if deref endp || negb (deref a) || (to_int (opt_kernel_pid g) <? 0)
        then Returned ESUCCESS g
               ["--kernel-process: PID must be a positive integer"]
        else Returned ESUCCESS (set_kernel_pid g (to_pid_t v)) []
    end.
Proof. reflexivity. Qed.

Lemma argp_parser_c (a : option string) (g : options) :
  argp_parser (code "c") a g
  = Returned ESUCCESS
      (set_fake_self (set_stat_mode (set_clk_tck g 100) (octal "0444")) 1) [].
Proof. reflexivity. Qed.

Lemma argp_parser_a (a : option string) (g : options) :
  argp_parser (code "a") a g
  = match a with
    | None => Fault
    | Some a =>
        match getpwnam a with
        | Some pw => Returned ESUCCESS (set_anon_owner g (pw_uid pw)) []
        | None =>
            let '(v, endp) := strtol a 0 in
            if deref endp || negb (deref a) || (v <? 0)
            then Returned ESUCCESS g
                   ["--anonymous-owner: USER should be a user name or a numeric UID."]
            else Returned ESUCCESS (set_anon_owner g (to_uid_t v)) []
        end
    end.
Proof. reflexivity. Qed.

Lemma argp_parser_other (k : Z) (a : option string) (g : options) :
  ~ In k policy_keys -> argp_parser k a g = Returned ARGP_ERR_UNKNOWN g [].
Proof.
  intros Hk. unfold argp_parser.
  destruct (k =? code "h") eqn:E1;
    [apply Z.eqb_eq in E1; exfalso; apply Hk, policy_keys_in; auto 10|].
  destruct (k =? code "s") eqn:E2;
    [apply Z.eqb_eq in E2; exfalso; apply Hk, policy_keys_in; auto 10|].
  destruct (k =? code "S") eqn:E3;
    [apply Z.eqb_eq in E3; exfalso; apply Hk, policy_keys_in; auto 10|].
  destruct (k =? code "k") eqn:E4;
    [apply Z.eqb_eq in E4; exfalso; apply Hk, policy_keys_in; auto 10|].
  destruct (k =? code "c") eqn:E5;
    [apply Z.eqb_eq in E5; exfalso; apply Hk, policy_keys_in; auto 10|].
  destruct (k =? code "a") eqn:E6;
    [apply Z.eqb_eq in E6; exfalso; apply Hk, policy_keys_in; auto 10|].
  destruct (k =? NODEV_KEY); [reflexivity|].
  destruct (k =? NOEXEC_KEY); [reflexivity|].
  destruct (k =? NOSUID_KEY); reflexivity.
Qed.

Lemma policy_keys_cases (k : Z) :
  In k policy_keys ->
  k = code "h" \/ k = code "s" \/ k = code "S" \/ k = code "k"
  \/ k = code "c" \/ k = code "a".
Proof.
  unfold policy_keys. cbn [In].
  intros [H | [H | [H | [H | [H | [H | []]]]]]]; symmetry in H; auto 10.
Qed.

Lemma policy_keys_dec (k : Z) : In k policy_keys \/ ~ In k policy_keys.
Proof.
  destruct (in_dec Z.eq_dec k policy_keys) as [H | H]; [left | right]; exact H.
Qed.

Ltac settle_returned :=
  let E := fresh "E" in
  intros E; injection E as <- <- <-; cbn; repeat split; intros; auto;
  try discriminate; try contradiction.

(** X3.  What a call of [argp_parser] that returns can have done: the
    code it returns is 0 or [ARGP_ERR_UNKNOWN]; it gives [argp_error] at
    most one message; whenever it gives a message, and whenever it returns
    [ARGP_ERR_UNKNOWN], it leaves every option as it was; and a message
    comes with the return code 0. *)
Theorem argp_error_leaves_options (k : Z) (a : option string)
  (g g' : options) (err : error_t) (msgs : list string) :
  argp_parser k a g = Returned err g' msgs ->
  (err = ESUCCESS \/ err = ARGP_ERR_UNKNOWN)
  /\ (List.length msgs <= 1)%nat
  /\ (msgs <> [] -> g' = g /\ err = ESUCCESS)
  /\ (err = ARGP_ERR_UNKNOWN -> g' = g /\ msgs = []).
Proof.
  destruct (policy_keys_dec k) as [Hin | Hout].
  - destruct (policy_keys_cases k Hin) as [-> | [-> | [-> | [-> | [-> | ->]]]]].
    + rewrite argp_parser_h. destruct a as [a|]; [|discriminate].
      destruct (strtol a 0) as [v endp].
      destruct (deref endp || negb (deref a) || (v <=? 0));
        settle_returned.
    + rewrite argp_parser_s. destruct a as [a|]; [|discriminate].
      destruct (strtol a 8) as [v endp].
      match goal with |- context [if ?c then _ else _] => destruct c end;
        settle_returned.
    + rewrite argp_parser_S. destruct a as [a|].
      * destruct (strtol a 0) as [v endp].
        destruct (deref endp || negb (deref a));
          settle_returned.
      * settle_returned.
    + rewrite argp_parser_k. destruct a as [a|]; [|discriminate].
      destruct (strtol a 0) as [v endp].
      match goal with |- context [if ?c then _ else _] => destruct c end;
        settle_returned.
    + rewrite argp_parser_c.
      settle_returned.
    + rewrite argp_parser_a. destruct a as [a|]; [|discriminate].
      destruct (getpwnam a) as [pw|];
        [|destruct (strtol a 0) as [v endp];
          match goal with |- context [if ?c then _ else _] => destruct c end];
        settle_returned.
  - rewrite (argp_parser_other k a g Hout).
    settle_returned.
Qed.

(** X4.  The option table and the parser agree on all options but
    three: the table declares nine keys, no key twice; the parser knows
    exactly the six keys of [-h], [-s], [-S], [-k], [-c], [-a], and for
    every other key, declared or not, it returns [ARGP_ERR_UNKNOWN]
    without touching anything; so the declared options that the parser
    does not know are exactly [nodev], [noexec] and [nosuid]. *)
Theorem table_and_parser_agree :
  map key common_options
  = (policy_keys ++ [NODEV_KEY; NOEXEC_KEY; NOSUID_KEY])%list
  /\ NoDup (map key common_options)
  /\ (forall k a g,
        In k policy_keys ->
        returned_code (argp_parser k a g) <> Some ARGP_ERR_UNKNOWN)
  /\ (forall k a g,
        ~ In k policy_keys ->
        argp_parser k a g = Returned ARGP_ERR_UNKNOWN g [])
  /\ (forall o,
        In o common_options ->
        (In (key o) policy_keys
         <-> ~ In (name o) ["nodev"; "noexec"; "nosuid"])).
Proof.
  split; [reflexivity|]. split; [|split; [|split]].
  - change (map key common_options)
      with (nodup Z.eq_dec (map key common_options)).
    apply NoDup_nodup.
  - intros k a g Hin.
    destruct (policy_keys_cases k Hin) as [-> | [-> | [-> | [-> | [-> | ->]]]]].
    + rewrite argp_parser_h. destruct a as [a|]; [|discriminate].
      destruct (strtol a 0) as [v endp].
      destruct (deref endp || negb (deref a) || (v <=? 0)); discriminate.
    + rewrite argp_parser_s. destruct a as [a|]; [|discriminate].
      destruct (strtol a 8) as [v endp].
      match goal with |- context [if ?c then _ else _] => destruct c end;
        discriminate.
    + rewrite argp_parser_S. destruct a as [a|]; [|discriminate].
      destruct (strtol a 0) as [v endp].
      destruct (deref endp || negb (deref a)); discriminate.
    + rewrite argp_parser_k. destruct a as [a|]; [|discriminate].
      destruct (strtol a 0) as [v endp].
      match goal with |- context [if ?c then _ else _] => destruct c end;
        discriminate.
    + rewrite argp_parser_c. discriminate.
    + rewrite argp_parser_a. destruct a as [a|]; [|discriminate].
      destruct (getpwnam a) as [pw|]; [discriminate|].
      destruct (strtol a 0) as [v endp].
      match goal with |- context [if ?c then _ else _] => destruct c end;
        discriminate.
  - intros k a g Hout. apply argp_parser_other. exact Hout.
  - intros o Ho. unfold common_options in Ho. cbn [In] in Ho.
    destruct Ho as [<- | [<- | [<- | [<- | [<- | [<- | [<- | [<- | [<- | []]]]]]]]]];
      cbn [key name]; split; intros H.
    all: try (intros [E | [E | [E | []]]]; discriminate E).
    all: try (unfold policy_keys; cbn [In]; auto 10).
    all: try (exfalso; apply H; cbn [In]; auto).
    all: try (exfalso; unfold policy_keys in H; cbn [In] in H;
              destruct H as [E | [E | [E | [E | [E | [E | []]]]]]];
              discriminate E).
Qed.

Lemma mandatory_argument_declared (k : Z) :
  k = code "h" \/ k = code "s" \/ k = code "k" \/ k = code "a" ->
  exists o, In o common_options /\ key o = k /\ arg o <> None
            /\ Z.testbit (flags o) 0 = false.
Proof.
  intros [-> | [-> | [-> | ->]]]; eexists; (split; [unfold common_options|]).
  - left; reflexivity.
  - repeat split; discriminate.
  - right; left; reflexivity.
  - repeat split; discriminate.
  - do 3 right; left; reflexivity.
  - repeat split; discriminate.
  - do 5 right; left; reflexivity.
  - repeat split; discriminate.
Qed.

Lemma argp_parser_fault (k : Z) (a : option string) (g : options) :
  argp_parser k a g = Fault ->
  a = None
  /\ (k = code "h" \/ k = code "s" \/ k = code "k" \/ k = code "a").
Proof.
  destruct (policy_keys_dec k) as [Hin | Hout].
  - destruct (policy_keys_cases k Hin) as [-> | [-> | [-> | [-> | [-> | ->]]]]].
    + rewrite argp_parser_h. destruct a as [a|]; [|auto].
      destruct (strtol a 0) as [v endp].
      destruct (deref endp || negb (deref a) || (v <=? 0)); discriminate.
    + rewrite argp_parser_s. destruct a as [a|]; [|auto].
      destruct (strtol a 8) as [v endp].
      match goal with |- context [if ?c then _ else _] => destruct c end;
        discriminate.
    + rewrite argp_parser_S. destruct a as [a|]; [|discriminate].
      destruct (strtol a 0) as [v endp].
      destruct (deref endp || negb (deref a)); discriminate.
    + rewrite argp_parser_k. destruct a as [a|]; [|auto].
      destruct (strtol a 0) as [v endp].
      match goal with |- context [if ?c then _ else _] => destruct c end;
        discriminate.
    + rewrite argp_parser_c. discriminate.
    + rewrite argp_parser_a. destruct a as [a|]; [|auto 10].
      destruct (getpwnam a) as [pw|]; [discriminate|].
      destruct (strtol a 0) as [v endp].
      match goal with |- context [if ?c then _ else _] => destruct c end;
        discriminate.
  - rewrite (argp_parser_other k a g Hout). discriminate.
Qed.

Lemma argp_parser_safe (k : Z) (a : option string) (g : options) :
  respects_table (k, a) -> argp_parser k a g <> Fault.
Proof.
  intros Ht Hf. destruct (argp_parser_fault k a g Hf) as [-> Hk].
  destruct (mandatory_argument_declared k Hk) as (o & Ho & Hkey & Harg & Hfl).
  destruct (Ht o Ho Hkey) as [_ Hm]. exact (Hm Harg Hfl eq_refl).
Qed.

(** X5.  The parser reads [arg] without a null check under [-h], [-s],
    [-k] and [-a] only, and the table declares each of these four with a
    mandatory argument: it faults exactly on a null [arg] under one of
    these keys, hence never on a call that honours the table. *)
Theorem parser_faults_only_against_the_table (k : Z) (a : option string)
  (g : options) :
  (argp_parser k a g = Fault
   <-> a = None
       /\ (k = code "h" \/ k = code "s" \/ k = code "k" \/ k = code "a"))
  /\ (respects_table (k, a) -> argp_parser k a g <> Fault).
Proof.
  split; [split|].
  - apply argp_parser_fault.
  - intros [-> [-> | [-> | [-> | ->]]]]; reflexivity.
  - apply argp_parser_safe.
Qed.

Lemma parse_kernel_pid_reject (a : string) (g : options) :
  to_int (opt_kernel_pid g) < 0 \/ ~ (exists v, parses_as a 0 v) ->
  argp_parser (code "k") (Some a) g
  = Returned ESUCCESS g ["--kernel-process: PID must be a positive integer"].
Proof.
  intros Hno. rewrite argp_parser_k.
  destruct (strtol a 0) as [v endp] eqn:Hs.
  match goal with |- context [if ?c then _ else _] => destruct c eqn:E end;
    [reflexivity|].
  exfalso.
  apply orb_false_iff in E. destruct E as [E Ek].
  apply orb_false_iff in E. destruct E as [Ee Ea].
  apply deref_false in Ee. subst endp.
  apply negb_false_iff, deref_true in Ea.
  apply Z.ltb_ge in Ek.
  destruct Hno as [Hneg | Hno]; [lia|].
  apply Hno. exists v. split; assumption.
Qed.

(** X9.  For every argument of [--kernel-process]: when the process id
    held so far is not negative and the whole string denotes an integer,
    the parser accepts it and stores the integer, of any sign, saturated
    to the range of [long]; when the process id held so far is negative
    or the string denotes no integer, it raises its argp error and changes
    nothing. *)
Theorem kernel_process_accepted_iff_stored_pid_nonnegative (a : string)
  (g : options) :
  (forall n, 0 <= to_int (opt_kernel_pid g) -> integer_text a n ->
     argp_parser (code "k") (Some a) g
     = Returned ESUCCESS (set_kernel_pid g (saturated n)) []
     /\ opt_kernel_pid (set_kernel_pid g (saturated n)) = saturated n
     /\ (LONG_MIN <= n <= LONG_MAX -> saturated n = n))
  /\ (to_int (opt_kernel_pid g) < 0 \/ ~ (exists n, integer_text a n) ->
      argp_parser (code "k") (Some a) g
      = Returned ESUCCESS g
          ["--kernel-process: PID must be a positive integer"]).
Proof.
  split.
  - intros n Hk Hn.
    split; [apply parse_kernel_pid_accept;
              [apply integer_text_parses; exact Hn | exact Hk]|].
    split; [reflexivity | apply saturated_id].
  - intros Hno. apply parse_kernel_pid_reject.
    destruct Hno as [Hneg | Hno]; [left; exact Hneg | right].
    intros [v Hv]. apply Hno.
    destruct (parses_as_integer_text a v Hv) as (n & Hn & _).
    exists n. exact Hn.
Qed.

(** ** How options compose *)

(** Under [-h], [-s], [-S] and [-a], what the parser does with an
    argument does not depend on the options it holds. *)
Lemma knob_form (k : Z) (a : option string) :
  k = code "h" \/ k = code "s" \/ k = code "S" \/ k = code "a" ->
  (exists v, forall g,
      argp_parser k a g = Returned ESUCCESS (set_knob k g v) [])
  \/ (exists msg, forall g, argp_parser k a g = Returned ESUCCESS g [msg])
  \/ (forall g, argp_parser k a g = Fault).
Proof.
  intros [-> | [-> | [-> | ->]]].
  - destruct a as [a|]; [|right; right; intros g; apply argp_parser_h].
    destruct (strtol a 0) as [v endp] eqn:Hs.
    destruct (deref endp || negb (deref a) || (v <=? 0)) eqn:E.
    + right; left. eexists. intros g. rewrite argp_parser_h, Hs, E. reflexivity.
    + left. eexists. intros g. rewrite argp_parser_h, Hs, E. reflexivity.
  - destruct a as [a|]; [|right; right; intros g; apply argp_parser_s].
    destruct (strtol a 8) as [v endp] eqn:Hs.
    destruct (deref endp || negb (deref a)
              || negb (Z.land (to_mode_t v)
                         (to_unsigned (Z.lnot (octal "07777"))) =? 0)) eqn:E.
    + right; left. eexists. intros g. rewrite argp_parser_s, Hs, E. reflexivity.
    + left. eexists. intros g. rewrite argp_parser_s, Hs, E. reflexivity.
  - destruct a as [a|];
      [|left; exists 1; intros g; apply argp_parser_S].
    destruct (strtol a 0) as [v endp] eqn:Hs.
    destruct (deref endp || negb (deref a)) eqn:E.
    + right; left. eexists. intros g. rewrite argp_parser_S, Hs, E. reflexivity.
    + left. eexists. intros g. rewrite argp_parser_S, Hs, E. reflexivity.
  - destruct a as [a|]; [|right; right; intros g; apply argp_parser_a].
    destruct (getpwnam a) as [pw|] eqn:Hpw.
    + left. eexists. intros g. rewrite argp_parser_a, Hpw. reflexivity.
    + destruct (strtol a 0) as [v endp] eqn:Hs.
      destruct (deref endp || negb (deref a) || (v <? 0)) eqn:E.
      * right; left. eexists. intros g.
        rewrite argp_parser_a, Hpw, Hs, E. reflexivity.
      * left. eexists. intros g.
        rewrite argp_parser_a, Hpw, Hs, E. reflexivity.
Qed.

(** X11.  Under [-h], [-s], [-S] and [-a], what the parser does with an
    argument depends on the argument alone, not on the options it holds:
    for every argument, either it stores one same value in the knob of
    the key from every state, or it raises one same argp error in every
    state and changes nothing, or (null argument) it faults. *)
Theorem acceptance_is_independent_of_the_state (k : Z) (a : option string) :
  k = code "h" \/ k = code "s" \/ k = code "S" \/ k = code "a" ->
  (exists v, forall g,
      argp_parser k a g = Returned ESUCCESS (set_knob k g v) [])
  \/ (exists msg, forall g, argp_parser k a g = Returned ESUCCESS g [msg])
  \/ (forall g, argp_parser k a g = Fault).
Proof. apply knob_form. Qed.

(** The same for [-k] among the states that agree on the sign of the
    kernel process id. *)
Lemma kernel_process_form (a : option string) :
  (exists v, forall g,
      argp_parser (code "k") a g
      = if to_int (opt_kernel_pid g) <? 0
        then Returned ESUCCESS g
               ["--kernel-process: PID must be a positive integer"]
        else Returned ESUCCESS (set_kernel_pid g v) [])
  \/ (exists msg, forall g,
         argp_parser (code "k") a g = Returned ESUCCESS g [msg])
  \/ (forall g, argp_parser (code "k") a g = Fault).
Proof.
  destruct a as [a|]; [|right; right; intros g; apply argp_parser_k].
  destruct (strtol a 0) as [v endp] eqn:Hs.
  destruct (deref endp || negb (deref a)) eqn:E.
  - right; left. eexists. intros g. rewrite argp_parser_k, Hs, E. reflexivity.
  - left. exists (to_pid_t v). intros g. rewrite argp_parser_k, Hs, E.
    cbn [orb]. reflexivity.
Qed.

(** What a call does to the options, for each of the five knob keys: it
    leaves them, or stores a value that does not depend on them; [-k]
    stores only when the id it holds is not negative. *)
Lemma knob_effect (k : Z) (a : option string) :
  In k knob_keys ->
  exists f : option Z, forall g,
    options_after (argp_parser k a g) g
    = match f with
      | None => g
      | Some v =>
          if (k =? code "k") && (to_int (opt_kernel_pid g) <? 0) then g
          else set_knob k g v
      end.
Proof.
  unfold knob_keys. cbn [In].
  intros [<- | [<- | [<- | [<- | [<- | []]]]]].
  - destruct (knob_form (code "h") a
                ltac:(auto)) as [[v H] | [[m H] | H]];
      [exists (Some v) | exists None | exists None];
      intros g; rewrite H; reflexivity.
  - destruct (knob_form (code "s") a
                ltac:(auto)) as [[v H] | [[m H] | H]];
      [exists (Some v) | exists None | exists None];
      intros g; rewrite H; reflexivity.
  - destruct (knob_form (code "S") a
                ltac:(auto)) as [[v H] | [[m H] | H]];
      [exists (Some v) | exists None | exists None];
      intros g; rewrite H; reflexivity.
  - destruct (kernel_process_form a) as [[v H] | [[m H] | H]];
      [exists (Some v) | exists None | exists None];
      intros g; rewrite H; try reflexivity.
    change (code "k" =? code "k") with true. cbn [andb].
    destruct (to_int (opt_kernel_pid g) <? 0); reflexivity.
  - destruct (knob_form (code "a") a
                ltac:(auto 10)) as [[v H] | [[m H] | H]];
      [exists (Some v) | exists None | exists None];
      intros g; rewrite H; reflexivity.
Qed.

Lemma knob_effects_commute (k1 k2 : Z) (f1 f2 : option Z) (g : options) :
  In k1 knob_keys -> In k2 knob_keys -> k1 <> k2 ->
  let eff := fun (k : Z) (f : option Z) (g : options) =>
    match f with
    | None => g
    | Some v =>
        if (k =? code "k") && (to_int (opt_kernel_pid g) <? 0) then g
        else set_knob k g v
    end in
  eff k2 f2 (eff k1 f1 g) = eff k1 f1 (eff k2 f2 g).
Proof.
  unfold knob_keys. cbn [In].
  intros [<- | [<- | [<- | [<- | [<- | []]]]]]
         [<- | [<- | [<- | [<- | [<- | []]]]]] Hne;
    try (exfalso; apply Hne; reflexivity);
    destruct f1 as [v1|], f2 as [v2|], g as [c m f p o]; cbv zeta;
    try reflexivity;
    unfold set_knob;
    repeat match goal with
      | |- context [code ?x =? code ?y] =>
          let b := eval vm_compute in (code x =? code y) in
          change (code x =? code y) with b
      end;
    cbn [andb set_clk_tck set_stat_mode set_fake_self set_kernel_pid
         set_anon_owner opt_clk_tck opt_stat_mode opt_fake_self
         opt_kernel_pid opt_anon_owner];
    try reflexivity;
    destruct (to_int p <? 0); reflexivity.
Qed.

(** X12.  Two options for different knobs, among [-h], [-s], [-S],
    [-k] and [-a], can be given in either order: the options after both
    calls are the same. *)
Theorem knob_options_commute (k1 k2 : Z) (a1 a2 : option string)
  (g : options) :
  In k1 knob_keys -> In k2 knob_keys -> k1 <> k2 ->
  options_after
    (argp_parser k2 a2 (options_after (argp_parser k1 a1 g) g))
    (options_after (argp_parser k1 a1 g) g)
  = options_after
      (argp_parser k1 a1 (options_after (argp_parser k2 a2 g) g))
      (options_after (argp_parser k2 a2 g) g).
Proof.
  intros H1 H2 Hne.
  destruct (knob_effect k1 a1 H1) as [f1 E1].
  destruct (knob_effect k2 a2 H2) as [f2 E2].
  rewrite (E1 g), (E2 g), E1, E2.
  exact (knob_effects_commute k1 k2 f1 f2 g H1 H2 Hne).
Qed.

(** X13.  Under [-h], [-s], [-S] and [-a] the last accepted argument
    wins: when the parser accepts an argument, the options after that
    call are the same whether or not an earlier call for the same key,
    with any argument, came before. *)
Theorem last_accepted_argument_wins (k : Z) (a1 a2 : option string)
  (g g2 : options) :
  k = code "h" \/ k = code "s" \/ k = code "S" \/ k = code "a" ->
  argp_parser k a2 g = Returned ESUCCESS g2 [] ->
  argp_parser k a2 (options_after (argp_parser k a1 g) g)
  = Returned ESUCCESS g2 [].
Proof.
  intros Hk H2.
  destruct (knob_form k a2 Hk) as [[v2 F2] | [[m F2] | F2]];
    [|rewrite F2 in H2; discriminate H2 | rewrite F2 in H2; discriminate H2].
  rewrite F2 in *. injection H2 as <-.
  destruct (knob_form k a1 Hk) as [[v1 F1] | [[m F1] | F1]]; rewrite F1;
    cbn [options_after]; try reflexivity.
  f_equal.
  destruct Hk as [-> | [-> | [-> | ->]]]; destruct g; reflexivity.
Qed.

Lemma owner_compatible : owner argp (code "c") = Some (Some argp_parser).
Proof. reflexivity. Qed.

Lemma compatible_calls (g : options) :
  argp_parser (code "h") (Some "100") g
  = Returned ESUCCESS (set_clk_tck g 100) []
  /\ argp_parser (code "s") (Some "0444") (set_clk_tck g 100)
     = Returned ESUCCESS (set_stat_mode (set_clk_tck g 100) (octal "0444")) []
  /\ argp_parser (code "S") (Some "1")
       (set_stat_mode (set_clk_tck g 100) (octal "0444"))
     = Returned ESUCCESS
         (set_fake_self (set_stat_mode (set_clk_tck g 100) (octal "0444")) 1)
         [].
Proof.
  split; [|split].
  - apply parse_clk_tck_accept; [split; [discriminate | reflexivity] | lia].
  - apply (parse_stat_mode_accept "0444" 292);
      [split; [discriminate | reflexivity] | split; [lia | discriminate]].
  - apply parse_fake_self_accept. split; [discriminate | reflexivity].
Qed.

(** X2.  [--compatible] does what its documentation says, the same as
    [-h 100 -s 0444 -S 1]: from every state the one call leaves the
    options that the three calls leave one after the other, and a command
    line with [-c] parses as the line with the three options in its
    place. *)
Theorem compatible_is_h100_s0444_S1 :
  (forall (a : option string) (g : options),
     let g1 := options_after (argp_parser (code "h") (Some "100") g) g in
     let g2 := options_after (argp_parser (code "s") (Some "0444") g1) g1 in
     options_after (argp_parser (code "c") a g) g
     = options_after (argp_parser (code "S") (Some "1") g2) g2)
  /\ (forall (no_exit : bool) (a : option string)
        (rest : list (Z * option string)) (g : options),
        argp_parse argp no_exit ((code "c", a) :: rest) g
        = argp_parse argp no_exit
            ((code "h", Some "100") :: (code "s", Some "0444")
             :: (code "S", Some "1") :: rest) g).
Proof.
  split.
  - intros a g. destruct (compatible_calls g) as (H1 & H2 & H3). cbv zeta.
    rewrite H1. cbn [options_after]. rewrite H2. cbn [options_after].
    rewrite H3. rewrite argp_parser_c. reflexivity.
  - intros no_exit a rest g. destruct (compatible_calls g) as (H1 & H2 & H3).
    cbn [argp_parse].
    rewrite owner_compatible, (proj1 owner_policy_keys),
      (proj1 (proj2 owner_policy_keys)),
      (proj1 (proj2 (proj2 owner_policy_keys))).
    rewrite argp_parser_c, H1. cbn [List.length Nat.eqb negb andb is_error].
    rewrite H2. cbn [List.length Nat.eqb negb andb is_error].
    rewrite H3. cbn [List.length Nat.eqb negb andb is_error].
    rewrite andb_false_r. reflexivity.
Qed.

(** ** What every reachable state satisfies *)

Lemma is_int_small (x : Z) : -2147483648 <= x <= 2147483647 -> is_int x.
Proof.
  intros H. unfold is_int. rewrite (proj1 int_bounds), (proj2 int_bounds).
  exact H.
Qed.

Lemma is_unsigned_small (x : Z) : 0 <= x <= 4294967295 -> is_unsigned x.
Proof. intros H. unfold is_unsigned. rewrite uint_bound. exact H. Qed.

Lemma parser_keeps_policy_ok (k : Z) (a : option string) (g : options) :
  passwd_ok -> policy_ok g ->
  policy_ok (options_after (argp_parser k a g) g).
Proof.
  intros Hpw Hok. pose proof Hok as ((W1 & W2 & W3 & W4 & W5) & Hclk & Hmode).
  destruct (policy_keys_dec k) as [Hin | Hout];
    [|rewrite (argp_parser_other k a g Hout); exact Hok].
  destruct (policy_keys_cases k Hin) as [-> | [-> | [-> | [-> | [-> | ->]]]]].
  - rewrite argp_parser_h. destruct a as [a|]; [|exact Hok].
    destruct (strtol a 0) as [v endp] eqn:Hs.
    destruct (deref endp || negb (deref a) || (v <=? 0)) eqn:E; [exact Hok|].
    apply orb_false_iff in E. destruct E as [_ Ev]. apply Z.leb_gt in Ev.
    rewrite (strtol_to_int a 0 v endp Hs).
    assert (Hv : is_int v)
      by (pose proof (strtol_range a 0) as R; rewrite Hs in R; exact R).
    cbn [options_after]. unfold policy_ok, options_wf.
    cbn [set_clk_tck opt_clk_tck opt_stat_mode opt_fake_self opt_kernel_pid
         opt_anon_owner].
    repeat split; try assumption; try apply Hv; try apply W2; try apply W3;
      try apply W4; try apply W5.
  - rewrite argp_parser_s. destruct a as [a|]; [|exact Hok].
    destruct (strtol a 8) as [v endp] eqn:Hs.
    match goal with |- context [if ?c then _ else _] => destruct c eqn:E end;
      [exact Hok|].
    apply orb_false_iff in E. destruct E as [_ Em].
    apply negb_false_iff, Z.eqb_eq in Em.
    pose proof (to_unsigned_range v) as Hu.
    assert (Hsmall : to_mode_t v <= 4095).
    { apply mode_mask_set; [|exact Em].
      unfold is_unsigned in Hu. rewrite uint_bound in Hu.
      unfold to_mode_t. lia. }
    cbn [options_after]. unfold policy_ok, options_wf.
    cbn [set_stat_mode opt_clk_tck opt_stat_mode opt_fake_self opt_kernel_pid
         opt_anon_owner].
    repeat split; try assumption; try apply Hu; try apply W1; try apply W3;
      try apply W4; try apply W5.
  - rewrite argp_parser_S.
    assert (Hset : forall v, is_int v -> policy_ok (set_fake_self g v)).
    { intros v Hv. unfold policy_ok, options_wf.
      cbn [set_fake_self opt_clk_tck opt_stat_mode opt_fake_self
           opt_kernel_pid opt_anon_owner].
      repeat split; try assumption; try apply Hv; try apply W1; try apply W2;
        try apply W4; try apply W5. }
    destruct a as [a|].
    + destruct (strtol a 0) as [v endp] eqn:Hs.
      destruct (deref endp || negb (deref a)); [exact Hok|].
      apply Hset. apply to_int_range.
    + apply Hset. apply is_int_small. lia.
  - rewrite argp_parser_k. destruct a as [a|]; [|exact Hok].
    destruct (strtol a 0) as [v endp] eqn:Hs.
    match goal with |- context [if ?c then _ else _] => destruct c end;
      [exact Hok|].
    pose proof (to_int_range v) as Hv.
    cbn [options_after]. unfold policy_ok, options_wf.
    cbn [set_kernel_pid opt_clk_tck opt_stat_mode opt_fake_self
         opt_kernel_pid opt_anon_owner].
    repeat split; try assumption; try apply Hv; try apply W1; try apply W2;
      try apply W3; try apply W5.
  - rewrite argp_parser_c. cbn [options_after]. unfold policy_ok, options_wf.
    cbn [set_clk_tck set_stat_mode set_fake_self opt_clk_tck opt_stat_mode
         opt_fake_self opt_kernel_pid opt_anon_owner].
    change (octal "0444") with 292. change (octal "07777") with 4095.
    split; [|lia].
    split; [apply is_int_small; lia|].
    split; [apply is_unsigned_small; lia|].
    split; [apply is_int_small; lia|].
    split; assumption.
  - rewrite argp_parser_a. destruct a as [a|]; [|exact Hok].
    assert (Hset : forall v, is_unsigned v -> policy_ok (set_anon_owner g v)).
    { intros v Hv. unfold policy_ok, options_wf.
      cbn [set_anon_owner opt_clk_tck opt_stat_mode opt_fake_self
           opt_kernel_pid opt_anon_owner].
      repeat split; try assumption; try apply Hv; try apply W1; try apply W2;
        try apply W3; try apply W4. }
    destruct (getpwnam a) as [pw|] eqn:Hp.
    + apply Hset. exact (Hpw a pw Hp).
    + destruct (strtol a 0) as [v endp] eqn:Hs.
      match goal with |- context [if ?c then _ else _] => destruct c end;
        [exact Hok|].
      apply Hset. apply to_unsigned_range.
Qed.

Lemma startup_options_ok :
  0 < sysconf_SC_CLK_TCK <= INT_MAX -> policy_ok startup_options.
Proof.
  rewrite (proj2 int_bounds). intros Hs. unfold policy_ok, options_wf.
  cbn [startup_options opt_clk_tck opt_stat_mode opt_fake_self opt_kernel_pid
       opt_anon_owner].
  unfold OPT_CLK_TCK, OPT_FAKE_SELF, OPT_KERNEL_PID, OPT_ANON_OWNER.
  change OPT_STAT_MODE with 256. change (octal "07777") with 4095.
  split; [|lia].
  split; [apply is_int_small; lia|].
  split; [apply is_unsigned_small; lia|].
  split; [apply is_int_small; lia|].
  split; [apply is_int_small; lia | apply is_unsigned_small; lia].
Qed.

Lemma run_keeps_policy_ok (no_exit : bool) (line : list (Z * option string))
  (g g' : options) :
  passwd_ok -> policy_ok g ->
  argp_parse argp no_exit line g = Parsed g' -> policy_ok g'.
Proof.
  intros Hpw Hok Hp.
  pose proof (argp_parse_invariant argp
                (fun g0 g1 => policy_ok g0 -> policy_ok g1)
                (fun _ => True)) as Hinv.
  specialize (Hinv (fun _ H => H)).
  specialize (Hinv (fun _ _ _ H12 H23 H => H23 (H12 H))).
  assert (Hstep : forall k p v g0, True -> owner argp k = Some (Some p) ->
                    policy_ok g0 -> policy_ok (options_after (p k v g0) g0)).
  { intros k p v g0 _ Ho Hg0. destruct (owner_argp k p Ho) as [-> | ->].
    - apply parser_keeps_policy_ok; assumption.
    - rewrite foreign_keeps_options. exact Hg0. }
  specialize (Hinv Hstep no_exit line g (fun _ _ _ => I)).
  rewrite Hp in Hinv. exact (Hinv Hok).
Qed.

(** X6.  Whatever the command line, the options that come out of
    parsing are sound, on a system whose clock-tick rate is a positive
    [int] and whose password database gives uids of type [uid_t]: each
    holds a value of its C type, the clock-tick unit is positive and the
    stat mode lies within [07777].  This holds of the defaults [main]
    sets, and every call of [argp_parser], with any key and argument,
    keeps it. *)
Theorem parsed_options_are_sound :
  passwd_ok -> 0 < sysconf_SC_CLK_TCK <= INT_MAX ->
  policy_ok startup_options
  /\ (forall k a g,
        policy_ok g -> policy_ok (options_after (argp_parser k a g) g))
  /\ (forall no_exit line g,
        argp_parse argp no_exit line startup_options = Parsed g ->
        policy_ok g).
Proof.
  intros Hpw Hs. split; [|split].
  - apply startup_options_ok. exact Hs.
  - intros k a g Hok. apply parser_keeps_policy_ok; assumption.
  - intros no_exit line g Hp.
    apply (run_keeps_policy_ok no_exit line startup_options g Hpw); [|exact Hp].
    apply startup_options_ok. exact Hs.
Qed.

(** X7.  A server that [main] has started runs with sound options and
    with the root inode number 0x434F5250, on a system as in X6. *)
Theorem served_state_is_sound (line : list (Z * option string)) (w w' : W)
  (g : options) (root : node netnode) :
  passwd_ok -> 0 < sysconf_SC_CLK_TCK <= INT_MAX ->
  main line w = Serve g root w' ->
  policy_ok g /\ st_ino (nn_stat root) = 0x434F5250.
Proof.
  intros Hpw Hs Hm. split.
  - apply (run_keeps_policy_ok false line startup_options g Hpw).
    + apply startup_options_ok. exact Hs.
    + exact (main_serves_parsed line w g root w' Hm).
  - destruct (main_serves_made_root line w g root w' Hm) as (pc & w0 & w1 & Hr).
    destruct (root_make_node_calls pc w0)
      as (d0 & v1 & d1 & v2 & r & v3 & _ & _ & _ & Hroot).
    rewrite Hroot in Hr. destruct r as [n|]; [|discriminate].
    injection Hr as Hn _. subst root. reflexivity.
Qed.

(** X8.  The options of every state the command line can reach print
    and parse back: after any run of the parser from the defaults,
    [netfs_append_args] with memory for five strings appends the knob
    strings, and these strings parsed afresh give the same options,
    provided the anonymous owner is the default or is at most [INT_MAX]
    with a decimal text that is not a user name. *)
Theorem parsed_options_round_trip (no_exit : bool)
  (line : list (Z * option string)) (g : options) (az : argz) (mem : nat) :
  passwd_ok -> 0 < sysconf_SC_CLK_TCK <= INT_MAX ->
  argp_parse argp no_exit line startup_options = Parsed g ->
  opt_anon_owner g = OPT_ANON_OWNER
  \/ (opt_anon_owner g <= INT_MAX
      /\ getpwnam (fmt_d (opt_anon_owner g)) = None) ->
  (400 <= mem)%nat ->
  round_trip g az mem.
Proof.
  intros Hpw Hs Hp Hanon Hmem.
  assert (Hok : policy_ok g).
  { apply (run_keeps_policy_ok no_exit line startup_options g Hpw); [|exact Hp].
    apply startup_options_ok. exact Hs. }
  destruct Hok as (Hwf & Hclk & Hmode). split.
  - apply netfs_append_args_enough. exact Hmem.
  - apply reparse_knob_args; try assumption. right. exact Hclk.
Qed.

Lemma negative_kernel_pid_stays (k : Z) (a : option string) (g : options) :
  to_int (opt_kernel_pid g) < 0 ->
  opt_kernel_pid (options_after (argp_parser k a g) g) = opt_kernel_pid g.
Proof.
  intros Hneg.
  destruct (Z.eq_dec k (code "k")) as [-> | Hk].
  - rewrite argp_parser_k. destruct a as [a|]; [|reflexivity].
    destruct (strtol a 0) as [v endp].
    apply Z.ltb_lt in Hneg. rewrite Hneg, orb_true_r. reflexivity.
  - destruct (argp_parser_frame k a g) as (_ & _ & _ & H4 & _).
    destruct (Z.eq_dec (opt_kernel_pid (options_after (argp_parser k a g) g))
                (opt_kernel_pid g)) as [E | E]; [exact E|].
    exfalso. exact (Hk (H4 E)).
Qed.

(** X10.  Once the kernel process id is negative it stays: no run of
    the parser, at startup or at run time, with whatever options, changes
    it again. *)
Theorem negative_kernel_pid_is_final (no_exit : bool)
  (line : list (Z * option string)) (g : options) :
  to_int (opt_kernel_pid g) < 0 ->
  match argp_parse netfs_runtime_argp no_exit line g with
  | Parsed g' | Failed _ g' => opt_kernel_pid g' = opt_kernel_pid g
  | _ => True
  end.
Proof.
  intros Hneg.
  pose proof (argp_parse_invariant netfs_runtime_argp
                (fun g0 g1 => to_int (opt_kernel_pid g0) < 0 ->
                              opt_kernel_pid g1 = opt_kernel_pid g0)
                (fun _ => True)) as Hinv.
  specialize (Hinv (fun _ _ => eq_refl)).
  assert (Htrans : forall g1 g2 g3 : options,
             (to_int (opt_kernel_pid g1) < 0 ->
              opt_kernel_pid g2 = opt_kernel_pid g1) ->
             (to_int (opt_kernel_pid g2) < 0 ->
              opt_kernel_pid g3 = opt_kernel_pid g2) ->
             to_int (opt_kernel_pid g1) < 0 ->
             opt_kernel_pid g3 = opt_kernel_pid g1).
  { intros g1 g2 g3 H12 H23 H1. pose proof (H12 H1) as E.
    rewrite <- E. apply H23. rewrite E. exact H1. }
  specialize (Hinv Htrans).
  assert (Hstep : forall k p v g0, True ->
             owner netfs_runtime_argp k = Some (Some p) ->
             to_int (opt_kernel_pid g0) < 0 ->
             opt_kernel_pid (options_after (p k v g0) g0) = opt_kernel_pid g0).
  { intros k p v g0 _ Ho Hg0. destruct (owner_argp k p Ho) as [-> | ->].
    - apply negative_kernel_pid_stays. exact Hg0.
    - rewrite foreign_keeps_options. reflexivity. }
  specialize (Hinv Hstep no_exit line g (fun _ _ _ => I)).
  destruct (argp_parse netfs_runtime_argp no_exit line g); try exact I;
    exact (Hinv Hneg).
Qed.

(** ** The memory and the buffer of [netfs_append_args] *)

Lemma add_all_failed (l : argz) (err : error_t) (az : argz) (mem : nat) :
  is_error err = true -> add_all l (err, az, mem) = (err, az, mem).
Proof. intros H. destruct l; cbn [add_all]; [|rewrite H]; reflexivity. Qed.

Lemma add_all_app (l1 l2 : argz) :
  forall st, add_all (l1 ++ l2) st = add_all l2 (add_all l1 st).
Proof.
  induction l1 as [|s l1 IH]; intros [[err az] mem]; cbn [app add_all];
    [reflexivity|].
  destruct (is_error err) eqn:E; [|apply IH].
  symmetry. apply add_all_failed. exact E.
Qed.

Lemma FOPT_add_all (differs : bool) (text : string)
  (st : error_t * argz * nat) :
  (String.length text <= 79)%nat ->
  FOPT differs text st = add_all (emit differs text) st.
Proof.
  intros Hlen. destruct st as [[err az] mem]. unfold FOPT, emit.
  destruct differs; cbn [add_all];
    [|rewrite andb_false_r; reflexivity].
  rewrite (snprintf_short text Hlen), andb_true_r.
  destruct (is_error err); cbn [negb]; [reflexivity|].
  destruct (argz_add az mem text) as [[e a] m]. reflexivity.
Qed.

Lemma netfs_append_args_add_all (g : options) (az : argz) (mem : nat) :
  netfs_append_args g az mem
  = let '(err, az', mem') := add_all (knob_args g) (ESUCCESS, az, mem) in
    if negb (is_error err) then netfs_append_std_options az' mem'
    else (err, az', mem').
Proof.
  destruct (text_lengths g) as (L1 & L2 & L3 & L4 & L5).
  unfold netfs_append_args. cbv zeta.
  match goal with |- context [FOPT ?d ?t (ESUCCESS, az, mem)] =>
    rewrite (FOPT_add_all d t (ESUCCESS, az, mem) L1) end.
  match goal with |- context [FOPT ?d ?t (add_all ?l ?s)] =>
    rewrite (FOPT_add_all d t (add_all l s) L2) end.
  match goal with |- context [FOPT ?d ?t (add_all ?l ?s)] =>
    rewrite (FOPT_add_all d t (add_all l s) L3) end.
  match goal with |- context [FOPT ?d ?t (add_all ?l ?s)] =>
    rewrite (FOPT_add_all d t (add_all l s) L4) end.
  match goal with |- context [FOPT ?d ?t (add_all ?l ?s)] =>
    rewrite (FOPT_add_all d t (add_all l s) L5) end.
  rewrite knob_args_emit, !add_all_app. reflexivity.
Qed.

Lemma add_all_enough (l : argz) :
  forall (az : argz) (mem : nat),
    (argz_bytes l <= mem)%nat ->
    add_all l (ESUCCESS, az, mem)
    = (ESUCCESS, (az ++ l)%list, (mem - argz_bytes l)%nat).
Proof.
  induction l as [|s l IH]; intros az mem H; cbn [add_all argz_bytes] in *.
  - rewrite app_nil_r, Nat.sub_0_r. reflexivity.
  - cbn [is_error]. unfold argz_add.
    destruct (S (String.length s) <=? mem)%nat eqn:E;
      [|apply Nat.leb_gt in E; lia].
    rewrite IH by lia. rewrite <- app_assoc. cbn [app]. f_equal. lia.
Qed.

Lemma add_all_short (l : argz) :
  forall (az : argz) (mem : nat),
    (mem < argz_bytes l)%nat ->
    exists l1 s l2,
      l = (l1 ++ s :: l2)%list
      /\ (argz_bytes l1 <= mem < argz_bytes l1 + S (String.length s))%nat
      /\ add_all l (ESUCCESS, az, mem)
         = (ENOMEM, (az ++ l1)%list, (mem - argz_bytes l1)%nat).
Proof.
  induction l as [|s l IH]; intros az mem H; cbn [add_all argz_bytes] in *;
    [lia|].
  cbn [is_error]. unfold argz_add.
  destruct (S (String.length s) <=? mem)%nat eqn:E.
  - apply Nat.leb_le in E.
    destruct (IH (az ++ [s])%list (mem - S (String.length s))%nat ltac:(lia))
      as (l1 & s' & l2 & -> & Hb & Hr).
    exists (s :: l1), s', l2. cbn [app argz_bytes].
    split; [reflexivity|]. split; [lia|].
    rewrite Hr. rewrite <- app_assoc. cbn [app]. f_equal. lia.
  - apply Nat.leb_gt in E. exists [], s, l. cbn [app argz_bytes].
    split; [reflexivity|]. split; [lia|].
    cbn [add_all is_error]. destruct l; cbn [add_all is_error];
      rewrite app_nil_r, Nat.sub_0_r; reflexivity.
Qed.

(** X14.  [netfs_append_args] needs the bytes of the strings it
    appends and no more.  When the allocator can give the bytes of all
    knob strings, every one is appended and [netfs_append_std_options]
    runs with what is left; when it cannot, the call returns [ENOMEM]
    with the vector extended by the knob strings that came before the
    first one that did not fit, and [netfs_append_std_options] does not
    run.  For the default options nothing is appended and no memory is
    needed. *)
Theorem append_args_memory (g : options) (az : argz) (mem : nat) :
  ((argz_bytes (knob_args g) <= mem)%nat ->
   netfs_append_args g az mem
   = netfs_append_std_options (az ++ knob_args g)%list
       (mem - argz_bytes (knob_args g))%nat)
  /\ ((mem < argz_bytes (knob_args g))%nat ->
      exists l1 s l2,
        knob_args g = (l1 ++ s :: l2)%list
        /\ (argz_bytes l1 <= mem < argz_bytes l1 + S (String.length s))%nat
        /\ netfs_append_args g az mem
           = (ENOMEM, (az ++ l1)%list, (mem - argz_bytes l1)%nat))
  /\ netfs_append_args startup_options az mem
     = netfs_append_std_options az mem.
Proof.
  split; [|split].
  - intros H. rewrite netfs_append_args_add_all, (add_all_enough _ az mem H).
    reflexivity.
  - intros H.
    destruct (add_all_short (knob_args g) az mem H)
      as (l1 & s & l2 & Hl & Hb & Hr).
    exists l1, s, l2. split; [exact Hl|]. split; [exact Hb|].
    rewrite netfs_append_args_add_all, Hr. reflexivity.
  - rewrite netfs_append_args_add_all.
    assert (Hk : knob_args startup_options = []).
    { unfold knob_args, startup_options.
      cbn [opt_clk_tck opt_stat_mode opt_fake_self opt_kernel_pid
           opt_anon_owner].
      rewrite !Z.eqb_refl. reflexivity. }
    rewrite Hk. reflexivity.
Qed.

Lemma fmt_digits_length_tight (b : Z) (Hb : 2 <= b) (f : nat) :
  forall (k : nat) (n : Z) (acc : string),
    0 <= n < b ^ Z.of_nat (S k) ->
    (String.length (fmt_digits f b n acc) <= S k + String.length acc)%nat.
Proof.
  induction f as [|f IH]; intros k n acc Hn; cbn [fmt_digits]; [lia|].
  destruct (n / b =? 0) eqn:E; [cbn [String.length]; lia|].
  apply Z.eqb_neq in E.
  destruct k as [|k].
  - exfalso. apply E. apply Z.div_small. cbn in Hn. lia.
  - specialize (IH k (n / b) (String (digit_char (n mod b)) acc)).
    cbn [String.length] in IH.
    assert (Hq : 0 <= n / b < b ^ Z.of_nat (S k)).
    { split; [apply Z.div_pos; lia|].
      apply Z.div_lt_upper_bound; [lia|].
      rewrite (Nat2Z.inj_succ (S k)), Z.pow_succ_r in Hn by lia. lia. }
    specialize (IH Hq). lia.
Qed.

Lemma fmt_d_length_int (n : Z) :
  is_int n -> (String.length (fmt_d n) <= 11)%nat.
Proof.
  unfold is_int. rewrite (proj1 int_bounds), (proj2 int_bounds). intros Hn.
  unfold fmt_d, fmt_unsigned. destruct (n <? 0) eqn:E; cbn [String.length].
  - apply Z.ltb_lt in E.
    pose proof (fmt_digits_length_tight 10 ltac:(lia) 32 9 (- n) EmptyString)
      as H.
    cbn [String.length] in H.
    assert (0 <= - n < 10 ^ Z.of_nat 10)
      by (change (10 ^ Z.of_nat 10) with 10000000000; lia).
    specialize (H ltac:(assumption)). lia.
  - apply Z.ltb_ge in E.
    pose proof (fmt_digits_length_tight 10 ltac:(lia) 32 9 n EmptyString) as H.
    cbn [String.length] in H.
    assert (0 <= n < 10 ^ Z.of_nat 10)
      by (change (10 ^ Z.of_nat 10) with 10000000000; lia).
    specialize (H ltac:(assumption)). lia.
Qed.

Lemma fmt_o_length_unsigned (n : Z) :
  is_unsigned n -> (String.length (fmt_o n) <= 11)%nat.
Proof.
  unfold is_unsigned. rewrite uint_bound. intros Hn.
  unfold fmt_o, fmt_unsigned.
  pose proof (fmt_digits_length_tight 8 ltac:(lia) 32 10 n EmptyString) as H.
  cbn [String.length] in H.
  assert (0 <= n < 8 ^ Z.of_nat 11)
    by (change (8 ^ Z.of_nat 11) with 8589934592; lia).
  specialize (H ltac:(assumption)). lia.
Qed.

(** X15.  The 80 bytes of [buf] are enough: for options that hold
    values of their C types, each option string [netfs_append_args]
    formats has at most 29 characters, so [snprintf] never cuts one. *)
Theorem option_strings_fit_the_buffer (g : options) (s : string) :
  options_wf g -> In s (knob_args g) ->
  (String.length s <= 29)%nat /\ snprintf 80 s = s.
Proof.
  intros (W1 & W2 & W3 & W4 & W5) Hin.
  assert (Hlen : (String.length s <= 29)%nat).
  { pose proof (fmt_d_length_int _ W1) as L1.
    pose proof (fmt_o_length_unsigned _ W2) as L2.
    pose proof (fmt_d_length_int _ W3) as L3.
    pose proof (fmt_d_length_int _ (to_int_range (opt_anon_owner g))) as L4.
    pose proof (fmt_d_length_int _ W4) as L5.
    rewrite knob_args_emit in Hin. unfold emit in Hin.
    rewrite !in_app_iff in Hin.
    destruct Hin as [Hin | [Hin | [Hin | [Hin | Hin]]]];
      match type of Hin with In _ (if ?c then _ else _) => destruct c end;
      cbn [In] in Hin; try contradiction; destruct Hin as [<- | []];
      cbn [append String.length]; lia. }
  split; [exact Hlen | apply snprintf_short; lia].
Qed.

(** ** How [main] and the runs of the parser end *)

Lemma run_never_crashes (no_exit : bool) (line : list (Z * option string)) :
  forall g : options,
    (forall t, In t line -> respects_table t) ->
    argp_parse argp no_exit line g <> Crashed.
Proof.
  induction line as [|[k v] rest IH]; intros g Hall; cbn [argp_parse];
    [discriminate|].
  destruct (owner argp k) as [[p|]|] eqn:Ho;
    try (destruct no_exit; discriminate).
  assert (Hnf : p k v g <> Fault).
  { destruct (owner_argp k p Ho) as [-> | ->].
    - apply argp_parser_safe. apply Hall. left. reflexivity.
    - unfold foreign. destruct (netfs_std_startup_parser k v). discriminate. }
  destruct (p k v g) as [err g' msgs|]; [|contradiction].
  match goal with |- context [if ?c then _ else _] => destruct c end;
    [discriminate|].
  destruct (is_error err); [discriminate|].
  apply IH. intros t Ht. apply Hall. right. exact Ht.
Qed.

(** X16.  [main] never ends in a fault when the argp library honours
    the option table (no argument for an option declared without one, an
    argument for an option declared with a mandatory one): the parsers
    never read a null [arg], and the root node is used only after
    [root_make_node] has returned 0, which it does only with a node. *)
Theorem main_never_faults (line : list (Z * option string)) (w : W) :
  (forall t, In t line -> respects_table t) ->
  main line w <> Crash.
Proof.
  intros Hall. unfold main.
  pose proof (run_never_crashes false line startup_options Hall) as Hrun.
  destruct (argp_parse argp false line startup_options);
    try discriminate; [|contradiction].
  destruct (ps_context_create w) as [[err pc] w1].
  destruct (is_error err); [discriminate|].
  destruct (task_get_bootstrap_port w1) as [bootstrap w2].
  destruct (bootstrap =? MACH_PORT_NULL); [discriminate|].
  destruct (root_make_node_calls pc (netfs_init w2))
    as (d0 & v1 & d1 & v2 & r & v3 & _ & _ & _ & Hroot).
  rewrite Hroot. destruct r as [n|]; cbn [is_error option_map]; discriminate.
Qed.

Lemma owner_of_policy_key (k : Z) :
  In k policy_keys -> owner argp k = Some (Some argp_parser).
Proof.
  intros Hin.
  destruct (policy_keys_cases k Hin) as [-> | [-> | [-> | [-> | [-> | ->]]]]];
    reflexivity.
Qed.

(** X17.  An option whose argument the parser refuses ends the process
    at startup and is skipped at run time.  The parser answers a refused
    argument with [argp_error] and the return code 0: in a run that exits
    on errors, as the one of [main], the process ends there with the
    message of the option, whatever the collaborators would do; in a run
    that does not exit on errors the line goes on after the option as if
    it had not been given. *)
Theorem refused_argument_is_fatal_at_startup_only (k : Z)
  (a : option string) (rest : list (Z * option string)) (g : options)
  (msg : string) :
  In k policy_keys ->
  argp_parser k a g = Returned ESUCCESS g [msg] ->
  argp_parse argp false ((k, a) :: rest) g = Exited [msg]
  /\ argp_parse netfs_runtime_argp true ((k, a) :: rest) g
     = argp_parse netfs_runtime_argp true rest g
  /\ (g = startup_options ->
      forall w, main ((k, a) :: rest) w = ArgpExit [msg]).
Proof.
  intros Hin Hp. pose proof (owner_of_policy_key k Hin) as Ho.
  split; [|split].
  - cbn [argp_parse]. rewrite Ho, Hp. reflexivity.
  - unfold netfs_runtime_argp. cbn [argp_parse]. rewrite Ho, Hp. reflexivity.
  - intros -> w. unfold main. cbn [argp_parse]. rewrite Ho, Hp. reflexivity.
Qed.

(** X18.  The option [--update] is not an option of the argp that is
    installed for run time.  [runtime_argp], which declares it, is a child
    of [netfs_runtime_argp_] only, and there it is accepted and does
    nothing; [netfs_runtime_argp] points to [argp], whose parsers are
    [argp_parser] and the startup parser of the netfs library, so the key
    of [--update] has no parser there unless that library declares it. *)
Theorem update_is_an_option_of_the_unused_argp :
  owner netfs_runtime_argp_ (code "u") = Some (Some runtime_argp_parser)
  /\ (forall no_exit rest g,
        argp_parse netfs_runtime_argp_ no_exit ((code "u", None) :: rest) g
        = argp_parse netfs_runtime_argp_ no_exit rest g)
  /\ (forall k p,
        owner netfs_runtime_argp k = Some (Some p) ->
        p = argp_parser \/ p = foreign netfs_std_startup_parser)
  /\ (existsb (fun o => key o =? code "u") netfs_std_startup_options = false ->
      owner netfs_runtime_argp (code "u") = None).
Proof.
  assert (Hu : owner netfs_runtime_argp_ (code "u")
               = Some (Some runtime_argp_parser)) by reflexivity.
  split; [exact Hu|]. split; [|split].
  - intros no_exit rest g. cbn [argp_parse]. rewrite Hu.
    change (runtime_argp_parser (code "u") None g) with (Returned ESUCCESS g []).
    cbn [List.length Nat.eqb negb andb is_error]. rewrite andb_false_r.
    reflexivity.
  - intros k p Ho. exact (owner_argp k p Ho).
  - intros Hnone.
    assert (Ho : owner netfs_runtime_argp (code "u") = None).
    { unfold netfs_runtime_argp, argp, netfs_std_startup_argp. cbn [owner].
      change (existsb (fun o => key o =? code "u") common_options) with false.
      rewrite Hnone. reflexivity. }
    exact Ho.
Qed.

(** ** The round trip of [netfs_append_args], string by string *)

(** Every string of the knobs is the option string of a knob that
    differs from its default. *)
Lemma knob_args_in (g : options) (word : string) :
  In word (knob_args g) ->
  (word = "--clk-tck=" ++ fmt_d (opt_clk_tck g)
   /\ opt_clk_tck g <> OPT_CLK_TCK)
  \/ (word = "--stat-mode=" ++ fmt_o (opt_stat_mode g)
      /\ opt_stat_mode g <> OPT_STAT_MODE)
  \/ (word = "--fake-self=" ++ fmt_d (opt_fake_self g)
      /\ opt_fake_self g <> OPT_FAKE_SELF)
  \/ (word = "--anonymous-owner=" ++ fmt_d (to_int (opt_anon_owner g))
      /\ opt_anon_owner g <> OPT_ANON_OWNER)
  \/ (word = "--kernel-process=" ++ fmt_d (opt_kernel_pid g)
      /\ opt_kernel_pid g <> OPT_KERNEL_PID).
Proof.
  rewrite knob_args_emit. unfold emit. rewrite !in_app_iff.
  intros [H | [H | [H | [H | H]]]];
    match type of H with In _ (if negb ?c then _ else _) =>
      destruct c eqn:E end;
    cbn [negb In] in H; try contradiction; destruct H as [<- | []];
    apply Z.eqb_neq in E.
  - left. split; [reflexivity | exact E].
  - right. left. split; [reflexivity | exact E].
  - right. right. left. split; [reflexivity | exact E].
  - right. right. right. left. split; [reflexivity | exact E].
  - right. right. right. right. split; [reflexivity | exact E].
Qed.

Lemma parse_word_clk_tck (x : Z) (g0 : options) :
  is_int x -> 0 < x ->
  parse_word ("--clk-tck=" ++ fmt_d x) g0
  = Some (Returned ESUCCESS (set_clk_tck g0 x) []).
Proof.
  intros Hx Hpos. unfold parse_word. rewrite long_option_clk_tck. f_equal.
  apply parse_clk_tck_accept; [apply parses_fmt_d; exact Hx | exact Hpos].
Qed.

Lemma parse_word_stat_mode (x : Z) (g0 : options) :
  0 <= x <= octal "07777" ->
  parse_word ("--stat-mode=" ++ fmt_o x) g0
  = Some (Returned ESUCCESS (set_stat_mode g0 x) []).
Proof.
  intros Hx. unfold parse_word. rewrite long_option_stat_mode. f_equal.
  apply parse_stat_mode_accept; [|exact Hx].
  apply parses_fmt_o. change (octal "07777") with 4095 in Hx.
  rewrite (proj2 long_bounds). lia.
Qed.

Lemma parse_word_fake_self (x : Z) (g0 : options) :
  is_int x ->
  parse_word ("--fake-self=" ++ fmt_d x) g0
  = Some (Returned ESUCCESS (set_fake_self g0 x) []).
Proof.
  intros Hx. unfold parse_word. rewrite long_option_fake_self. f_equal.
  apply parse_fake_self_accept, parses_fmt_d. exact Hx.
Qed.

Lemma parse_word_anon_owner (x : Z) (g0 : options) :
  0 <= x <= INT_MAX -> getpwnam (fmt_d x) = None ->
  parse_word ("--anonymous-owner=" ++ fmt_d (to_int x)) g0
  = Some (Returned ESUCCESS (set_anon_owner g0 x) []).
Proof.
  intros Hx Hpw.
  assert (Hint : is_int x).
  { unfold is_int. rewrite (proj1 int_bounds).
    rewrite (proj2 int_bounds) in *. lia. }
  rewrite (to_int_id x Hint).
  unfold parse_word. rewrite long_option_anonymous_owner. f_equal.
  apply parse_anon_owner_number;
    [exact Hpw | apply parses_fmt_d; exact Hint | apply Hx].
Qed.

Lemma parse_word_kernel_pid (x : Z) (g0 : options) :
  is_int x -> 0 <= to_int (opt_kernel_pid g0) ->
  parse_word ("--kernel-process=" ++ fmt_d x) g0
  = Some (Returned ESUCCESS (set_kernel_pid g0 x) []).
Proof.
  intros Hx Hk. unfold parse_word. rewrite long_option_kernel_process.
  f_equal.
  apply parse_kernel_pid_accept; [apply parses_fmt_d; exact Hx | exact Hk].
Qed.

(** C10 (amended).  [netfs_append_args] appends the knob strings: in the
    order clk-tck, stat-mode, fake-self, anonymous-owner, kernel-process,
    one string for each knob that differs from its default and none for a
    knob at its default.  When the allocator can give the bytes of these
    strings, all are appended and [netfs_append_std_options] runs on the
    vector; when it cannot, the call returns [ENOMEM] with the strings
    appended that came before the first one that did not fit; 400 bytes,
    five times the buffer, are always enough.  Each knob string is the
    option string of a knob that differs from its default.
    Parsed by [argp_parser], a knob string gives its knob the value it
    was printed from: always for fake-self; for kernel-process when the
    parser holds a process id that is not negative; for clk-tck when the
    value is positive; for stat-mode when it lies within [07777]; for
    anonymous-owner when the value is at most [INT_MAX] and its decimal
    text is not a user name.  When every knob is its default or meets its
    proviso, the strings parsed afresh give back the options they were
    printed from. *)
Theorem append_args_round_trip_for_reparsable_options :
  (forall g az mem,
     ((argz_bytes (knob_args g) <= mem)%nat ->
      netfs_append_args g az mem
      = netfs_append_std_options (az ++ knob_args g)%list
          (mem - argz_bytes (knob_args g))%nat)
     /\ ((mem < argz_bytes (knob_args g))%nat ->
         exists l1 s l2,
           knob_args g = (l1 ++ s :: l2)%list
           /\ (argz_bytes l1 <= mem < argz_bytes l1 + S (String.length s))%nat
           /\ netfs_append_args g az mem
              = (ENOMEM, (az ++ l1)%list, (mem - argz_bytes l1)%nat)))
  /\ (forall g az mem,
        (400 <= mem)%nat ->
        exists mem',
          netfs_append_args g az mem
          = netfs_append_std_options (az ++ knob_args g)%list mem')
  /\ (forall g word,
        In word (knob_args g) ->
        (word = "--clk-tck=" ++ fmt_d (opt_clk_tck g)
         /\ opt_clk_tck g <> OPT_CLK_TCK)
        \/ (word = "--stat-mode=" ++ fmt_o (opt_stat_mode g)
            /\ opt_stat_mode g <> OPT_STAT_MODE)
        \/ (word = "--fake-self=" ++ fmt_d (opt_fake_self g)
            /\ opt_fake_self g <> OPT_FAKE_SELF)
        \/ (word = "--anonymous-owner=" ++ fmt_d (to_int (opt_anon_owner g))
            /\ opt_anon_owner g <> OPT_ANON_OWNER)
        \/ (word = "--kernel-process=" ++ fmt_d (opt_kernel_pid g)
            /\ opt_kernel_pid g <> OPT_KERNEL_PID))
  /\ (forall g g0,
        options_wf g ->
        (0 < opt_clk_tck g ->
         parse_word ("--clk-tck=" ++ fmt_d (opt_clk_tck g)) g0
         = Some (Returned ESUCCESS (set_clk_tck g0 (opt_clk_tck g)) []))
        /\ (opt_stat_mode g <= octal "07777" ->
            parse_word ("--stat-mode=" ++ fmt_o (opt_stat_mode g)) g0
            = Some (Returned ESUCCESS (set_stat_mode g0 (opt_stat_mode g)) []))
        /\ parse_word ("--fake-self=" ++ fmt_d (opt_fake_self g)) g0
           = Some (Returned ESUCCESS (set_fake_self g0 (opt_fake_self g)) [])
        /\ (opt_anon_owner g <= INT_MAX ->
            getpwnam (fmt_d (opt_anon_owner g)) = None ->
            parse_word
              ("--anonymous-owner=" ++ fmt_d (to_int (opt_anon_owner g))) g0
            = Some (Returned ESUCCESS
                      (set_anon_owner g0 (opt_anon_owner g)) []))
        /\ (0 <= to_int (opt_kernel_pid g0) ->
            parse_word ("--kernel-process=" ++ fmt_d (opt_kernel_pid g)) g0
            = Some (Returned ESUCCESS
                      (set_kernel_pid g0 (opt_kernel_pid g)) [])))
  /\ (forall g az mem,
        options_wf g ->
        (argz_bytes (knob_args g) <= mem)%nat ->
        opt_clk_tck g = OPT_CLK_TCK \/ 0 < opt_clk_tck g ->
        opt_stat_mode g <= octal "07777" ->
        opt_anon_owner g = OPT_ANON_OWNER
        \/ (opt_anon_owner g <= INT_MAX
            /\ getpwnam (fmt_d (opt_anon_owner g)) = None) ->
        round_trip g az mem).
Proof.
  split; [|split; [|split; [|split]]].
  - intros g az mem. split.
    + intros H. rewrite netfs_append_args_add_all, (add_all_enough _ az mem H).
      reflexivity.
    + intros H.
      destruct (add_all_short (knob_args g) az mem H)
        as (l1 & s & l2 & Hl & Hb & Hr).
      exists l1, s, l2. split; [exact Hl|]. split; [exact Hb|].
      rewrite netfs_append_args_add_all, Hr. reflexivity.
  - intros g az mem Hmem. apply netfs_append_args_enough. exact Hmem.
  - apply knob_args_in.
  - intros g g0 (W1 & W2 & W3 & W4 & W5).
    split; [intros H; apply parse_word_clk_tck; assumption|].
    split; [intros H; apply parse_word_stat_mode; split;
              [apply W2 | exact H]|].
    split; [apply parse_word_fake_self; exact W3|].
    split; [intros H Hpw; apply parse_word_anon_owner;
              [split; [apply W5 | exact H] | exact Hpw]|].
    intros H. apply parse_word_kernel_pid; assumption.
  - intros g az mem Hwf Hmem Hclk Hmode Hanon. split.
    + exists (mem - argz_bytes (knob_args g))%nat.
      rewrite netfs_append_args_add_all, (add_all_enough _ az mem Hmem).
      reflexivity.
    + apply reparse_knob_args; assumption.
Qed.

End Program.

(** ** The theorems at work on the small system *)

(** Strings and the integers they denote. *)
Example denotes_100 : integer_text "100" 100.
Proof.
  exact (unsigned_text EmptyString "100" _ eq_refl
           (decimal_numeral "1" "00" [1; 0; 0] eq_refl eq_refl)).
Qed.

Example denotes_0x40 : integer_text "0x40" 64.
Proof.
  exact (unsigned_text EmptyString "0x40" _ eq_refl
           (hexadecimal_numeral "x" "4" "0" [4; 0] (or_introl eq_refl)
              eq_refl)).
Qed.

Example denotes_010_by_spaces : integer_text "  +010" 8.
Proof.
  exact (plus_text "  " "010" _ eq_refl (octal_numeral "10" [0; 1; 0] eq_refl)).
Qed.


Example denotes_7 : integer_text "7" 7.
Proof.
  exact (unsigned_text EmptyString "7" _ eq_refl
           (decimal_numeral "7" EmptyString [7] eq_refl eq_refl)).
Qed.

Example denotes_minus_5 : integer_text "-5" (-5).
Proof.
  exact (minus_text EmptyString "5" _ eq_refl
           (decimal_numeral "5" EmptyString [5] eq_refl eq_refl)).
Qed.

Example denotes_99999999999 : integer_text "99999999999" 99999999999.
Proof.
  exact (unsigned_text EmptyString "99999999999" _ eq_refl
           (decimal_numeral "9" "9999999999"
              [9; 9; 9; 9; 9; 9; 9; 9; 9; 9; 9] eq_refl eq_refl)).
Qed.

Example denotes_minus_99999999999 :
  integer_text "-99999999999" (-99999999999).
Proof.
  exact (minus_text EmptyString "99999999999" _ eq_refl
           (decimal_numeral "9" "9999999999"
              [9; 9; 9; 9; 9; 9; 9; 9; 9; 9; 9] eq_refl eq_refl)).
Qed.


(** C6 at work: [--clk-tck=100] sets the unit to 100, [--clk-tck=0x40]
    sets it to 64, and [--clk-tck=1oo], which denotes no integer, is
    refused. *)
Lemma clk_tck_accepted_iff_positive_integer_witness :
  argp_parser test_getpwnam (code "h") (Some "100") (startup_options 60)
  = Returned ESUCCESS (set_clk_tck (startup_options 60) 100) []
  /\ argp_parser test_getpwnam (code "h") (Some "0x40") (startup_options 60)
     = Returned ESUCCESS (set_clk_tck (startup_options 60) 64) []
  /\ argp_parser test_getpwnam (code "h") (Some "1oo") (startup_options 60)
     = Returned ESUCCESS (startup_options 60)
         ["--clk-tck: HZ should be a positive integer"].
Proof.
  split; [|split].
  - exact (proj1 (proj1 (clk_tck_accepted_iff_positive_integer test_getpwnam
                           "100" (startup_options 60))
                    100 denotes_100 eq_refl)).
  - exact (proj1 (proj1 (clk_tck_accepted_iff_positive_integer test_getpwnam
                           "0x40" (startup_options 60))
                    64 denotes_0x40 eq_refl)).
  - apply (proj1 (proj2 (clk_tck_accepted_iff_positive_integer test_getpwnam
                           "1oo" (startup_options 60)))).
    intros (n & Hn & _).
    destruct (integer_text_strtol "1oo" n 1 "oo" Hn eq_refl) as [He _].
    discriminate He.
Defined.

(** C6, the claim as it stands, fails: [--clk-tck=99999999999] is
    accepted, and the clock-tick unit becomes 2147483647, not the integer
    the string denotes. *)
Lemma clk_tck_saturates :
  integer_text "99999999999" 99999999999
  /\ argp_parser test_getpwnam (code "h") (Some "99999999999")
       (startup_options 60)
     = Returned ESUCCESS (set_clk_tck (startup_options 60) 2147483647) []
  /\ opt_clk_tck (set_clk_tck (startup_options 60) 2147483647) <> 99999999999
  /\ ~ (forall a n g,
          integer_text a n -> 0 < n ->
          opt_clk_tck
            (options_after (argp_parser test_getpwnam (code "h") (Some a) g) g)
          = n).
Proof.
  split; [exact denotes_99999999999|]. split; [reflexivity|].
  split; [discriminate|].
  intros H.
  specialize (H "99999999999" 99999999999 (startup_options 60)
                denotes_99999999999 eq_refl).
  vm_compute in H. discriminate H.
Qed.



(** C3 at work: three nodes can be allocated, the root is made, its
    inode number is the constant. *)
Lemma root_inode_is_PROC_witness :
  exists np w',
    root_make_node test_world nat test_netnode test_proclist_make_node
      test_rootdir_make_node test_dircat_make_node 7%nat (mkWorld 3 [])
    = (ESUCCESS, Some np, w')
    /\ st_ino (nn_stat np) = 0x434F5250.
Proof.
  eexists. eexists. split; [reflexivity|].
  refine (eq_trans (proj1 (root_inode_is_PROC test_world nat test_netnode
            test_proclist_make_node test_rootdir_make_node
            test_dircat_make_node 7%nat (mkWorld 3 []) _ _ eq_refl)) _).
  reflexivity.
Defined.

(** The root of the small system: a dircat node over the proclist node
    and the rootdir node, in this order, made by three calls. *)
Example root_of_the_small_system :
  root_make_node test_world nat test_netnode test_proclist_make_node
    test_rootdir_make_node test_dircat_make_node 7%nat (mkWorld 3 [])
  = (ESUCCESS,
     Some (mkNode (mkStat 0x434F5250 0 0 0)
             (DircatDir [mkNode (mkStat 0 0 0 0) (ProclistDir 7);
                         mkNode (mkStat 0 0 0 0) (RootDir 7)])),
     mkWorld 0 ["proclist_make_node"; "rootdir_make_node";
                "dircat_make_node"]).
Proof. reflexivity. Qed.

(** C4 at work: the server started with [--compatible] serves the node
    [root_make_node] made. *)
Lemma root_composes_proclist_then_rootdir_witness :
  exists g root w',
    main 100 test_getpwnam test_std_options test_foreign_parser
      test_world nat test_netnode test_proclist_make_node
      test_rootdir_make_node test_dircat_make_node test_ps_context_create
      test_task_get_bootstrap_port test_netfs_init test_netfs_startup
      [(code "c", None)] (mkWorld 3 [])
    = Serve test_world test_netnode g root w'
    /\ exists pc w0 w1,
         root_make_node test_world nat test_netnode test_proclist_make_node
           test_rootdir_make_node test_dircat_make_node pc w0
         = (ESUCCESS, Some root, w1).
Proof.
  eexists. eexists. eexists. split; [reflexivity|].
  apply (proj2 (root_composes_proclist_then_rootdir 100 test_getpwnam
           test_std_options test_foreign_parser test_world nat test_netnode
           test_proclist_make_node test_rootdir_make_node
           test_dircat_make_node test_ps_context_create
           test_task_get_bootstrap_port test_netfs_init test_netfs_startup)
          [(code "c", None)] (mkWorld 3 []) _ _ _ eq_refl).
Defined.

(** C5 at work: memory for two nodes only, so the composed root cannot
    be made, and [main] ends in [error]. *)
Lemma root_allocation_failure_is_fatal_witness :
  root_make_node test_world nat test_netnode test_proclist_make_node
    test_rootdir_make_node test_dircat_make_node 7%nat (mkWorld 2 [])
  = (ENOMEM, None,
     mkWorld 0 ["proclist_make_node"; "rootdir_make_node";
                "dircat_make_node"])
  /\ main 100 test_getpwnam test_std_options test_foreign_parser
       test_world nat test_netnode test_proclist_make_node
       test_rootdir_make_node test_dircat_make_node test_ps_context_create
       test_task_get_bootstrap_port test_netfs_init test_netfs_startup
       [] (mkWorld 2 [])
     = Exit test_world test_netnode 1 ENOMEM "Could not create the root node".
Proof.
  pose proof (root_allocation_failure_is_fatal 100 test_getpwnam
                test_std_options test_foreign_parser test_world nat
                test_netnode test_proclist_make_node test_rootdir_make_node
                test_dircat_make_node test_ps_context_create
                test_task_get_bootstrap_port test_netfs_init
                test_netfs_startup) as (Hfail & _ & Hmain).
  split.
  - eapply (Hfail 7%nat (mkWorld 2 [])); reflexivity.
  - eapply (Hmain [] (mkWorld 2 []));
      [reflexivity | reflexivity | reflexivity | discriminate
      | reflexivity | reflexivity].
Defined.

(** C2 at work: a runtime line with [--update] and [--readonly] leaves
    the options alone. *)
Lemma runtime_options_change_policy_only_on_policy_keys_witness :
  keeps_options
    (netfs_runtime_argp_ test_getpwnam test_std_options test_foreign_parser)
    true [(code "u", None); (code "r", None)] (startup_options 100).
Proof.
  apply (proj1 (proj2 (proj2 (proj2
           (runtime_options_change_policy_only_on_policy_keys test_getpwnam
              test_std_options test_foreign_parser test_std_options
              test_foreign_parser))))).
  intros k v [H | [H | []]]; injection H as <- _; vm_compute;
    intros [H | [H | [H | [H | [H | [H | []]]]]]]; discriminate H.
Defined.

(** C2, the claim as it stands, fails: the runtime option [--clk-tck=50]
    goes to [argp_parser] and changes the clock-tick unit of a running
    server from 100 to 50. *)
Lemma runtime_clk_tck_changes_policy :
  long_option common_options "--clk-tck=50" = Some (code "h", Some "50")
  /\ argp_parse
       (netfs_runtime_argp test_getpwnam test_std_options test_foreign_parser)
       true [(code "h", Some "50")] (startup_options 100)
     = Parsed (set_clk_tck (startup_options 100) 50)
  /\ opt_clk_tck (startup_options 100) = 100
  /\ opt_clk_tck (set_clk_tck (startup_options 100) 50) = 50
  /\ ~ (forall no_exit line g,
          keeps_options
            (netfs_runtime_argp test_getpwnam test_std_options
               test_foreign_parser)
            no_exit line g).
Proof.
  repeat split.
  intros H. specialize (H true [(code "h", Some "50")] (startup_options 100)).
  vm_compute in H. discriminate H.
Qed.

(** C8 at work: [--fake-self=7] makes 7 the target,
    [--fake-self=-99999999999] makes it [LONG_MIN], [--fake-self=self] is
    refused, and a command line with [--clk-tck=50] alone keeps the target
    at -1. *)
Lemma fake_self_target_is_optional_witness :
  (argp_parser test_getpwnam (code "S") (Some "7") (startup_options 100)
   = Returned ESUCCESS (set_fake_self (startup_options 100) 7) []
   /\ opt_fake_self (set_fake_self (startup_options 100) 7) = 7)
  /\ argp_parser test_getpwnam (code "S") (Some "-99999999999")
       (startup_options 100)
     = Returned ESUCCESS (set_fake_self (startup_options 100) (-2147483648)) []
  /\ argp_parser test_getpwnam (code "S") (Some "self") (startup_options 100)
     = Returned ESUCCESS (startup_options 100)
         ["--fake-self: PID must be an integer"]
  /\ opt_fake_self (set_clk_tck (startup_options 100) 50) = -1.
Proof.
  pose proof (fake_self_target_is_optional 100 test_getpwnam test_std_options
                test_foreign_parser test_world nat test_netnode
                test_proclist_make_node test_rootdir_make_node
                test_dircat_make_node test_ps_context_create
                test_task_get_bootstrap_port test_netfs_init
                test_netfs_startup) as (Harg & Hno & _ & _ & _ & Hrun & _).
  split; [|split; [|split]].
  - destruct (Harg "7" 7 (startup_options 100) denotes_7) as (H1 & H2 & _).
    split; [exact H1 | exact H2].
  - exact (proj1 (Harg "-99999999999" (-99999999999) (startup_options 100)
                    denotes_minus_99999999999)).
  - apply (Hno "self" (startup_options 100)). intros [n Hn].
    destruct (integer_text_strtol "self" n 0 "self" Hn eq_refl) as [He _].
    discriminate He.
  - apply (Hrun false [(code "h", Some "50")]).
    + intros k v [H | []]. injection H as <- _. split; discriminate.
    + reflexivity.
Defined.

(** C8, the claim as it stands, fails: on the command line
    [--compatible], which has no [--fake-self], the target of the self
    link is 1, in the parsed options and in the server [main] starts. *)
Lemma compatible_sets_fake_self :
  (forall k v, In (k, v) [(code "c", @None string)] -> k <> code "S")
  /\ argp_parse (argp test_getpwnam test_std_options test_foreign_parser)
       false [(code "c", None)] (startup_options 100)
     = Parsed (mkOptions 100 (octal "0444") 1 2 0)
  /\ (exists root w',
        main 100 test_getpwnam test_std_options test_foreign_parser
          test_world nat test_netnode test_proclist_make_node
          test_rootdir_make_node test_dircat_make_node test_ps_context_create
          test_task_get_bootstrap_port test_netfs_init test_netfs_startup
          [(code "c", None)] (mkWorld 3 [])
        = Serve test_world test_netnode
            (mkOptions 100 (octal "0444") 1 2 0) root w')
  /\ opt_fake_self (mkOptions 100 (octal "0444") 1 2 0) <> OPT_FAKE_SELF.
Proof.
  split; [|split; [|split]].
  - intros k v [H | []]. injection H as <- _. discriminate.
  - reflexivity.
  - eexists. eexists. reflexivity.
  - discriminate.
Qed.

(** C10 at work.  The options after [-c -k 3 -a 1000] print to four
    strings and parse back; with 30 bytes only the first two strings are
    appended; and after [-a nobody -k 3] the string of the kernel process
    parses back by itself. *)
Lemma append_args_round_trip_for_reparsable_options_witness :
  round_trip 60 test_getpwnam test_append_std_options test_std_options
    test_foreign_parser (mkOptions 100 (octal "0444") 1 3 1000) [] 1000
  /\ (exists l1 s l2,
        knob_args 60 (mkOptions 100 (octal "0444") 1 3 1000)
        = (l1 ++ s :: l2)%list
        /\ (argz_bytes l1 <= 30 < argz_bytes l1 + S (String.length s))%nat
        /\ netfs_append_args 60 test_append_std_options
             (mkOptions 100 (octal "0444") 1 3 1000) [] 30
           = (ENOMEM, ([] ++ l1)%list, (30 - argz_bytes l1)%nat))
  /\ parse_word test_getpwnam "--kernel-process=3" (startup_options 60)
     = Some (Returned ESUCCESS (set_kernel_pid (startup_options 60) 3) []).
Proof.
  pose proof (append_args_round_trip_for_reparsable_options 60 test_getpwnam
                test_append_std_options test_std_options test_foreign_parser)
    as (Hemit & _ & _ & Hword & Hall).
  assert (Hwf : options_wf (mkOptions 100 (octal "0444") 1 3 1000)).
  { unfold options_wf, is_int, is_unsigned. vm_compute.
    repeat split; discriminate. }
  assert (Hwf' : options_wf (mkOptions 60 (octal "0400") (-1) 3 4294967294)).
  { unfold options_wf, is_int, is_unsigned. vm_compute.
    repeat split; discriminate. }
  split; [|split].
  - apply Hall.
    + exact Hwf.
    + vm_compute. repeat constructor.
    + right. reflexivity.
    + vm_compute. discriminate.
    + right. split; [vm_compute; discriminate | reflexivity].
  - apply (proj2 (Hemit (mkOptions 100 (octal "0444") 1 3 1000) [] 30%nat)).
    vm_compute. repeat constructor.
  - apply (proj2 (proj2 (proj2 (proj2
             (Hword (mkOptions 60 (octal "0400") (-1) 3 4294967294)
                (startup_options 60) Hwf'))))).
    vm_compute. discriminate.
Defined.

(** C10, the claim as it stands, fails.  Without memory,
    [netfs_append_args] returns [ENOMEM] and appends no string for a
    clock-tick unit that differs from its default.  And after
    [--anonymous-owner=nobody], where nobody has the uid 4294967294, the
    option prints through [%d] as [--anonymous-owner=-2], which the parser
    refuses. *)
Lemma append_args_round_trip_fails :
  netfs_append_args 100 test_append_std_options
    (mkOptions 60 (octal "0400") (-1) 2 0) [] 0
  = (ENOMEM, [], 0%nat)
  /\ knob_args 100 (mkOptions 60 (octal "0400") (-1) 2 0) = ["--clk-tck=60"]
  /\ argp_parser test_getpwnam (code "a") (Some "nobody") (startup_options 100)
     = Returned ESUCCESS (mkOptions 100 (octal "0400") (-1) 2 4294967294) []
  /\ options_wf (mkOptions 100 (octal "0400") (-1) 2 4294967294)
  /\ netfs_append_args 100 test_append_std_options
       (mkOptions 100 (octal "0400") (-1) 2 4294967294) [] 1000
     = (ESUCCESS, ["--anonymous-owner=-2"], 979%nat)
  /\ argp_parser test_getpwnam (code "a") (Some "-2") (startup_options 100)
     = Returned ESUCCESS (startup_options 100)
         ["--anonymous-owner: USER should be a user name or a numeric UID."]
  /\ reparse 100 test_getpwnam test_std_options test_foreign_parser
       ["--anonymous-owner=-2"] = None
  /\ ~ (forall g az mem,
          options_wf g ->
          round_trip 100 test_getpwnam test_append_std_options
            test_std_options test_foreign_parser g az mem).
Proof.
  assert (Hwf : options_wf (mkOptions 60 (octal "0400") (-1) 2 0)).
  { unfold options_wf, is_int, is_unsigned. vm_compute.
    repeat split; discriminate. }
  assert (Hwf' : options_wf (mkOptions 100 (octal "0400") (-1) 2 4294967294)).
  { unfold options_wf, is_int, is_unsigned. vm_compute.
    repeat split; discriminate. }
  split; [reflexivity|]. split; [reflexivity|]. split; [reflexivity|].
  split; [exact Hwf'|]. split; [reflexivity|]. split; [reflexivity|].
  split; [reflexivity|].
  intros H.
  destruct (H (mkOptions 60 (octal "0400") (-1) 2 0) [] 0%nat Hwf)
    as [[mem' Hm] _].
  vm_compute in Hm. discriminate Hm.
Qed.

(** ** The further properties at work on the small system *)

Lemma test_passwd_ok : passwd_ok test_getpwnam.
Proof.
  intros n pw. unfold test_getpwnam, passwd_db. cbn [lookup_passwd pw_name].
  destruct ("root" =? n)%string;
    [intros E; injection E as <-; apply is_unsigned_small; cbn; lia|].
  destruct ("nobody" =? n)%string;
    [intros E; injection E as <-; apply is_unsigned_small; cbn; lia|].
  discriminate.
Qed.

Lemma respects_table_with_argument (k : Z) (a : string) :
  k = code "h" \/ k = code "s" \/ k = code "S" \/ k = code "k"
  \/ k = code "a" ->
  respects_table (k, Some a).
Proof.
  intros Hk o Ho Hkey. cbn [fst snd] in *. split; [|discriminate].
  intros Harg. exfalso. unfold common_options in Ho. cbn [In] in Ho.
  destruct Ho as [<- | [<- | [<- | [<- | [<- | [<- | [<- | [<- | [<- | []]]]]]]]]];
    cbn [key arg] in *; try discriminate Harg;
    destruct Hk as [-> | [-> | [-> | [-> | ->]]]]; discriminate Hkey.
Qed.

Lemma respects_table_without_argument (k : Z) :
  k = code "c" \/ k = code "S" \/ k = NODEV_KEY \/ k = NOEXEC_KEY
  \/ k = NOSUID_KEY ->
  respects_table (k, None).
Proof.
  intros Hk o Ho Hkey. cbn [fst snd] in *. split; [reflexivity|].
  intros Harg Hfl. exfalso. unfold common_options in Ho. cbn [In] in Ho.
  destruct Ho as [<- | [<- | [<- | [<- | [<- | [<- | [<- | [<- | [<- | []]]]]]]]]];
    cbn [key arg flags] in *; try (apply Harg; reflexivity);
    try discriminate Hfl;
    destruct Hk as [-> | [-> | [-> | [-> | ->]]]]; discriminate Hkey.
Qed.

(** X3 at work: [--clk-tck=abc] is refused and changes nothing. *)
Lemma argp_error_leaves_options_witness :
  argp_parser test_getpwnam (code "h") (Some "abc") (startup_options 100)
  = Returned ESUCCESS (startup_options 100)
      ["--clk-tck: HZ should be a positive integer"]
  /\ (["--clk-tck: HZ should be a positive integer"] <> [] ->
      startup_options 100 = startup_options 100 /\ ESUCCESS = ESUCCESS).
Proof.
  split; [reflexivity|].
  exact (proj1 (proj2 (proj2
           (argp_error_leaves_options test_getpwnam (code "h") (Some "abc")
              (startup_options 100) (startup_options 100) ESUCCESS
              ["--clk-tck: HZ should be a positive integer"] eq_refl)))).
Defined.

(** X4 at work: [-c] is known, the key of [--nodev] is not. *)
Lemma table_and_parser_agree_witness :
  returned_code
    (argp_parser test_getpwnam (code "c") None (startup_options 100))
  <> Some ARGP_ERR_UNKNOWN
  /\ argp_parser test_getpwnam NODEV_KEY None (startup_options 100)
     = Returned ARGP_ERR_UNKNOWN (startup_options 100) [].
Proof.
  destruct (table_and_parser_agree test_getpwnam)
    as (_ & _ & Hknown & Hunknown & _).
  split.
  - apply Hknown. unfold policy_keys. cbn [In]. auto 10.
  - apply Hunknown. unfold policy_keys. cbn [In].
    intros [H | [H | [H | [H | [H | [H | []]]]]]]; discriminate H.
Defined.

(** X5 at work: [--clk-tck=100] honours the table, the call returns. *)
Lemma parser_faults_only_against_the_table_witness :
  respects_table (code "h", Some "100")
  /\ argp_parser test_getpwnam (code "h") (Some "100") (startup_options 60)
     <> Fault.
Proof.
  assert (H : respects_table (code "h", Some "100"))
    by (apply respects_table_with_argument; auto).
  split; [exact H|].
  exact (proj2 (parser_faults_only_against_the_table test_getpwnam (code "h")
                  (Some "100") (startup_options 60)) H).
Defined.

(** X6 at work: the options after [-c -a nobody] are sound. *)
Lemma parsed_options_are_sound_witness :
  policy_ok (mkOptions 100 (octal "0444") 1 2 4294967294).
Proof.
  apply (proj2 (proj2 (parsed_options_are_sound 60 test_getpwnam
                         test_std_options test_foreign_parser test_passwd_ok
                         ltac:(vm_compute; split; [reflexivity | discriminate])))
           false [(code "c", None); (code "a", Some "nobody")]).
  reflexivity.
Defined.

(** X7 at work: the server started with [-c]. *)
Lemma served_state_is_sound_witness :
  policy_ok (mkOptions 100 (octal "0444") 1 2 0).
Proof.
  refine (proj1 (served_state_is_sound 60 test_getpwnam test_std_options
            test_foreign_parser test_world nat test_netnode
            test_proclist_make_node test_rootdir_make_node
            test_dircat_make_node test_ps_context_create
            test_task_get_bootstrap_port test_netfs_init test_netfs_startup
            [(code "c", None)] (mkWorld 3 []) _ _ _ test_passwd_ok
            ltac:(vm_compute; split; [reflexivity | discriminate]) eq_refl)).
Defined.

(** X8 at work: the options after [-c -k 3 -a 1000] print and parse
    back. *)
Lemma parsed_options_round_trip_witness :
  round_trip 60 test_getpwnam test_append_std_options test_std_options
    test_foreign_parser (mkOptions 100 (octal "0444") 1 3 1000) [] 1000.
Proof.
  apply (parsed_options_round_trip 60 test_getpwnam test_append_std_options
           test_std_options test_foreign_parser false
           [(code "c", None); (code "k", Some "3"); (code "a", Some "1000")]).
  - exact test_passwd_ok.
  - vm_compute. split; [reflexivity | discriminate].
  - reflexivity.
  - right. split; [vm_compute; discriminate | reflexivity].
  - vm_compute. repeat constructor.
Defined.

(** X10 at work: after [-k -5], the runtime option [-k 3] leaves -5. *)
Lemma negative_kernel_pid_is_final_witness :
  match
    argp_parse
      (netfs_runtime_argp test_getpwnam test_std_options test_foreign_parser)
      true [(code "k", Some "3")] (set_kernel_pid (startup_options 100) (-5))
  with
  | Parsed g' | Failed _ g' => opt_kernel_pid g' = -5
  | _ => True
  end.
Proof.
  apply (negative_kernel_pid_is_final test_getpwnam test_std_options
           test_foreign_parser true [(code "k", Some "3")]
           (set_kernel_pid (startup_options 100) (-5))).
  vm_compute. reflexivity.
Defined.

(** X11 at work: [-h 100] stores 100 from every state. *)
Lemma acceptance_is_independent_of_the_state_witness :
  (exists v, forall g,
      argp_parser test_getpwnam (code "h") (Some "100") g
      = Returned ESUCCESS (set_knob (code "h") g v) [])
  \/ (exists msg, forall g,
         argp_parser test_getpwnam (code "h") (Some "100") g
         = Returned ESUCCESS g [msg])
  \/ (forall g,
         argp_parser test_getpwnam (code "h") (Some "100") g = Fault).
Proof.
  apply (acceptance_is_independent_of_the_state test_getpwnam (code "h")
           (Some "100")).
  left. reflexivity.
Defined.

(** X12 at work: [-h 50 -s 644] and [-s 644 -h 50]. *)
Lemma knob_options_commute_witness :
  options_after
    (argp_parser test_getpwnam (code "s") (Some "644")
       (options_after
          (argp_parser test_getpwnam (code "h") (Some "50")
             (startup_options 100)) (startup_options 100)))
    (options_after
       (argp_parser test_getpwnam (code "h") (Some "50")
          (startup_options 100)) (startup_options 100))
  = options_after
      (argp_parser test_getpwnam (code "h") (Some "50")
         (options_after
            (argp_parser test_getpwnam (code "s") (Some "644")
               (startup_options 100)) (startup_options 100)))
      (options_after
         (argp_parser test_getpwnam (code "s") (Some "644")
            (startup_options 100)) (startup_options 100)).
Proof.
  apply (knob_options_commute test_getpwnam (code "h") (code "s")).
  - unfold knob_keys. cbn [In]. auto.
  - unfold knob_keys. cbn [In]. auto.
  - discriminate.
Defined.

(** X13 at work: [-h 100 -h 50] leaves what [-h 50] leaves. *)
Lemma last_accepted_argument_wins_witness :
  argp_parser test_getpwnam (code "h") (Some "50")
    (options_after
       (argp_parser test_getpwnam (code "h") (Some "100")
          (startup_options 60)) (startup_options 60))
  = Returned ESUCCESS (set_clk_tck (startup_options 60) 50) [].
Proof.
  apply (last_accepted_argument_wins test_getpwnam (code "h")).
  - left. reflexivity.
  - reflexivity.
Defined.

(** X14 at work: two knob strings of 13 and 16 bytes; 29 bytes are
    enough, 20 bytes leave the first string only. *)
Lemma append_args_memory_witness :
  netfs_append_args 100 test_append_std_options
    (mkOptions 60 (octal "0444") (-1) 2 0) ["--readonly"] 29
  = (ESUCCESS, ["--readonly"; "--clk-tck=60"; "--stat-mode=444"], 0%nat)
  /\ exists l1 s l2,
       knob_args 100 (mkOptions 60 (octal "0444") (-1) 2 0)
       = (l1 ++ s :: l2)%list
       /\ (argz_bytes l1 <= 20 < argz_bytes l1 + S (String.length s))%nat
       /\ netfs_append_args 100 test_append_std_options
            (mkOptions 60 (octal "0444") (-1) 2 0) ["--readonly"] 20
          = (ENOMEM, (["--readonly"] ++ l1)%list, (20 - argz_bytes l1)%nat).
Proof.
  destruct (append_args_memory 100 test_append_std_options
              (mkOptions 60 (octal "0444") (-1) 2 0) ["--readonly"] 29)
    as (Henough & _ & _).
  destruct (append_args_memory 100 test_append_std_options
              (mkOptions 60 (octal "0444") (-1) 2 0) ["--readonly"] 20)
    as (_ & Hshort & _).
  split.
  - rewrite Henough; [reflexivity | vm_compute; repeat constructor].
  - apply Hshort. vm_compute. repeat constructor.
Defined.

(** X15 at work: the longest string, for the owner 2147483648, which
    [%d] prints as the least [int]. *)
Lemma option_strings_fit_the_buffer_witness :
  (String.length "--anonymous-owner=-2147483648" <= 29)%nat
  /\ snprintf 80 "--anonymous-owner=-2147483648"
     = "--anonymous-owner=-2147483648".
Proof.
  apply (option_strings_fit_the_buffer 100
           (mkOptions 100 (octal "0400") (-1) 2 2147483648)).
  - unfold options_wf, is_int, is_unsigned. vm_compute.
    repeat split; discriminate.
  - vm_compute. left. reflexivity.
Defined.

(** X16 at work: [main] on [--clk-tck=100 --compatible]. *)
Lemma main_never_faults_witness :
  main 100 test_getpwnam test_std_options test_foreign_parser
    test_world nat test_netnode test_proclist_make_node
    test_rootdir_make_node test_dircat_make_node test_ps_context_create
    test_task_get_bootstrap_port test_netfs_init test_netfs_startup
    [(code "h", Some "100"); (code "c", None)] (mkWorld 3 [])
  <> Crash test_world test_netnode.
Proof.
  apply (main_never_faults 100 test_getpwnam test_std_options
           test_foreign_parser test_world nat test_netnode
           test_proclist_make_node test_rootdir_make_node
           test_dircat_make_node test_ps_context_create
           test_task_get_bootstrap_port test_netfs_init test_netfs_startup).
  intros t [<- | [<- | []]].
  - apply respects_table_with_argument. auto.
  - apply respects_table_without_argument. auto.
Defined.

(** X17 at work: [--clk-tck=0] ends [main] and is skipped at run
    time. *)
Lemma refused_argument_is_fatal_at_startup_only_witness :
  main 100 test_getpwnam test_std_options test_foreign_parser
    test_world nat test_netnode test_proclist_make_node
    test_rootdir_make_node test_dircat_make_node test_ps_context_create
    test_task_get_bootstrap_port test_netfs_init test_netfs_startup
    [(code "h", Some "0"); (code "c", None)] (mkWorld 3 [])
  = ArgpExit test_world test_netnode
      ["--clk-tck: HZ should be a positive integer"]
  /\ argp_parse
       (netfs_runtime_argp test_getpwnam test_std_options test_foreign_parser)
       true [(code "h", Some "0"); (code "c", None)] (startup_options 100)
     = argp_parse
         (netfs_runtime_argp test_getpwnam test_std_options
            test_foreign_parser)
         true [(code "c", None)] (startup_options 100).
Proof.
  destruct (refused_argument_is_fatal_at_startup_only 100 test_getpwnam
              test_std_options test_foreign_parser test_world nat test_netnode
              test_proclist_make_node test_rootdir_make_node
              test_dircat_make_node test_ps_context_create
              test_task_get_bootstrap_port test_netfs_init test_netfs_startup
              (code "h") (Some "0") [(code "c", None)] (startup_options 100)
              "--clk-tck: HZ should be a positive integer"
              ltac:(unfold policy_keys; cbn [In]; auto) eq_refl)
    as (_ & Hrun & Hmain).
  split; [apply Hmain; reflexivity | exact Hrun].
Defined.

(** X18 at work: the netfs library of the small system declares [-r]
    and [-w], so [--update] has no parser at run time. *)
Lemma update_is_an_option_of_the_unused_argp_witness :
  owner (netfs_runtime_argp test_getpwnam test_std_options test_foreign_parser)
    (code "u") = None.
Proof.
  apply (proj2 (proj2 (proj2
           (update_is_an_option_of_the_unused_argp test_getpwnam
              test_std_options test_foreign_parser test_std_options
              test_foreign_parser)))).
  reflexivity.
Defined.

(** X9 at work: on a fresh start [--kernel-process=-5] is accepted and
    [--kernel-process=99999999999] stores [LONG_MAX]; after the first,
    [--kernel-process=7] is refused, as [--kernel-process=init] always
    is. *)
Lemma kernel_process_accepted_iff_stored_pid_nonnegative_witness :
  argp_parser test_getpwnam (code "k") (Some "-5") (startup_options 100)
  = Returned ESUCCESS (set_kernel_pid (startup_options 100) (-5)) []
  /\ argp_parser test_getpwnam (code "k") (Some "99999999999")
       (startup_options 100)
     = Returned ESUCCESS (set_kernel_pid (startup_options 100) 2147483647) []
  /\ argp_parser test_getpwnam (code "k") (Some "7")
       (set_kernel_pid (startup_options 100) (-5))
     = Returned ESUCCESS (set_kernel_pid (startup_options 100) (-5))
         ["--kernel-process: PID must be a positive integer"]
  /\ argp_parser test_getpwnam (code "k") (Some "init") (startup_options 100)
     = Returned ESUCCESS (startup_options 100)
         ["--kernel-process: PID must be a positive integer"].
Proof.
  split; [|split; [|split]].
  - exact (proj1 (proj1 (kernel_process_accepted_iff_stored_pid_nonnegative
                           test_getpwnam "-5" (startup_options 100))
                    (-5) ltac:(discriminate) denotes_minus_5)).
  - exact (proj1 (proj1 (kernel_process_accepted_iff_stored_pid_nonnegative
                           test_getpwnam "99999999999" (startup_options 100))
                    99999999999 ltac:(discriminate) denotes_99999999999)).
  - apply (proj2 (kernel_process_accepted_iff_stored_pid_nonnegative
                    test_getpwnam "7"
                    (set_kernel_pid (startup_options 100) (-5)))).
    left. reflexivity.
  - apply (proj2 (kernel_process_accepted_iff_stored_pid_nonnegative
                    test_getpwnam "init" (startup_options 100))).
    right. intros [n Hn].
    destruct (integer_text_strtol "init" n 0 "init" Hn eq_refl) as [He _].
    discriminate He.
Defined.
